(** * cocotbext-axis: AXI-Stream driver and monitor

    A shallow embedding of [src/axis/__init__.py]: the byte-to-word encoder
    [AXIS_Master._send_bytes], the word-to-packet decoder
    [AXIS_Monitor._monitor_recv], and the two constructors; and, clock
    edge by clock edge, [_send_bytes] with its valid-gating and its wait
    for [tready], and [_driver_send] for a [bytes] transaction
    ([Clocked]).

    Signal values are cocotb [BinaryValue] bit strings ([binstr]): one
    character per bit, most significant bit first, drawn from
    ["01xXzZuUwW-lLhH"].  Python exceptions are the constructors of [exn];
    fallible code lives in the [result] monad, and the monitor's receive
    cycle in a state monad over its pending table and the log of packets
    handed to [_recv], in which state survives a raised exception. *)

From Stdlib Require Import Strings.Ascii Strings.String Strings.Byte NArith.
From stdpp Require Import base option list numbers countable gmap.

Local Open Scope char_scope.
Local Open Scope list_scope.

(** ** Exceptions and the error monad *)

Inductive exn : Set :=
  | AXIS_ProtocolError
  | AttributeError
  | ValueError
  | KeyError
  | IndexError
  | TypeError.

Inductive result (A : Type) : Type :=
  | Ok (a : A)
  | Raise (e : exn).
Arguments Ok {A} a.
Arguments Raise {A} e.

Global Instance result_ret : MRet result := λ A a, Ok a.
Global Instance result_bind : MBind result := λ A B k r,
  match r with
  | Ok a => k a
  | Raise e => Raise e
  end.

(** ** Bit strings *)

Definition binstr := list ascii.

Definition char_in (c : ascii) (cs : list ascii) : bool :=
  existsb (Ascii.eqb c) cs.

(** [cocotb.binary.resolve] with [COCOTB_RESOLVE_X] at its default
    [VALUE_ERROR]: weak zeros and ones are replaced, and any of
    ["xXzZuUwW"] left in the string raises [ValueError]. *)
Definition _resolve_to_0 : list ascii := ["-"; "l"; "L"].
Definition _resolve_to_1 : list ascii := ["h"; "H"].
Definition _resolve_to_error : list ascii :=
  ["x"; "X"; "z"; "Z"; "u"; "U"; "w"; "W"].

Definition resolve_char (c : ascii) : ascii :=
  if char_in c _resolve_to_0 then "0"
  else if char_in c _resolve_to_1 then "1"
  else c.

Definition resolve (s : binstr) : result binstr :=
  let s' := map resolve_char s in
  if existsb (fun c => char_in c _resolve_to_error) s'
  then Raise ValueError
  else Ok s'.

(** Python's [int(s, 2)] on the characters a resolved [binstr] can hold. *)
Fixpoint int2_digits (s : binstr) (acc : N) : result N :=
  match s with
  | [] => Ok acc
  | c :: s' =>
      if Ascii.eqb c "0" then int2_digits s' (2 * acc)%N
      else if Ascii.eqb c "1" then int2_digits s' (2 * acc + 1)%N
      else Raise ValueError
  end.

Definition int2 (s : binstr) : result N :=
  match s with
  | [] => Raise ValueError
  | _ => int2_digits s 0%N
  end.

(** [int(handle)] is [int(resolve(handle.value.binstr), 2)]. *)
Definition int_signal (v : binstr) : result N :=
  r ← resolve v; int2 r.

(** [s[b]] and [s[lo:hi]] on strings, for [0 <= lo <= hi]. *)
Definition index {A} (s : list A) (b : nat) : result A :=
  match s !! b with
  | Some c => Ok c
  | None => Raise IndexError
  end.

Definition slice {A} (s : list A) (lo hi : nat) : list A :=
  take (hi - lo) (drop lo s).

(** ["{:08b}".format(b)] for a byte. *)
Definition bit_char (b : bool) : ascii := if b then "1" else "0".

Definition format_08b (b : byte) : binstr :=
  map (fun i => bit_char (N.testbit (Byte.to_N b) i))
      [7; 6; 5; 4; 3; 2; 1; 0]%N.

(** [bytes(l)] on a list of integers: [ValueError] outside [range(256)]. *)
Fixpoint bytes (l : list N) : result (list byte) :=
  match l with
  | [] => Ok []
  | n :: l' =>
      match Byte.of_N n with
      | Some b => bs ← bytes l'; Ok (b :: bs)
      | None => Raise ValueError
      end
  end.

(** [range(0, stop, step)]; a zero step raises [ValueError]. *)
Definition range_step (stop step : nat) : result (list nat) :=
  match step with
  | O => Raise ValueError
  | _ => Ok (map (fun i => i * step) (seq 0 (Nat.div (stop + step - 1) step)))
  end.

(** ** The bus *)

(** Which optional signals the bus has, and how wide ([len(self.bus.x)]).
    [tvalid] is mandatory. *)
Record Bus : Set := {
  len_tdata : option nat;
  has_tkeep : bool;
  has_tstrb : bool;
  has_tready : bool;
  has_tlast : bool;
  len_tid : option nat;
  len_tdest : option nat;
  len_tuser : option nat;
}.

Definition present {A} (o : option A) : bool :=
  match o with Some _ => true | None => false end.

(** The values on the wires at one sample point (after [RisingEdge] and
    [ReadOnly]), together with the monitor's [in_reset] property.  The
    value of a signal the bus does not have is never read. *)
Record Sample : Set := {
  in_reset : bool;
  tvalid : binstr;
  tready : binstr;
  tdata : binstr;
  tkeep : binstr;
  tstrb : binstr;
  tlast : binstr;
  tid : binstr;
  tdest : binstr;
  tuser : binstr;
}.

Definition set_tvalid (v : binstr) (w : Sample) : Sample :=
  {| in_reset := in_reset w; tvalid := v; tready := tready w;
     tdata := tdata w; tkeep := tkeep w; tstrb := tstrb w; tlast := tlast w;
     tid := tid w; tdest := tdest w; tuser := tuser w |}.
Definition set_tdata (v : binstr) (w : Sample) : Sample :=
  {| in_reset := in_reset w; tvalid := tvalid w; tready := tready w;
     tdata := v; tkeep := tkeep w; tstrb := tstrb w; tlast := tlast w;
     tid := tid w; tdest := tdest w; tuser := tuser w |}.
Definition set_tkeep (v : binstr) (w : Sample) : Sample :=
  {| in_reset := in_reset w; tvalid := tvalid w; tready := tready w;
     tdata := tdata w; tkeep := v; tstrb := tstrb w; tlast := tlast w;
     tid := tid w; tdest := tdest w; tuser := tuser w |}.
Definition set_tstrb (v : binstr) (w : Sample) : Sample :=
  {| in_reset := in_reset w; tvalid := tvalid w; tready := tready w;
     tdata := tdata w; tkeep := tkeep w; tstrb := v; tlast := tlast w;
     tid := tid w; tdest := tdest w; tuser := tuser w |}.
Definition set_tlast (v : binstr) (w : Sample) : Sample :=
  {| in_reset := in_reset w; tvalid := tvalid w; tready := tready w;
     tdata := tdata w; tkeep := tkeep w; tstrb := tstrb w; tlast := v;
     tid := tid w; tdest := tdest w; tuser := tuser w |}.
Definition set_tid (v : binstr) (w : Sample) : Sample :=
  {| in_reset := in_reset w; tvalid := tvalid w; tready := tready w;
     tdata := tdata w; tkeep := tkeep w; tstrb := tstrb w; tlast := tlast w;
     tid := v; tdest := tdest w; tuser := tuser w |}.
Definition set_tdest (v : binstr) (w : Sample) : Sample :=
  {| in_reset := in_reset w; tvalid := tvalid w; tready := tready w;
     tdata := tdata w; tkeep := tkeep w; tstrb := tstrb w; tlast := tlast w;
     tid := tid w; tdest := v; tuser := tuser w |}.
Definition set_tuser (v : binstr) (w : Sample) : Sample :=
  {| in_reset := in_reset w; tvalid := tvalid w; tready := tready w;
     tdata := tdata w; tkeep := tkeep w; tstrb := tstrb w; tlast := tlast w;
     tid := tid w; tdest := tdest w; tuser := v |}.

(** [signal <= value] when the bus has the signal ([hasattr] guard). *)
Definition drive_if (c : bool) (set : binstr → Sample → Sample)
    (v : binstr) (w : Sample) : Sample :=
  if c then set v w else w.

(** The width check both constructors start with. *)
Definition n_bytes_of (bus : Bus) : result nat :=
  match len_tdata bus with
  | Some w =>
      let n_bytes := Nat.div w 8 in
      let rem := Nat.modulo w 8 in
      if negb (Nat.eqb rem 0) then Raise AttributeError else Ok n_bytes
  | None => Ok 1
  end.

(** ** The driver *)

Module AXIS_Master.

Record t : Set := {
  bus : Bus;
  _n_bytes : nat;
  _lsb_first : bool;
}.

(** The wires this driver leaves idle: [tvalid] low, all else unknown. *)
Definition _idle_outputs (self : t) (w : Sample) : Sample :=
  let w := set_tvalid ["0"] w in
  let w := match len_tdata (bus self) with
           | Some n => set_tdata (replicate n "x") w | None => w end in
  let w := drive_if (has_tlast (bus self)) set_tlast ["x"] w in
  let w := drive_if (has_tkeep (bus self)) set_tkeep
             (replicate (_n_bytes self) "x") w in
  let w := drive_if (has_tstrb (bus self)) set_tstrb
             (replicate (_n_bytes self) "x") w in
  let w := match len_tid (bus self) with
           | Some n => set_tid (replicate n "x") w | None => w end in
  let w := match len_tdest (bus self) with
           | Some n => set_tdest (replicate n "x") w | None => w end in
  match len_tuser (bus self) with
  | Some n => set_tuser (replicate n "x") w | None => w end.

(** The constructor: the width check, then the idle drive of the wires. *)
Definition __init__ (bus : Bus) (lsb_first : bool) (w : Sample)
    : result (t * Sample) :=
  n_bytes ← n_bytes_of bus;
  let self := {| bus := bus; _n_bytes := n_bytes;
                 _lsb_first := lsb_first |} in
  Ok (self, _idle_outputs self w).

(** One iteration of the [for offset] loop, up to its
    [yield RisingEdge]: the wires as they stand when the word is
    sampled.  Driving [tdata] on a bus without it is an
    [AttributeError]. *)
Definition send_word (self : t) (padstr : binstr) (bytestr : list byte)
    (offset : nat) (w : Sample) : result Sample :=
  let n := _n_bytes self in
  let '(last_word, padbytes) :=
    if bool_decide (offset + n < length bytestr)
    then ("0", 0)
    else ("1", offset + n - length bytestr) in
  let w := set_tvalid ["1"] w in
  let w := drive_if (has_tlast (bus self)) set_tlast [last_word] w in
  let bytelist := slice bytestr offset (offset + n) in
  let bytelist := if _lsb_first self then reverse bytelist else bytelist in
  let binstr := concat (map format_08b bytelist) in
  let '(binstr, keepstr) :=
    if negb (Nat.eqb padbytes 0) then
      if _lsb_first self then
        (concat (replicate padbytes padstr) ++ binstr,
         replicate padbytes "0" ++ replicate (n - padbytes) "1")
      else
        (binstr ++ concat (replicate padbytes padstr),
         replicate (n - padbytes) "1" ++ replicate padbytes "0")
    else (binstr, replicate n "1") in
  w ← (if present (len_tdata (bus self)) then Ok (set_tdata binstr w)
       else Raise AttributeError);
  let w := drive_if (has_tkeep (bus self)) set_tkeep keepstr w in
  let w := drive_if (has_tstrb (bus self)) set_tstrb keepstr w in
  Ok w.

Fixpoint send_loop (self : t) (padstr : binstr) (bytestr : list byte)
    (offsets : list nat) (w : Sample) : result (list Sample * Sample) :=
  match offsets with
  | [] => Ok ([], w)
  | offset :: rest =>
      w ← send_word self padstr bytestr offset w;
      '(trace, w') ← send_loop self padstr bytestr rest w;
      Ok (w :: trace, w')
  end.

(** [_send_bytes]: the wires at the sample point where each word is
    transferred, in order, and the wires left behind.  The valid-gating
    of [ValidatedBusDriver] ([self.on], [self.off]) and the wait for
    [tready] only add sample points with [tvalid] or [tready] low
    before a word is transferred (see [idle]); driver and monitor are
    taken to read the same [tready] at a sample point.  The [tid],
    [tdest] and [tuser] arguments are never driven. *)
Definition _send_bytes (self : t) (bytestr : list byte) (padZero : bool)
    (w : Sample) : result (list Sample * Sample) :=
  let padstr := if padZero then replicate 8 "0" else replicate 8 "X" in
  offsets ← range_step (length bytestr) (_n_bytes self);
  '(trace, w) ← send_loop self padstr bytestr offsets w;
  Ok (trace, _idle_outputs self w).

End AXIS_Master.

(** ** The monitor *)

(** What [_recv] is handed: the dict [recv_pkt], one field per key. *)
Inductive user_value : Set :=
  | UserBytewise (l : list N)
  | UserWord (s : binstr).

Record Packet : Set := {
  pkt_data : option (list byte);
  pkt_user : option user_value;
  pkt_tid : option N;
  pkt_tdest : option N;
}.

Definition empty_pkt : Packet :=
  {| pkt_data := None; pkt_user := None; pkt_tid := None; pkt_tdest := None |}.
Definition set_pkt_data (v : list byte) (p : Packet) : Packet :=
  {| pkt_data := Some v; pkt_user := pkt_user p; pkt_tid := pkt_tid p;
     pkt_tdest := pkt_tdest p |}.
Definition set_pkt_user (v : user_value) (p : Packet) : Packet :=
  {| pkt_data := pkt_data p; pkt_user := Some v; pkt_tid := pkt_tid p;
     pkt_tdest := pkt_tdest p |}.
Definition set_pkt_tid (v : N) (p : Packet) : Packet :=
  {| pkt_data := pkt_data p; pkt_user := pkt_user p; pkt_tid := Some v;
     pkt_tdest := pkt_tdest p |}.
Definition set_pkt_tdest (v : N) (p : Packet) : Packet :=
  {| pkt_data := pkt_data p; pkt_user := pkt_user p; pkt_tid := pkt_tid p;
     pkt_tdest := Some v |}.

(** One value of [packet_buf]: a dict with an optional ["data"] list of
    per-word [bytes] chunks and an optional ["user"] list. *)
Record Entry : Set := {
  e_data : option (list (list byte));
  e_user : option (list N);
}.

Definition StreamKey : Set := option N * option N.

(** The monitor's state: its pending table and the packets handed to
    [_recv] so far. *)
Record State : Type := {
  packet_buf : gmap (option N * option N) Entry;
  received : list Packet;
}.

Definition initial : State := {| packet_buf := ∅; received := [] |}.

(** State survives an exception. *)
Definition M (A : Type) : Type := State → result A * State.

Global Instance M_ret : MRet M := λ A a st, (Ok a, st).
Global Instance M_bind : MBind M := λ A B k m st,
  match m st with
  | (Ok a, st') => k a st'
  | (Raise e, st') => (Raise e, st')
  end.

Definition lift {A} (r : result A) : M A := λ st, (r, st).
Definition get_buf : M (gmap (option N * option N) Entry) :=
  λ st, (Ok (packet_buf st), st).
Definition put_buf (buf : gmap (option N * option N) Entry) : M unit :=
  λ st, (Ok (), {| packet_buf := buf; received := received st |}).
Definition _recv (p : Packet) : M unit :=
  λ st, (Ok (), {| packet_buf := packet_buf st;
                   received := received st ++ [p] |}).

(** [try: body / except KeyError: handler]. *)
Definition try_except_KeyError {A} (body handler : M A) : M A := λ st,
  match body st with
  | (Raise KeyError, st') => handler st'
  | r => r
  end.

(** [packet_buf[k]], [e["data"]], [e["user"]], [del packet_buf[k]]. *)
Definition getitem (k : StreamKey) : M Entry :=
  buf ← get_buf;
  match buf !! k with
  | Some e => mret e
  | None => lift (Raise KeyError)
  end.
Definition getitem_data (e : Entry) : M (list (list byte)) :=
  match e_data e with Some d => mret d | None => lift (Raise KeyError) end.
Definition getitem_user (e : Entry) : M (list N) :=
  match e_user e with Some u => mret u | None => lift (Raise KeyError) end.
Definition setitem (k : StreamKey) (e : Entry) : M unit :=
  buf ← get_buf; put_buf (<[k := e]> buf).
Definition delitem (k : StreamKey) : M unit :=
  buf ← get_buf;
  match buf !! k with
  | Some _ => put_buf (delete k buf)
  | None => lift (Raise KeyError)
  end.

Module AXIS_Monitor.

Record t : Set := {
  bus : Bus;
  _n_bytes : nat;
  _tuser_bytewise : bool;
  _user_bits : nat;
  _lsb_first : bool;
}.

(** The constructor.  Without [tuser] the two user attributes are
    never set and never read. *)
Definition __init__ (bus : Bus) (lsb_first tuser_bytewise : bool)
    : result t :=
  n_bytes ← n_bytes_of bus;
  '(bytewise, user_bits) ←
    match len_tuser bus with
    | Some lu =>
        if tuser_bytewise && negb (Nat.eqb n_bytes 0) then
          let user_bits := Nat.div lu n_bytes in
          let rem := Nat.modulo lu n_bytes in
          if negb (Nat.eqb rem 0) then Raise AttributeError
          else Ok (tuser_bytewise, user_bits)
        else Ok (tuser_bytewise, lu)
    | None => Ok (false, 0)
    end;
  Ok {| bus := bus; _n_bytes := n_bytes; _tuser_bytewise := bytewise;
        _user_bits := user_bits; _lsb_first := lsb_first |}.

(** The [getattr] defaults taken before the loop: a missing [tkeep] is
    all ones, a missing [tstrb] is whatever [tkeep] is. *)
Definition tkeep_of (self : t) (s : Sample) : binstr :=
  if has_tkeep (bus self) then tkeep s else replicate (_n_bytes self) "1".
Definition tstrb_of (self : t) (s : Sample) : binstr :=
  if has_tstrb (bus self) then tstrb s else tkeep_of self s.

(** A signal handle is true when the bus has the signal. *)
Definition has_tdata (self : t) : bool := present (len_tdata (bus self)).
Definition has_tuser (self : t) : bool := present (len_tuser (bus self)).
Definition has_tid (self : t) : bool := present (len_tid (bus self)).
Definition has_tdest (self : t) : bool := present (len_tdest (bus self)).

(** [resolve(tkeep.value.binstr[b] + tstrb.value.binstr[b])]. *)
Definition byte_type (self : t) (s : Sample) (b : nat) : result binstr :=
  k ← index (tkeep_of self s) b;
  st ← index (tstrb_of self s) b;
  resolve [k; st].

(** The body of [for b in byte_range], on the two accumulators. *)
Definition lane (self : t) (s : Sample) (b : nat)
    (acc : list N * list N) : result (list N * list N) :=
  let '(filtered_data, filtered_user) := acc in
  byte_type ← byte_type self s b;
  if bool_decide (byte_type = ["1"; "1"]) then
    filtered_data ←
      (if has_tdata self then
         r ← resolve (slice (tdata s) (b * 8) ((b + 1) * 8));
         v ← int2 r;
         Ok (filtered_data ++ [v])
       else Ok filtered_data);
    filtered_user ←
      (if has_tuser self && _tuser_bytewise self then
         r ← resolve (slice (tuser s) (b * _user_bits self)
                                      ((b + 1) * _user_bits self));
         v ← int2 r;
         Ok (filtered_user ++ [v])
       else Ok filtered_user);
    Ok (filtered_data, filtered_user)
  else if bool_decide (byte_type = ["1"; "0"]) then
    let filtered_data :=
      if has_tdata self then filtered_data ++ [0%N] else filtered_data in
    let filtered_user :=
      if has_tuser self && _tuser_bytewise self
      then filtered_user ++ [0%N] else filtered_user in
    Ok (filtered_data, filtered_user)
  else if bool_decide (byte_type = ["0"; "1"]) then
    Raise AXIS_ProtocolError
  else
    Ok (filtered_data, filtered_user).

Fixpoint lanes (self : t) (s : Sample) (byte_range : list nat)
    (acc : list N * list N) : result (list N * list N) :=
  match byte_range with
  | [] => Ok acc
  | b :: rest => acc ← lane self s b acc; lanes self s rest acc
  end.

Definition byte_range (self : t) : list nat :=
  if _lsb_first self then reverse (seq 0 (_n_bytes self))
  else seq 0 (_n_bytes self).

(** [recv_pkt["user"]], in either branch of the last-word case. *)
Definition user_of_word (s : Sample) : M user_value :=
  r ← lift (resolve (tuser s)); mret (UserWord r).

(** The [try] block of the last-word case. *)
Definition complete (self : t) (s : Sample) (stream_id : StreamKey)
    (filtered_data filtered_user : list N) : M unit :=
  let recv_pkt := empty_pkt in
  recv_pkt ←
    (if has_tdata self then
       e ← getitem stream_id;
       chunks ← getitem_data e;
       bs ← lift (bytes filtered_data);
       mret (set_pkt_data (concat chunks ++ bs) recv_pkt)
     else mret recv_pkt);
  recv_pkt ←
    (if has_tuser self then
       if _tuser_bytewise self then
         e ← getitem stream_id;
         u ← getitem_user e;
         mret (set_pkt_user (UserBytewise (u ++ filtered_user)) recv_pkt)
       else
         u ← user_of_word s;
         mret (set_pkt_user u recv_pkt)
     else mret recv_pkt);
  recv_pkt ←
    (if has_tid self then
       v ← lift (int_signal (tid s)); mret (set_pkt_tid v recv_pkt)
     else mret recv_pkt);
  recv_pkt ←
    (if has_tdest self then
       v ← lift (int_signal (tdest s)); mret (set_pkt_tdest v recv_pkt)
     else mret recv_pkt);
  _ ← _recv recv_pkt;
  delitem stream_id.

(** Its [except KeyError] handler: [recv_pkt] is filled in from this
    word alone, and the handler ends there.  When the [KeyError] comes
    from the [del] (no [tdata], no byte-wise [tuser]) the dict has been
    handed to [_recv] already and gets the same values once more. *)
Definition complete_unbuffered (self : t) (s : Sample)
    (filtered_data filtered_user : list N) : M unit :=
  let recv_pkt := empty_pkt in
  recv_pkt ←
    (if has_tdata self then
       bs ← lift (bytes filtered_data);
       mret (set_pkt_data bs recv_pkt)
     else mret recv_pkt);
  recv_pkt ←
    (if has_tuser self then
       if _tuser_bytewise self then
         mret (set_pkt_user (UserBytewise filtered_user) recv_pkt)
       else
         u ← user_of_word s;
         mret (set_pkt_user u recv_pkt)
     else mret recv_pkt);
  recv_pkt ←
    (if has_tid self then
       v ← lift (int_signal (tid s)); mret (set_pkt_tid v recv_pkt)
     else mret recv_pkt);
  recv_pkt ←
    (if has_tdest self then
       v ← lift (int_signal (tdest s)); mret (set_pkt_tdest v recv_pkt)
     else mret recv_pkt);
  mret ().

(** The [try] block of the other case: append to the pending entry. *)
Definition extend (self : t) (stream_id : StreamKey)
    (filtered_data filtered_user : list N) : M unit :=
  _ ← (if has_tdata self then
         e ← getitem stream_id;
         chunks ← getitem_data e;
         bs ← lift (bytes filtered_data);
         setitem stream_id
           {| e_data := Some (chunks ++ [bs]); e_user := e_user e |}
       else mret ());
  if has_tuser self && _tuser_bytewise self then
    e ← getitem stream_id;
    u ← getitem_user e;
    setitem stream_id
      {| e_data := e_data e; e_user := Some (u ++ filtered_user) |}
  else mret ().

(** Its [except KeyError] handler: a new pending entry. *)
Definition create (self : t) (stream_id : StreamKey)
    (filtered_data filtered_user : list N) : M unit :=
  let e := {| e_data := None; e_user := None |} in
  _ ← setitem stream_id e;
  e ← (if has_tdata self then
         bs ← lift (bytes filtered_data);
         let e := {| e_data := Some [bs]; e_user := e_user e |} in
         _ ← setitem stream_id e; mret e
       else mret e);
  if has_tuser self && _tuser_bytewise self then
    setitem stream_id {| e_data := e_data e; e_user := Some filtered_user |}
  else mret ().

(** A transferred word: classify the lanes, then complete or extend. *)
Definition word (self : t) (s : Sample) : M unit :=
  '(filtered_data, filtered_user) ←
    lift (lanes self s (byte_range self) ([], []));
  id ← (if has_tid self then v ← lift (int_signal (tid s)); mret (Some v)
        else mret None);
  dest ← (if has_tdest self
          then v ← lift (int_signal (tdest s)); mret (Some v)
          else mret None);
  let stream_id := (id, dest) in
  is_last ← (if has_tlast (bus self)
             then v ← lift (int_signal (tlast s));
                  mret (negb (N.eqb v 0))
             else mret true);
  if is_last : bool then
    try_except_KeyError
      (complete self s stream_id filtered_data filtered_user)
      (complete_unbuffered self s filtered_data filtered_user)
  else
    try_except_KeyError
      (extend self stream_id filtered_data filtered_user)
      (create self stream_id filtered_data filtered_user).

(** One pass of the [while True] body, from the two [yield]s on.
    Without [tready] the default is an object [int()] does not
    accept. *)
Definition cycle (self : t) (s : Sample) : M unit :=
  if in_reset s then
    buf ← get_buf;
    if bool_decide (buf ≠ ∅) then put_buf ∅ else mret ()
  else
    valid ← lift (int_signal (tvalid s));
    if N.eqb valid 0 then mret ()
    else
      ready ← lift (if has_tready (bus self) then int_signal (tready s)
                     else Raise TypeError);
      if N.eqb ready 0 then mret ()
      else word self s.

(** The coroutine over the sample points it is resumed at: an
    exception that leaves [cycle] ends it. *)
Inductive status : Set :=
  | Running
  | Stopped (e : exn).

Fixpoint _monitor_recv (self : t) (samples : list Sample) (st : State)
    : status * State :=
  match samples with
  | [] => (Running, st)
  | s :: rest =>
      match cycle self s st with
      | (Ok _, st') => _monitor_recv self rest st'
      | (Raise e, st') => (Stopped e, st')
      end
  end.

End AXIS_Monitor.

(** ** The qualifier truth table, in the spec's words

    [classify] follows section 4.1 of the specification, not the source;
    the lane theorem below compares [AXIS_Monitor.lane] with it. *)
Inductive ByteClass : Set := Data | Position | Null | Invalid.

Definition classify (keep strb : bool) : ByteClass :=
  match keep, strb with
  | true, true => Data
  | true, false => Position
  | false, true => Invalid
  | false, false => Null
  end.

(** "Not a multiple of", for the two width conditions. *)
Definition data_width_bad (bus : Bus) : Prop :=
  ∃ w, len_tdata bus = Some w ∧ ¬ Nat.divide 8 w.

Definition byte_lanes (bus : Bus) : nat :=
  match len_tdata bus with Some w => Nat.div w 8 | None => 1 end.

Definition user_width_bad (bus : Bus) : Prop :=
  ∃ lu, len_tuser bus = Some lu ∧ ¬ Nat.divide (byte_lanes bus) lu.

(** ** Definitions used to state the properties *)

(** Every step only appends to the log of received packets. *)
Definition with_log {X} (r : list Packet) (x : X * State) : X * State :=
  (x.1, {| packet_buf := packet_buf x.2; received := r ++ received x.2 |}).

Definition framed {A} (m : M A) : Prop :=
  ∀ buf r,
    m {| packet_buf := buf; received := r |} =
    with_log r (m {| packet_buf := buf; received := [] |}).

(** A step that cannot raise [AXIS_ProtocolError]. *)
Definition no_protocol_error {A} (m : M A) : Prop :=
  ∀ st st', m st ≠ (Raise AXIS_ProtocolError, st').

(** A sample point at which the monitor takes the word: not in reset,
    [tvalid] and [tready] both read as non-zero. *)
Definition transferred (self : AXIS_Monitor.t) (s : Sample) : Prop :=
  in_reset s = false
  ∧ (∃ v, int_signal (tvalid s) = Ok v ∧ v ≠ 0%N)
  ∧ has_tready (AXIS_Monitor.bus self) = true
  ∧ (∃ r, int_signal (tready s) = Ok r ∧ r ≠ 0%N).

(** A sample point at which nothing is transferred: [tvalid] low (the
    driver's valid-gating) or [tready] low (the receiver's
    back-pressure). *)
Definition idle (self : AXIS_Monitor.t) (s : Sample) : Prop :=
  in_reset s = false
  ∧ (int_signal (tvalid s) = Ok 0%N
     ∨ ((∃ v, int_signal (tvalid s) = Ok v)
        ∧ has_tready (AXIS_Monitor.bus self) = true
        ∧ int_signal (tready s) = Ok 0%N)).

(** [with_idle self l l']: [l'] is [l] with idle sample points put in
    anywhere. *)
Inductive with_idle (self : AXIS_Monitor.t)
    : list Sample → list Sample → Prop :=
  | with_idle_nil : with_idle self [] []
  | with_idle_word s l l' :
      with_idle self l l' → with_idle self (s :: l) (s :: l')
  | with_idle_wait s l l' :
      idle self s → with_idle self l l' → with_idle self l (s :: l').

(** A word seen lane by lane, in lane-index order: [Some v] is a lane
    carrying the byte [v], [None] a padding lane. *)
Definition word_layout (lsb_first : bool) (W : nat) (c : list byte)
    : list (option byte) :=
  if lsb_first then replicate (W - length c) None ++ (Some <$> reverse c)
  else (Some <$> c) ++ replicate (W - length c) None.

Definition keep_char (x : option byte) : ascii :=
  match x with Some _ => "1" | None => "0" end.

Definition lane_bits (padstr : binstr) (x : option byte) : binstr :=
  match x with Some v => format_08b v | None => padstr end.

Definition payload_of (x : option byte) : list N :=
  match x with Some v => [Byte.to_N v] | None => [] end.

(** The wires [send_word] leaves for a chunk [c]. *)
Definition word_wires (self : AXIS_Master.t) (padstr : binstr)
    (layout : list (option byte)) (last_word : ascii) (w : Sample) : Sample :=
  drive_if (has_tstrb (AXIS_Master.bus self)) set_tstrb (keep_char <$> layout)
    (drive_if (has_tkeep (AXIS_Master.bus self)) set_tkeep
       (keep_char <$> layout)
       (set_tdata (concat (lane_bits padstr <$> layout))
          (drive_if (has_tlast (AXIS_Master.bus self)) set_tlast [last_word]
             (set_tvalid ["1"] w)))).

Definition master_on (bus : Bus) (lsb_first : bool) (W : nat)
    : AXIS_Master.t :=
  {| AXIS_Master.bus := bus; AXIS_Master._n_bytes := W;
     AXIS_Master._lsb_first := lsb_first |}.

Definition monitor_on (bus : Bus) (lsb_first : bool) (W : nat)
    : AXIS_Monitor.t :=
  {| AXIS_Monitor.bus := bus; AXIS_Monitor._n_bytes := W;
     AXIS_Monitor._tuser_bytewise := false; AXIS_Monitor._user_bits := 0;
     AXIS_Monitor._lsb_first := lsb_first |}.

(** What the driver does not drive: no reset, and a receiver that is
    ready. *)
Definition wires_ok (w : Sample) : Prop :=
  in_reset w = false ∧ ∃ r, int_signal (tready w) = Ok r ∧ r ≠ 0%N.

(** The pending table of a bus without [tid] and [tdest]: at most the
    one entry, holding the chunks [d] received so far. *)
Definition pending (d : list (list byte)) : gmap (option N * option N) Entry :=
  match d with
  | [] => ∅
  | _ => {[ (None, None) := {| e_data := Some d; e_user := None |} ]}
  end.

Definition data_pkt (payload : list byte) : Packet :=
  set_pkt_data payload empty_pkt.

(** The wires at each transfer of [send_loop]. *)
Fixpoint wires_trace (self : AXIS_Master.t) (padstr : binstr)
    (bytestr : list byte) (offsets : list nat) (w : Sample) : list Sample :=
  match offsets with
  | [] => []
  | off :: rest =>
      let w1 :=
        word_wires self padstr
          (word_layout (AXIS_Master._lsb_first self)
             (AXIS_Master._n_bytes self)
             (slice bytestr off (off + AXIS_Master._n_bytes self)))
          (if bool_decide (off + AXIS_Master._n_bytes self < length bytestr)
           then "0" else "1") w in
      w1 :: wires_trace self padstr bytestr rest w1
  end.

(** What one transferred word of the trace does to the chunks pending
    and the packets received. *)
Definition absorb (W : nat) (bytestr : list byte)
    (st : list (list byte) * list Packet) (off : nat)
    : list (list byte) * list Packet :=
  let '(d, r) := st in
  let c := slice bytestr off (off + W) in
  if bool_decide (off + W < length bytestr) then (d ++ [c], r)
  else match d with
       | [] => ([], r)
       | _ => ([], r ++ [data_pkt (concat d ++ c)])
       end.

(** ** Data for the worked examples *)

Definition bits (s : String.string) : binstr := String.list_ascii_of_string s.
Arguments bits s%_string.

(** A 32-bit bus with every qualifier and no side signals; the same with
    16 data bits; with a [tuser] of two bits per lane; without [tstrb];
    and an 8-bit bus with a one-bit [tid]. *)
Definition bus32 : Bus :=
  {| len_tdata := Some 32; has_tkeep := true; has_tstrb := true;
     has_tready := true; has_tlast := true;
     len_tid := None; len_tdest := None; len_tuser := None |}.
Definition bus16 : Bus :=
  {| len_tdata := Some 16; has_tkeep := true; has_tstrb := true;
     has_tready := true; has_tlast := true;
     len_tid := None; len_tdest := None; len_tuser := None |}.
Definition bus32_user : Bus :=
  {| len_tdata := Some 32; has_tkeep := true; has_tstrb := true;
     has_tready := true; has_tlast := true;
     len_tid := None; len_tdest := None; len_tuser := Some 8 |}.
Definition bus16_nostrb : Bus :=
  {| len_tdata := Some 16; has_tkeep := true; has_tstrb := false;
     has_tready := true; has_tlast := true;
     len_tid := None; len_tdest := None; len_tuser := None |}.
Definition bus8_id : Bus :=
  {| len_tdata := Some 8; has_tkeep := true; has_tstrb := true;
     has_tready := true; has_tlast := true;
     len_tid := Some 1; len_tdest := None; len_tuser := None |}.
Definition bus12 : Bus :=
  {| len_tdata := Some 12; has_tkeep := true; has_tstrb := true;
     has_tready := true; has_tlast := true;
     len_tid := None; len_tdest := None; len_tuser := None |}.

(** Wires nobody drives yet, with the receiver ready. *)
Definition quiet_wires : Sample :=
  {| in_reset := false; tvalid := bits "x"; tready := bits "1";
     tdata := []; tkeep := []; tstrb := []; tlast := [];
     tid := []; tdest := []; tuser := [] |}.

(** A transferred word, and a sample point in reset. *)
Definition beat (data keep strb last id : binstr) : Sample :=
  {| in_reset := false; tvalid := bits "1"; tready := bits "1";
     tdata := data; tkeep := keep; tstrb := strb; tlast := last;
     tid := id; tdest := []; tuser := [] |}.
Definition reset_beat : Sample :=
  {| in_reset := true; tvalid := bits "0"; tready := bits "0";
     tdata := []; tkeep := []; tstrb := []; tlast := [];
     tid := []; tdest := []; tuser := [] |}.

Definition mon16 : AXIS_Monitor.t := monitor_on bus16 true 2.
Definition mon8_id : AXIS_Monitor.t := monitor_on bus8_id true 1.

Definition payload5 : list byte := [x11; x22; x33; x44; x55]%byte.

Definition single_word : Sample :=
  beat (concat (format_08b <$> [x44; x33; x22; x11]%byte)) (bits "1111")
    (bits "1111") (bits "1") [].

Definition word_a : Sample :=
  beat (format_08b xaa) (bits "1") (bits "1") (bits "1") (bits "0").
Definition word_b1 : Sample :=
  beat (format_08b xb1) (bits "1") (bits "1") (bits "0") (bits "1").
Definition word_b2 : Sample :=
  beat (format_08b xb2) (bits "1") (bits "1") (bits "1") (bits "1").

Definition word_a1 : Sample :=
  beat (format_08b xa1) (bits "1") (bits "1") (bits "0") (bits "0").
Definition word_a2 : Sample :=
  beat (format_08b xa2) (bits "1") (bits "1") (bits "1") (bits "0").

Definition pkt_a : Packet :=
  set_pkt_tid 0 (set_pkt_data [xa1; xa2]%byte empty_pkt).
Definition pkt_b : Packet :=
  set_pkt_tid 1 (set_pkt_data [xb1; xb2]%byte empty_pkt).

Definition position_word : Sample :=
  beat (format_08b x22 ++ format_08b x11) (bits "11") (bits "10")
    (bits "0") [].

Definition invalid_word : Sample :=
  beat (format_08b x22 ++ format_08b x11) (bits "10") (bits "11")
    (bits "1") [].

Definition beat_first : Sample :=
  beat (format_08b x22 ++ format_08b x11) (bits "11") (bits "11")
    (bits "0") [].
Definition beat_middle : Sample :=
  beat (format_08b x44 ++ format_08b x33) (bits "11") (bits "11")
    (bits "0") [].
Definition beat_last : Sample :=
  beat (format_08b x66 ++ format_08b x55) (bits "11") (bits "11")
    (bits "1") [].

(** A word whose lane 1 is Data with unknown data bits and whose lane 0
    is (0,1). *)
Definition unknown_then_invalid : Sample :=
  beat (format_08b x22 ++ bits "xxxxxxxx") (bits "01") (bits "11")
    (bits "1") [].

(** ** Definitions for further properties of the code *)

(** The exceptions a step, or a fallible value, may raise. *)
Definition raises_within {A} (allowed : list exn) (m : M A) : Prop :=
  ∀ st e st', m st = (Raise e, st') → e ∈ allowed.

Definition result_within {A} (allowed : list exn) (r : result A) : Prop :=
  ∀ e, r = Raise e → e ∈ allowed.

(** A bus with [tvalid] alone, and one with data but no [tready]. *)
Definition bus_bare : Bus :=
  {| len_tdata := None; has_tkeep := false; has_tstrb := false;
     has_tready := false; has_tlast := false;
     len_tid := None; len_tdest := None; len_tuser := None |}.
Definition bus16_noready : Bus :=
  {| len_tdata := Some 16; has_tkeep := true; has_tstrb := true;
     has_tready := false; has_tlast := true;
     len_tid := None; len_tdest := None; len_tuser := None |}.

(** A transferred word as the monitor reads it: the stream it belongs
    to, the payload bytes of its lanes, and whether it ends a packet. *)
Record Beat : Set := {
  b_key : StreamKey;
  b_chunk : list byte;
  b_last : bool;
}.

(** The reads of [AXIS_Monitor.word] on their own: the [stream_id]
    tuple, the test [not tlast or int(tlast)], and the three together
    with the lane loop and [bytes(filtered_data)]. *)
Definition stream_id (self : AXIS_Monitor.t) (s : Sample)
    : result StreamKey :=
  id ← (if AXIS_Monitor.has_tid self
        then v ← int_signal (tid s); Ok (Some v) else Ok None);
  dest ← (if AXIS_Monitor.has_tdest self
          then v ← int_signal (tdest s); Ok (Some v) else Ok None);
  Ok (id, dest).

Definition is_last (self : AXIS_Monitor.t) (s : Sample) : result bool :=
  if has_tlast (AXIS_Monitor.bus self)
  then v ← int_signal (tlast s); Ok (negb (N.eqb v 0))
  else Ok true.

Definition decoded (self : AXIS_Monitor.t) (s : Sample) : result Beat :=
  acc ← AXIS_Monitor.lanes self s (AXIS_Monitor.byte_range self) ([], []);
  k ← stream_id self s;
  l ← is_last self s;
  c ← bytes acc.1;
  Ok {| b_key := k; b_chunk := c; b_last := l |}.

(** The packet received for a stream on a bus without [tuser]. *)
Definition tagged_pkt (k : StreamKey) (payload : list byte) : Packet :=
  {| pkt_data := Some payload; pkt_user := None;
     pkt_tid := k.1; pkt_tdest := k.2 |}.

Definition pkt_key (p : Packet) : StreamKey := (pkt_tid p, pkt_tdest p).

(** What a transferred word does to the monitor's state, as a function
    of the word read: a last word completes the pending packet of its
    stream, and is dropped when nothing is pending for it; any other
    word is appended to the pending packet, or starts one. *)
Definition reassemble (st : State) (bt : Beat) : State :=
  let k := b_key bt in
  match (packet_buf st !! k) ≫= e_data with
  | Some d =>
      if b_last bt then
        {| packet_buf := delete k (packet_buf st);
           received := received st
                       ++ [tagged_pkt k (concat d ++ b_chunk bt)] |}
      else
        {| packet_buf :=
             <[k := {| e_data := Some (d ++ [b_chunk bt]);
                       e_user := (packet_buf st !! k) ≫= e_user |}]>
               (packet_buf st);
           received := received st |}
  | None =>
      if b_last bt then st
      else
        {| packet_buf :=
             <[k := {| e_data := Some [b_chunk bt]; e_user := None |}]>
               (packet_buf st);
           received := received st |}
  end.

(** A sample the monitor takes without an error: in reset, idle, or a
    transferred word whose fields all resolve. *)
Definition clean (self : AXIS_Monitor.t) (s : Sample) : Prop :=
  in_reset s = true ∨ idle self s
  ∨ (transferred self s ∧ ∃ bt, decoded self s = Ok bt).

(** The samples that concern stream [k]: its own words, and resets. *)
Definition concerns (self : AXIS_Monitor.t) (k : StreamKey) (s : Sample)
    : bool :=
  in_reset s
  || match decoded self s with
     | Ok bt => bool_decide (b_key bt = k)
     | Raise _ => false
     end.

(** What a run leaves for the stream [k]: the packets received for it
    and its pending entry. *)
Definition stream_view (k : StreamKey) (st : State)
    : list Packet * option Entry :=
  (filter (λ p, pkt_key p = k) (received st), packet_buf st !! k).

(** The words of one packet of the stream [k], a word per chunk, the
    last one marked. *)
Fixpoint beats_of (k : StreamKey) (chunks : list (list byte)) : list Beat :=
  match chunks with
  | [] => []
  | c :: rest =>
      {| b_key := k; b_chunk := c; b_last := bool_decide (rest = []) |}
        :: beats_of k rest
  end.

(** The pending table with the chunks [d] held for the stream [k]. *)
Definition held (k : StreamKey) (d : list (list byte))
    (buf : gmap (option N * option N) Entry)
    : gmap (option N * option N) Entry :=
  match d with
  | [] => buf
  | _ => <[k := {| e_data := Some d; e_user := None |}]> buf
  end.

(** A bus whose packets are single words: no [tlast]. *)
Definition bus16_nolast : Bus :=
  {| len_tdata := Some 16; has_tkeep := true; has_tstrb := true;
     has_tready := true; has_tlast := false;
     len_tid := None; len_tdest := None; len_tuser := None |}.

(** ** The driver against the clock *)

Definition set_tready (v : binstr) (w : Sample) : Sample :=
  {| in_reset := in_reset w; tvalid := tvalid w; tready := v;
     tdata := tdata w; tkeep := tkeep w; tstrb := tstrb w; tlast := tlast w;
     tid := tid w; tdest := tdest w; tuser := tuser w |}.

(** [_send_bytes] and [_driver_send] once more, now with every
    [yield RisingEdge(self.clock)]: the valid-gating and the wait for
    [tready] that [AXIS_Master._send_bytes] leaves out.  The driver
    does not drive [tready]; the clock and the receiver are the list
    [env] of the [tready] values at the sample points to come, one per
    clock edge until the simulation ends.  The driver reads [tready] as
    it is at the sample point it has just passed. *)
Module Clocked.

(** [self.on] is [True] or a count of valid cycles left ([False]
    counts as 0); [self.off] is the number of cycles to stay idle;
    [valid_generator] is whatever [_next_valids] draws the two from. *)
Inductive valid_count : Set :=
  | Always
  | Count (n : Z).

Record Valids (G : Type) : Type := {
  on : valid_count;
  off : nat;
  valid_generator : G;
}.
Arguments on {G} _.
Arguments off {G} _.
Arguments valid_generator {G} _.

(** How a coroutine ends: it returns, it is still waiting at a [yield]
    when the clock stops, or it raises. *)
Inductive outcome (A : Type) : Type :=
  | Returned (a : A)
  | Suspended
  | Raised (e : exn).
Arguments Returned {A} a.
Arguments Suspended {A}.
Arguments Raised {A} e.

(** A coroutine: from the sample points to come to the wires at the
    sample points it passes, and its end with the points left over. *)
Definition Coroutine (A : Type) : Type :=
  list binstr → list Sample * outcome (A * list binstr).

Global Instance Coroutine_ret : MRet Coroutine :=
  λ A a env, ([], Returned (a, env)).
Global Instance Coroutine_bind : MBind Coroutine := λ A B k m env,
  match m env with
  | (tr, Returned (a, env')) => let '(tr', o) := k a env' in (tr ++ tr', o)
  | (tr, Suspended) => (tr, Suspended)
  | (tr, Raised e) => (tr, Raised e)
  end.

Definition lift_result {A} (r : result A) : Coroutine A := λ env,
  match r with
  | Ok a => ([], Returned (a, env))
  | Raise e => ([], Raised e)
  end.

(** [yield RisingEdge(self.clock)] with the wires at [w]: the sample
    point is passed, and [tready] as it is there. *)
Definition RisingEdge (w : Sample) : Coroutine binstr := λ env,
  match env with
  | [] => ([], Suspended)
  | r :: env' => ([set_tready r w], Returned (r, env'))
  end.

(** [for _ in range(n): yield RisingEdge(self.clock)]. *)
Fixpoint wait_cycles (n : nat) (w : Sample) : Coroutine unit :=
  match n with
  | O => mret ()
  | S n => _ ← RisingEdge w; wait_cycles n w
  end.

(** [while not int(self.bus.tready): yield RisingEdge(self.clock)],
    after a sample point where [tready] was [r]. *)
Fixpoint wait_tready (w : Sample) (r : binstr) (env : list binstr)
    {struct env} : list Sample * outcome (unit * list binstr) :=
  match int_signal r with
  | Raise e => ([], Raised e)
  | Ok v =>
      if N.eqb v 0 then
        match env with
        | [] => ([], Suspended)
        | r' :: env' =>
            let '(tr, o) := wait_tready w r' env' in
            (set_tready r' w :: tr, o)
        end
      else ([], Returned ((), env))
  end.

(** [not self.on]. *)
Definition is_off (c : valid_count) : bool :=
  match c with
  | Always => false
  | Count n => Z.eqb n 0
  end.

(** [if self.on is not True and self.on: self.on -= 1]. *)
Definition consume_valid {G} (v : Valids G) : Valids G :=
  match on v with
  | Always => v
  | Count n =>
      if Z.eqb n 0 then v
      else {| on := Count (n - 1); off := off v;
              valid_generator := valid_generator v |}
  end.

Section Driver.
Context {G : Type}.

(** [ValidatedBusDriver._next_valids], on the gating state. *)
Variable _next_valids : Valids G → Valids G.

(** The [if not self.on] block of [_send_bytes]. *)
Definition gate (self : AXIS_Master.t) (padstr : binstr) (v : Valids G)
    (w : Sample) : Coroutine (Valids G * Sample) :=
  if is_off (on v) then
    w ← lift_result
          (if present (len_tdata (AXIS_Master.bus self))
           then Ok (set_tdata
                      (concat (replicate (AXIS_Master._n_bytes self) padstr))
                      w)
           else Raise AttributeError);
    let w := set_tvalid ["0"] w in
    _ ← wait_cycles (off v) w;
    mret (_next_valids v, w)
  else mret (v, w).

(** The [for offset] loop with its [yield]s. *)
Fixpoint send_loop (self : AXIS_Master.t) (padstr : binstr)
    (bytestr : list byte) (offsets : list nat) (v : Valids G) (w : Sample)
    : Coroutine (Valids G * Sample) :=
  match offsets with
  | [] => mret (v, w)
  | offset :: rest =>
      '(v, w) ← gate self padstr v w;
      let v := consume_valid v in
      w ← lift_result (AXIS_Master.send_word self padstr bytestr offset w);
      r ← RisingEdge w;
      _ ← (if has_tready (AXIS_Master.bus self) then wait_tready w r
           else mret ());
      send_loop self padstr bytestr rest v w
  end.

Definition _send_bytes (self : AXIS_Master.t) (bytestr : list byte)
    (padZero : bool) (v : Valids G) (w : Sample)
    : Coroutine (Valids G * Sample) :=
  let padstr := if padZero then replicate 8 "0" else replicate 8 "X" in
  offsets ← lift_result
              (range_step (length bytestr) (AXIS_Master._n_bytes self));
  '(v, w) ← send_loop self padstr bytestr offsets v w;
  mret (v, AXIS_Master._idle_outputs self w).

(** [_driver_send] for a [bytes] transaction: [transaction[0]] is an
    [int], or an [IndexError]; [padZero] is the one keyword argument
    that [_send_bytes] uses. *)
Definition _driver_send (self : AXIS_Master.t) (transaction : list byte)
    (sync padZero : bool) (v : Valids G) (w : Sample)
    : Coroutine (Valids G * Sample) :=
  _ ← (if sync then _ ← RisingEdge w; mret () else mret ());
  _ ← lift_result (index transaction 0);
  _send_bytes self transaction padZero v w.

End Driver.

End Clocked.

(** [paced ready l l']: the sample points [l'] of a clocked run against
    its transfers [l].  Points with [tvalid] low lie anywhere; each
    transfer is held, the wires unchanged, while [tready] reads 0, and
    passed at the point where it reads non-zero (on a bus without
    [tready], at its first point). *)
Inductive paced (ready : bool) : list Sample → list Sample → Prop :=
  | paced_nil : paced ready [] []
  | paced_gap s l l' :
      tvalid s = ["0"] → paced ready l l' → paced ready l (s :: l')
  | paced_stall s r l l' :
      ready = true → int_signal r = Ok 0%N →
      paced ready (s :: l) l' →
      paced ready (s :: l) (set_tready r s :: l')
  | paced_pass s r l l' :
      (ready = true → ∃ v, int_signal r = Ok v ∧ v ≠ 0%N) →
      paced ready l l' →
      paced ready (s :: l) (set_tready r s :: l').

(** ** Definitions for the properties of the clocked driver *)

(** A valid generator for the worked examples: the pairs still to
    come; once they are used up the driver is valid in every cycle. *)
Definition next_valids_of_list
    (v : Clocked.Valids (list (Z * nat))) : Clocked.Valids (list (Z * nat)) :=
  match Clocked.valid_generator v with
  | (n, f) :: g =>
      {| Clocked.on := Clocked.Count n; Clocked.off := f;
         Clocked.valid_generator := g |}
  | [] =>
      {| Clocked.on := Clocked.Always; Clocked.off := Clocked.off v;
         Clocked.valid_generator := [] |}
  end.

(** A [tready] value that lets a word pass, and the number of such
    sample points. *)
Definition is_ready (r : binstr) : bool :=
  match int_signal r with
  | Ok v => negb (N.eqb v 0)
  | Raise _ => false
  end.

Definition ready_points (env : list binstr) : nat :=
  length (filter (λ r, is_ready r) env).

Definition resolved (r : binstr) : Prop := ∃ v, int_signal r = Ok v.

(** A driver that is valid for one cycle, then idle for two, then
    valid for one and idle for one, and from then on valid; a driver
    that is always valid; and a receiver that is ready now and then. *)
Definition gated_valids : Clocked.Valids (list (Z * nat)) :=
  {| Clocked.on := Clocked.Count 1; Clocked.off := 2;
     Clocked.valid_generator := [(1%Z, 1)] |}.
Definition always_valid : Clocked.Valids (list (Z * nat)) :=
  {| Clocked.on := Clocked.Always; Clocked.off := 0;
     Clocked.valid_generator := [] |}.
Definition stalling_env : list binstr :=
  bits <$> ["1"; "0"; "1"; "0"; "0"; "1"; "1"; "0"; "1"; "1"; "1"; "1"]%string.

Definition master16 : AXIS_Master.t := master_on bus16 true 2.
Definition idle16 : Sample := AXIS_Master._idle_outputs master16 quiet_wires.

(** The five bytes of [payload5] sent over [bus16], after the [sync]
    edge, by the gated driver to the stalling receiver. *)
Definition gated_run
    : list Sample
      * Clocked.outcome
          (Clocked.Valids (list (Z * nat)) * Sample * list binstr) :=
  Clocked._driver_send next_valids_of_list master16 payload5 true false
    gated_valids idle16 stalling_env.

(** ** Definitions for the invariants of the monitor *)

(** Whether the monitor keeps a [tuser] value per byte. *)
Definition bytewise (self : AXIS_Monitor.t) : bool :=
  AXIS_Monitor.has_tuser self && AXIS_Monitor._tuser_bytewise self.

(** What [n] Data or Position lanes add to the two accumulators of the
    lane loop. *)
Definition lanes_add (self : AXIS_Monitor.t) (n : nat)
    (fd0 fu0 fd fu : list N) : Prop :=
  ∃ d u,
    fd = fd0 ++ d ∧ fu = fu0 ++ u
    ∧ Forall (λ v, (v < 256)%N) d
    ∧ length d = (if AXIS_Monitor.has_tdata self then n else 0)
    ∧ length u = (if bytewise self then n else 0).

(** Data and user values in step: a pending entry, a received packet
    and a state in which every byte has its [tuser] value. *)
Definition aligned_entry (e : Entry) : Prop :=
  ∃ d u, e = {| e_data := Some d; e_user := Some u |}
         ∧ length u = length (concat d).

Definition aligned_pkt (p : Packet) : Prop :=
  ∃ c u, pkt_data p = Some c ∧ pkt_user p = Some (UserBytewise u)
         ∧ length u = length c.

Definition aligned (st : State) : Prop :=
  map_Forall (λ _ e, aligned_entry e) (packet_buf st)
  ∧ Forall aligned_pkt (received st).

(** A 16-bit bus with a [tuser] of two bits per byte, its monitor in
    byte-wise mode, and two words of a packet on it. *)
Definition bus16_user : Bus :=
  {| len_tdata := Some 16; has_tkeep := true; has_tstrb := true;
     has_tready := true; has_tlast := true;
     len_tid := None; len_tdest := None; len_tuser := Some 4 |}.
Definition mon16_user : AXIS_Monitor.t :=
  {| AXIS_Monitor.bus := bus16_user; AXIS_Monitor._n_bytes := 2;
     AXIS_Monitor._tuser_bytewise := true; AXIS_Monitor._user_bits := 2;
     AXIS_Monitor._lsb_first := true |}.
Definition user_first : Sample :=
  {| in_reset := false; tvalid := bits "1"; tready := bits "1";
     tdata := format_08b x22 ++ format_08b x11; tkeep := bits "11";
     tstrb := bits "11"; tlast := bits "0";
     tid := []; tdest := []; tuser := bits "1001" |}.
Definition user_last : Sample :=
  {| in_reset := false; tvalid := bits "1"; tready := bits "1";
     tdata := format_08b x44 ++ format_08b x33; tkeep := bits "01";
     tstrb := bits "01"; tlast := bits "1";
     tid := []; tdest := []; tuser := bits "0011" |}.

(** A step that hands at most [n] packets to [_recv] and takes none
    back. *)
Definition hands_over (n : nat) {A} (m : M A) : Prop :=
  ∀ st res st', m st = (res, st') →
    ∃ new, received st' = received st ++ new ∧ length new ≤ n.

(** A chunk filled up to the word with zero bytes. *)
Definition zero_filled (W : nat) (c : list byte) : list byte :=
  c ++ replicate (W - length c) x00%byte.

(** A 16-bit bus without [tkeep] and [tstrb]. *)
Definition bus16_nokeep : Bus :=
  {| len_tdata := Some 16; has_tkeep := false; has_tstrb := false;
     has_tready := true; has_tlast := true;
     len_tid := None; len_tdest := None; len_tuser := None |}.

(** Steps that hand only packets with the property [P] to [_recv],
    and take none back. *)
Definition hands_only (P : Packet → Prop) {A} (m : M A) : Prop :=
  ∀ st res st', m st = (res, st') →
    ∃ new, received st' = received st ++ new ∧ Forall P new.

(** A packet as the sample point [s] completes it: the keys of the
    signals the bus has, with the side signals as they are at [s]. *)
Definition completed_at (self : AXIS_Monitor.t) (s : Sample) (p : Packet)
    : Prop :=
  (if AXIS_Monitor.has_tdata self then ∃ c, pkt_data p = Some c
   else pkt_data p = None)
  ∧ (if AXIS_Monitor.has_tuser self then
       if AXIS_Monitor._tuser_bytewise self
       then ∃ u, pkt_user p = Some (UserBytewise u)
       else ∃ r, resolve (tuser s) = Ok r ∧ pkt_user p = Some (UserWord r)
     else pkt_user p = None)
  ∧ (if AXIS_Monitor.has_tid self
     then ∃ v, int_signal (tid s) = Ok v ∧ pkt_tid p = Some v
     else pkt_tid p = None)
  ∧ (if AXIS_Monitor.has_tdest self
     then ∃ v, int_signal (tdest s) = Ok v ∧ pkt_tdest p = Some v
     else pkt_tdest p = None).

(** * Properties *)

(** ** Construction *)

Lemma not_divide_mod (a b : nat) :
  b ≠ 0 → (¬ Nat.divide b a ↔ Nat.eqb (a mod b) 0 = false).
Proof.
  intros Hb. rewrite Nat.eqb_neq. rewrite <- (Nat.Lcm0.mod_divide a b).
  tauto.
Qed.

Lemma n_bytes_of_raises (bus : Bus) :
  n_bytes_of bus = Raise AttributeError ↔ data_width_bad bus.
Proof.
  unfold n_bytes_of, data_width_bad. destruct (len_tdata bus) as [w|].
  - destruct (Nat.eqb (w mod 8) 0) eqn:E; simpl; split.
    + discriminate.
    + intros (w' & [= <-] & Hn). apply not_divide_mod in Hn; congruence.
    + intros _. exists w. split; [done|]. by apply not_divide_mod.
    + done.
  - split; [discriminate|]. by intros (w & ? & _).
Qed.

Lemma n_bytes_of_ok (bus : Bus) :
  ¬ data_width_bad bus → n_bytes_of bus = Ok (byte_lanes bus).
Proof.
  intros Hn. unfold n_bytes_of, byte_lanes, data_width_bad in *.
  destruct (len_tdata bus) as [w|]; [|done].
  destruct (Nat.eqb (w mod 8) 0) eqn:E; [done|].
  exfalso. apply Hn. exists w. split; [done|]. by apply not_divide_mod.
Qed.

(** C9.  On a bus whose data signal, if any, has at least one bit, the
    driver's constructor raises exactly when the data width is not a
    multiple of 8, and the monitor's exactly when that holds or, in
    byte-wise user mode, the user width is not a multiple of the number
    of byte lanes.  The error is the constructor's own result: the
    driver's idle drive of the wires comes after the check. *)
Theorem construction_fails_iff (bus : Bus) (lsb_first bytewise : bool)
    (w : Sample) :
  (∀ n, len_tdata bus = Some n → 0 < n) →
  (AXIS_Master.__init__ bus lsb_first w = Raise AttributeError
     ↔ data_width_bad bus) ∧
  (AXIS_Monitor.__init__ bus lsb_first bytewise = Raise AttributeError
     ↔ data_width_bad bus ∨ (bytewise = true ∧ user_width_bad bus)) ∧
  (∀ e, AXIS_Master.__init__ bus lsb_first w = Raise e
        ∨ AXIS_Monitor.__init__ bus lsb_first bytewise = Raise e
        → e = AttributeError).
Proof.
  intros Hpos.
  assert (Hlanes : ¬ data_width_bad bus → byte_lanes bus ≠ 0).
  { intros Hn. unfold byte_lanes, data_width_bad in *.
    destruct (len_tdata bus) as [n|] eqn:E; [|done].
    specialize (Hpos n eq_refl).
    destruct (decide (Nat.divide 8 n)) as [[k ->]|Hd].
    - rewrite Nat.div_mul by done. lia.
    - exfalso. apply Hn. by exists n. }
  assert (Hdec : data_width_bad bus ∨ ¬ data_width_bad bus).
  { unfold data_width_bad. destruct (len_tdata bus) as [n|].
    - destruct (decide (Nat.divide 8 n)).
      + right. by intros (? & [= <-] & ?).
      + left. by exists n.
    - right. by intros (? & ? & _). }
  split; [|split].
  - unfold AXIS_Master.__init__. rewrite <- n_bytes_of_raises.
    destruct (n_bytes_of bus) as [n|e]; simpl;
      [split; discriminate | split; intros [= ->]; reflexivity].
  - unfold AXIS_Monitor.__init__.
    destruct Hdec as [Hbad|Hgood].
    + pose proof Hbad as Hr. apply n_bytes_of_raises in Hr. rewrite Hr.
      simpl. tauto.
    + rewrite (n_bytes_of_ok _ Hgood). simpl.
      specialize (Hlanes Hgood). unfold user_width_bad.
      destruct (len_tuser bus) as [lu|]; simpl.
      * destruct bytewise; simpl.
        -- apply Nat.eqb_neq in Hlanes. rewrite Hlanes. simpl.
           apply Nat.eqb_neq in Hlanes.
           destruct (Nat.eqb (lu mod byte_lanes bus) 0) eqn:E; simpl.
           ++ split; [discriminate|]. intros [?|[_ (? & [= <-] & Hn)]]; [done|].
              apply not_divide_mod in Hn; congruence.
           ++ split; [|done]. intros _. right. split; [done|].
              exists lu. split; [done|]. by apply not_divide_mod.
        -- split; [discriminate|]. by intros [?|[? _]].
      * split; [discriminate|]. by intros [?|[_ (? & ? & _)]].
  - assert (Hn : n_bytes_of bus = Raise AttributeError
                ∨ ∃ n, n_bytes_of bus = Ok n).
    { unfold n_bytes_of. destruct (len_tdata bus); [|eauto].
      destruct (negb _); eauto. }
    intros e [H|H].
    + unfold AXIS_Master.__init__ in H.
      destruct Hn as [Hn|[n Hn]]; rewrite Hn in H; cbn in H; congruence.
    + unfold AXIS_Monitor.__init__ in H.
      destruct Hn as [Hn|[n Hn]]; rewrite Hn in H;
        cbn -[Nat.div Nat.modulo] in H; [congruence|].
      destruct (len_tuser bus); cbn -[Nat.div Nat.modulo] in H;
        [|discriminate].
      destruct (_ && _); cbn -[Nat.div Nat.modulo] in H; [|discriminate].
      destruct (negb _); cbn -[Nat.div Nat.modulo] in H; congruence.
Qed.

(** ** The two monads *)

Lemma result_bind_ok {A B} (r : result A) (k : A → result B) (b : B) :
  r ≫= k = Ok b ↔ ∃ a, r = Ok a ∧ k a = Ok b.
Proof.
  destruct r as [a|e]; cbn; split.
  - eauto.
  - by intros (? & [= <-] & ?).
  - discriminate.
  - by intros (? & ? & _).
Qed.

Lemma M_bind_eq {A B} (m : M A) (k : A → M B) (st : State) :
  (m ≫= k) st =
  match m st with
  | (Ok a, st') => k a st'
  | (Raise e, st') => (Raise e, st')
  end.
Proof. reflexivity. Qed.

Lemma lift_bind_ok {A B} (r : result A) (k : A → M B) (a : A) (st : State) :
  r = Ok a → (lift r ≫= k) st = k a st.
Proof. by intros ->. Qed.

Lemma lift_bind_raise {A B} (r : result A) (k : A → M B) (e : exn)
    (st : State) :
  r = Raise e → (lift r ≫= k) st = (Raise e, st).
Proof. by intros ->. Qed.

Lemma framed_ret {A} (a : A) : framed (mret a).
Proof. intros buf r. unfold with_log; cbn. by rewrite app_nil_r. Qed.

Lemma framed_lift {A} (x : result A) : framed (lift x).
Proof. intros buf r. unfold with_log; cbn. by rewrite app_nil_r. Qed.

Lemma framed_get_buf : framed get_buf.
Proof. intros buf r. unfold with_log; cbn. by rewrite app_nil_r. Qed.

Lemma framed_put_buf buf' : framed (put_buf buf').
Proof. intros buf r. unfold with_log; cbn. by rewrite app_nil_r. Qed.

Lemma framed_recv p : framed (_recv p).
Proof. intros buf r. reflexivity. Qed.

Lemma framed_bind {A B} (m : M A) (k : A → M B) :
  framed m → (∀ a, framed (k a)) → framed (m ≫= k).
Proof.
  intros Hm Hk buf r. rewrite !M_bind_eq, Hm.
  destruct (m _) as [[a|e] [buf' out]]; unfold with_log; cbn; [|done].
  rewrite (Hk a buf' (r ++ out)), (Hk a buf' out).
  destruct (k a _) as [x [buf'' out']]. unfold with_log; cbn.
  by rewrite app_assoc.
Qed.

Lemma framed_try {A} (body handler : M A) :
  framed body → framed handler → framed (try_except_KeyError body handler).
Proof.
  intros Hb Hh buf r. unfold try_except_KeyError. rewrite Hb.
  destruct (body _) as [[a|e] [buf' out]]; unfold with_log; cbn; [done|].
  destruct e; try done.
  rewrite (Hh buf' (r ++ out)), (Hh buf' out).
  destruct (handler _) as [x [buf'' out']]. unfold with_log; cbn.
  by rewrite app_assoc.
Qed.

Create HintDb framed.
#[local] Hint Resolve framed_ret framed_lift framed_get_buf framed_put_buf
  framed_recv framed_try : framed.

Ltac framed_step :=
  match goal with
  | |- framed (_ ≫= _) => apply framed_bind; [|intros]
  | |- framed (if ?c then _ else _) => destruct c
  | |- framed (match ?x with _ => _ end) => destruct x
  | |- framed _ => solve [auto with framed]
  end.

Lemma framed_getitem k : framed (getitem k).
Proof. unfold getitem. repeat framed_step. Qed.
Lemma framed_getitem_data e : framed (getitem_data e).
Proof. unfold getitem_data. repeat framed_step. Qed.
Lemma framed_getitem_user e : framed (getitem_user e).
Proof. unfold getitem_user. repeat framed_step. Qed.
Lemma framed_setitem k e : framed (setitem k e).
Proof. unfold setitem. repeat framed_step. Qed.
Lemma framed_delitem k : framed (delitem k).
Proof. unfold delitem. repeat framed_step. Qed.
#[local] Hint Resolve framed_getitem framed_getitem_data framed_getitem_user
  framed_setitem framed_delitem : framed.

Lemma framed_word self s : framed (AXIS_Monitor.word self s).
Proof.
  unfold AXIS_Monitor.word, AXIS_Monitor.complete,
    AXIS_Monitor.complete_unbuffered, AXIS_Monitor.extend,
    AXIS_Monitor.create, AXIS_Monitor.user_of_word.
  repeat framed_step.
  all: apply framed_try; repeat framed_step.
Qed.

Lemma framed_cycle self s : framed (AXIS_Monitor.cycle self s).
Proof.
  unfold AXIS_Monitor.cycle. pose proof (framed_word self s).
  repeat framed_step.
Qed.

Lemma monitor_recv_framed self samples buf r :
  AXIS_Monitor._monitor_recv self samples
    {| packet_buf := buf; received := r |} =
  with_log r (AXIS_Monitor._monitor_recv self samples
                {| packet_buf := buf; received := [] |}).
Proof.
  revert buf r. induction samples as [|s rest IH]; intros buf r; cbn.
  - unfold with_log; cbn. by rewrite app_nil_r.
  - rewrite (framed_cycle self s buf r).
    destruct (AXIS_Monitor.cycle self s _) as [[[]|e] [buf' out]];
      unfold with_log; cbn; [|done].
    rewrite (IH buf' (r ++ out)), (IH buf' out).
    destruct (AXIS_Monitor._monitor_recv _ _ _) as [x [buf'' out']].
    unfold with_log; cbn. by rewrite app_assoc.
Qed.

Lemma monitor_recv_app self pre post st0 st :
  AXIS_Monitor._monitor_recv self pre st0 = (AXIS_Monitor.Running, st) →
  AXIS_Monitor._monitor_recv self (pre ++ post) st0 =
  AXIS_Monitor._monitor_recv self post st.
Proof.
  revert st0. induction pre as [|s pre IH]; intros st0; cbn.
  - by intros [= ->].
  - destruct (AXIS_Monitor.cycle self s st0) as [[[]|e] st1]; [|done].
    apply IH.
Qed.

(** ** Which exceptions the helpers raise *)

Lemma resolve_exn s e : resolve s = Raise e → e = ValueError.
Proof. unfold resolve. destruct (existsb _ _); congruence. Qed.

Lemma int2_digits_exn s acc e : int2_digits s acc = Raise e → e = ValueError.
Proof.
  revert acc. induction s as [|c s IH]; intros acc; cbn; [discriminate|].
  destruct (Ascii.eqb c "0"); [apply IH|].
  destruct (Ascii.eqb c "1"); [apply IH|congruence].
Qed.

Lemma int2_exn s e : int2 s = Raise e → e = ValueError.
Proof. destruct s; cbn -[int2_digits]; [congruence|apply int2_digits_exn]. Qed.

Lemma int_signal_exn v e : int_signal v = Raise e → e = ValueError.
Proof.
  unfold int_signal. destruct (resolve v) eqn:E; cbn.
  - apply int2_exn.
  - intros [= <-]. by apply resolve_exn in E.
Qed.

Lemma bytes_exn l e : bytes l = Raise e → e = ValueError.
Proof.
  induction l as [|n l IH]; cbn; [discriminate|].
  destruct (Byte.of_N n); [|congruence].
  destruct (bytes l); cbn; [discriminate|]. intros [= <-]. by apply IH.
Qed.

Lemma npe_ret {A} (a : A) : no_protocol_error (mret a).
Proof. intros st st'. discriminate. Qed.

Lemma npe_lift {A} (r : result A) :
  (∀ e, r = Raise e → e = ValueError) → no_protocol_error (lift r).
Proof. intros H st st' [= Hr _]. by apply H in Hr. Qed.

Lemma npe_lift_key {A} : no_protocol_error (lift (@Raise A KeyError)).
Proof. intros st st'. discriminate. Qed.

Lemma npe_get_buf : no_protocol_error get_buf.
Proof. intros st st'. discriminate. Qed.

Lemma npe_put_buf buf : no_protocol_error (put_buf buf).
Proof. intros st st'. discriminate. Qed.

Lemma npe_recv p : no_protocol_error (_recv p).
Proof. intros st st'. discriminate. Qed.

Lemma npe_bind {A B} (m : M A) (k : A → M B) :
  no_protocol_error m → (∀ a, no_protocol_error (k a)) →
  no_protocol_error (m ≫= k).
Proof.
  intros Hm Hk st st'. rewrite M_bind_eq.
  destruct (m st) as [[a|e] st1] eqn:E; [apply Hk|].
  intros [= -> ->]. by apply Hm in E.
Qed.

Lemma npe_try {A} (body handler : M A) :
  no_protocol_error body → no_protocol_error handler →
  no_protocol_error (try_except_KeyError body handler).
Proof.
  intros Hb Hh st st'. unfold try_except_KeyError.
  destruct (body st) as [[a|e] st1] eqn:E; [discriminate|].
  destruct e; try apply Hh; intros [= ->]; by apply Hb in E.
Qed.

Create HintDb npe.
#[local] Hint Resolve npe_ret npe_lift npe_lift_key npe_get_buf npe_put_buf
  npe_recv npe_try resolve_exn int_signal_exn bytes_exn : npe.

Ltac npe_step :=
  match goal with
  | |- no_protocol_error (_ ≫= _) => apply npe_bind; [|intros]
  | |- no_protocol_error (if ?c then _ else _) => destruct c
  | |- no_protocol_error (match ?x with _ => _ end) => destruct x
  | |- no_protocol_error _ => solve [eauto with npe]
  end.

Lemma npe_getitem k : no_protocol_error (getitem k).
Proof. unfold getitem. repeat npe_step. Qed.
Lemma npe_getitem_data e : no_protocol_error (getitem_data e).
Proof. unfold getitem_data. repeat npe_step. Qed.
Lemma npe_getitem_user e : no_protocol_error (getitem_user e).
Proof. unfold getitem_user. repeat npe_step. Qed.
Lemma npe_setitem k e : no_protocol_error (setitem k e).
Proof. unfold setitem. repeat npe_step. Qed.
Lemma npe_delitem k : no_protocol_error (delitem k).
Proof. unfold delitem. repeat npe_step. Qed.
#[local] Hint Resolve npe_getitem npe_getitem_data npe_getitem_user
  npe_setitem npe_delitem : npe.

(** Everything in [word] after the lane loop. *)
Lemma word_protocol_error self s st st' :
  AXIS_Monitor.word self s st = (Raise AXIS_ProtocolError, st') →
  AXIS_Monitor.lanes self s (AXIS_Monitor.byte_range self) ([], []) =
    Raise AXIS_ProtocolError ∧ st' = st.
Proof.
  unfold AXIS_Monitor.word. rewrite M_bind_eq. unfold lift at 1.
  destruct (AXIS_Monitor.lanes _ _ _ _) as [[fd fu]|e]; [|by intros [= -> ->]].
  intros H. exfalso. revert H.
  match goal with |- ?m st = _ → _ => assert (no_protocol_error m) as Hn end.
  2: { apply Hn. }
  unfold AXIS_Monitor.complete, AXIS_Monitor.complete_unbuffered,
    AXIS_Monitor.extend, AXIS_Monitor.create, AXIS_Monitor.user_of_word.
  repeat npe_step.
  all: apply npe_try; repeat npe_step.
Qed.

Lemma cycle_protocol_error self s st st' :
  AXIS_Monitor.cycle self s st = (Raise AXIS_ProtocolError, st') →
  AXIS_Monitor.lanes self s (AXIS_Monitor.byte_range self) ([], []) =
    Raise AXIS_ProtocolError ∧ st' = st.
Proof.
  unfold AXIS_Monitor.cycle. destruct (in_reset s).
  { rewrite M_bind_eq. cbn. destruct (bool_decide _); discriminate. }
  rewrite M_bind_eq. unfold lift at 1.
  destruct (int_signal (tvalid s)) as [v|e] eqn:Ev.
  2: { intros [= -> _]. by apply int_signal_exn in Ev. }
  destruct (N.eqb v 0); [discriminate|].
  rewrite M_bind_eq. unfold lift at 1.
  destruct (if has_tready _ then _ else _) as [r|e] eqn:Er.
  2: { intros [= -> _]. destruct (has_tready _); [|discriminate].
       by apply int_signal_exn in Er. }
  destruct (N.eqb r 0); [discriminate|]. apply word_protocol_error.
Qed.

(** ** The lane loop *)

Lemma lanes_app self s l1 l2 acc :
  AXIS_Monitor.lanes self s (l1 ++ l2) acc =
  AXIS_Monitor.lanes self s l1 acc ≫= AXIS_Monitor.lanes self s l2.
Proof.
  revert acc. induction l1 as [|b l1 IH]; intros acc; cbn; [done|].
  destruct (AXIS_Monitor.lane self s b acc); cbn; [apply IH|done].
Qed.

Lemma lanes_cons self s b rest acc :
  AXIS_Monitor.lanes self s (b :: rest) acc =
  AXIS_Monitor.lane self s b acc ≫= AXIS_Monitor.lanes self s rest.
Proof. reflexivity. Qed.

Lemma lane_invalid self s b acc :
  AXIS_Monitor.byte_type self s b = Ok ["0"; "1"] →
  AXIS_Monitor.lane self s b acc = Raise AXIS_ProtocolError.
Proof. intros H. unfold AXIS_Monitor.lane. destruct acc. by rewrite H. Qed.

Lemma lane_null self s b acc :
  AXIS_Monitor.byte_type self s b = Ok ["0"; "0"] →
  AXIS_Monitor.lane self s b acc = Ok acc.
Proof. intros H. unfold AXIS_Monitor.lane. destruct acc. by rewrite H. Qed.

Lemma lanes_stop_at self s pre b post acc e :
  (∀ acc', AXIS_Monitor.lane self s b acc' = Raise e) →
  ∃ e', AXIS_Monitor.lanes self s (pre ++ b :: post) acc = Raise e'
        ∧ (Forall (λ b', ∀ a, ∃ a', AXIS_Monitor.lane self s b' a = Ok a') pre
           → e' = e).
Proof.
  intros Hb. revert acc. induction pre as [|b' pre IH]; intros acc; cbn.
  - rewrite Hb. cbn. eauto.
  - destruct (AXIS_Monitor.lane self s b' acc) as [acc'|e'] eqn:E; cbn.
    + destruct (IH acc') as (e2 & -> & He2). exists e2. split; [done|].
      intros Hall. apply He2. by inversion Hall.
    + exists e'. split; [done|]. intros Hall. inversion Hall as [|?? H1 _].
      destruct (H1 acc) as [a' Ha']. congruence.
Qed.

Lemma lane_ok_any_acc self s b acc acc' :
  AXIS_Monitor.lane self s b acc = Ok acc' →
  ∀ a, ∃ a', AXIS_Monitor.lane self s b a = Ok a'.
Proof.
  unfold AXIS_Monitor.lane. destruct acc as [fd fu]. intros H [fd' fu'].
  destruct (AXIS_Monitor.byte_type self s b) as [t|]; cbn in *; [|done].
  repeat case_bool_decide; eauto; try done.
  destruct (AXIS_Monitor.has_tdata self);
    destruct (AXIS_Monitor.has_tuser self && _); cbn in *;
    repeat match goal with
    | H : context [resolve ?x] |- _ => destruct (resolve x); cbn in *
    | H : context [int2 ?x] |- _ => destruct (int2 x); cbn in *
    end; eauto; done.
Qed.

(** ** Lane classification *)

Lemma bit_char_inj a b : bit_char a = bit_char b → a = b.
Proof. by destruct a, b. Qed.

Lemma resolve_pair k st keep strb :
  resolve [k; st] = Ok [bit_char keep; bit_char strb] →
  resolve_char k = bit_char keep ∧ resolve_char st = bit_char strb.
Proof.
  unfold resolve. destruct (existsb _ _); [discriminate|].
  cbn. by intros [= -> ->].
Qed.

(** C3, as the code has it.  For a lane whose qualifier pair resolves to
    [(keep, strb)]: (1,1) appends the lane's data byte to the payload and,
    in byte-wise mode, its user slice to the side channel; (1,0) appends
    a zero byte to the payload and a zero placeholder to the byte-wise
    side channel; (0,1) raises [AXIS_ProtocolError]; (0,0) appends
    nothing.  Without [tkeep] every keep bit is 1, and without [tstrb]
    every strb bit is the lane's keep bit. *)
Theorem lane_classification (self : AXIS_Monitor.t) (s : Sample) (b : nat)
    (keep strb : bool) (fd fu : list N) :
  AXIS_Monitor.byte_type self s b = Ok [bit_char keep; bit_char strb] →
  AXIS_Monitor.lane self s b (fd, fu) =
    match classify keep strb with
    | Data =>
        fd' ← (if AXIS_Monitor.has_tdata self then
                 v ← int_signal (slice (tdata s) (b * 8) ((b + 1) * 8));
                 Ok (fd ++ [v])
               else Ok fd);
        fu' ← (if AXIS_Monitor.has_tuser self
                  && AXIS_Monitor._tuser_bytewise self then
                 v ← int_signal
                       (slice (tuser s) (b * AXIS_Monitor._user_bits self)
                          ((b + 1) * AXIS_Monitor._user_bits self));
                 Ok (fu ++ [v])
               else Ok fu);
        Ok (fd', fu')
    | Position =>
        Ok (if AXIS_Monitor.has_tdata self then fd ++ [0%N] else fd,
            if AXIS_Monitor.has_tuser self
               && AXIS_Monitor._tuser_bytewise self
            then fu ++ [0%N] else fu)
    | Invalid => Raise AXIS_ProtocolError
    | Null => Ok (fd, fu)
    end
  ∧ (has_tkeep (AXIS_Monitor.bus self) = false → keep = true)
  ∧ (has_tstrb (AXIS_Monitor.bus self) = false → strb = keep).
Proof.
  intros Ht. split; [|split].
  - unfold AXIS_Monitor.lane. rewrite Ht. cbn -[slice].
    destruct keep, strb; cbn -[slice]; try reflexivity.
    unfold int_signal.
    destruct (AXIS_Monitor.has_tdata self); cbn -[slice];
      [destruct (resolve (slice (tdata s) _ _)) as [r|]; cbn -[slice];
       [destruct (int2 r); cbn -[slice]|]|];
      try reflexivity;
      (destruct (_ && _); cbn -[slice]; [|reflexivity];
       destruct (resolve _) as [r'|]; cbn -[slice]; [|reflexivity];
       destruct (int2 r'); reflexivity).
  - intros Hk. unfold AXIS_Monitor.byte_type in Ht.
    apply result_bind_ok in Ht as (k & Hkb & Ht).
    apply result_bind_ok in Ht as (c & _ & Ht).
    unfold AXIS_Monitor.tkeep_of, index in Hkb. rewrite Hk in Hkb.
    destruct (replicate _ _ !! b) as [k'|] eqn:E; [|done].
    apply lookup_replicate in E as [-> _]. injection Hkb as <-.
    apply resolve_pair in Ht as [Hc _]. by destruct keep.
  - intros Hs. unfold AXIS_Monitor.byte_type in Ht.
    apply result_bind_ok in Ht as (k & Hkb & Ht).
    apply result_bind_ok in Ht as (c & Hcb & Ht).
    unfold AXIS_Monitor.tstrb_of in Hcb. rewrite Hs in Hcb.
    assert (c = k) as -> by congruence.
    apply resolve_pair in Ht as [Hc1 Hc2]. apply bit_char_inj. congruence.
Qed.

(** ** Transferred words *)

Lemma cycle_transferred self s st :
  transferred self s →
  AXIS_Monitor.cycle self s st = AXIS_Monitor.word self s st.
Proof.
  intros (Hr & (v & Hv & Hv0) & Hh & (r & Hrd & Hr0)).
  unfold AXIS_Monitor.cycle. rewrite Hr, Hh, Hv, Hrd.
  rewrite M_bind_eq. cbn -[AXIS_Monitor.word].
  apply N.eqb_neq in Hv0, Hr0. rewrite Hv0, M_bind_eq.
  cbn -[AXIS_Monitor.word]. by rewrite Hr0.
Qed.

Lemma cycle_idle self s st :
  idle self s → AXIS_Monitor.cycle self s st = (Ok (), st).
Proof.
  intros [Hr H]. unfold AXIS_Monitor.cycle. rewrite Hr, M_bind_eq.
  destruct H as [Hv|((v & Hv) & Hh & Hrd)]; rewrite Hv; cbn; [done|].
  destruct (N.eqb v 0); [done|]. rewrite Hh, Hrd. by rewrite M_bind_eq.
Qed.

Lemma with_idle_refl self l : with_idle self l l.
Proof. induction l; by constructor. Qed.

(** Idle sample points change nothing. *)
Lemma monitor_recv_with_idle self l l' st :
  with_idle self l l' →
  AXIS_Monitor._monitor_recv self l' st = AXIS_Monitor._monitor_recv self l st.
Proof.
  intros H. revert st. induction H as [|s l l' _ IH|s l l' Hs _ IH];
    intros st; cbn [AXIS_Monitor._monitor_recv].
  - done.
  - destruct (AXIS_Monitor.cycle self s st) as [[[]|e] st1]; [apply IH|done].
  - rewrite (cycle_idle _ _ _ Hs). apply IH.
Qed.

(** C4, as the code has it.  A transferred word with a lane whose pair
    resolves to (0,1) ends the cycle with an exception, hands nothing to
    [_recv] and leaves the pending table as it was; the exception is
    [AXIS_ProtocolError] when every lane visited before that one
    classifies without an error of its own. *)
Theorem invalid_lane_raises (self : AXIS_Monitor.t) (s : Sample)
    (st : State) (pre post : list nat) (b : nat) :
  transferred self s →
  AXIS_Monitor.byte_range self = pre ++ b :: post →
  AXIS_Monitor.byte_type self s b = Ok ["0"; "1"] →
  ∃ e, AXIS_Monitor.cycle self s st = (Raise e, st)
       ∧ (Forall (λ b', ∃ a, AXIS_Monitor.lane self s b' ([], []) = Ok a) pre
          → e = AXIS_ProtocolError).
Proof.
  intros Ht Hrange Hb. rewrite (cycle_transferred _ _ _ Ht).
  destruct (lanes_stop_at self s pre b post ([], []) AXIS_ProtocolError)
    as (e & He & Hpe).
  { intros acc. by apply lane_invalid. }
  exists e. split.
  - unfold AXIS_Monitor.word. rewrite Hrange. by rewrite M_bind_eq, He.
  - intros Hall. apply Hpe. eapply Forall_impl; [exact Hall|].
    intros b' [a Ha]. by eapply lane_ok_any_acc.
Qed.

(** ** Reset and termination *)

Lemma cycle_in_reset self s st :
  in_reset s = true →
  AXIS_Monitor.cycle self s st =
  (Ok (), {| packet_buf := ∅; received := received st |}).
Proof.
  intros Hr. unfold AXIS_Monitor.cycle. rewrite Hr, M_bind_eq.
  destruct st as [buf r]. cbn. case_bool_decide as Hb; cbn; [done|].
  destruct (decide (buf = ∅)) as [->|]; done.
Qed.

(** C5.  A reset sample point empties the pending table: whatever was
    pending, the monitor goes on exactly as a fresh one would on the
    samples that follow, so the packets received after the reset are
    those a fresh monitor receives and carry nothing buffered before. *)
Theorem reset_discards_pending (self : AXIS_Monitor.t)
    (pre post : list Sample) (s : Sample) (st0 st : State) :
  in_reset s = true →
  AXIS_Monitor._monitor_recv self pre st0 = (AXIS_Monitor.Running, st) →
  AXIS_Monitor._monitor_recv self (pre ++ s :: post) st0 =
  with_log (received st) (AXIS_Monitor._monitor_recv self post initial).
Proof.
  intros Hr Hpre. rewrite (monitor_recv_app _ _ _ _ _ Hpre). cbn.
  rewrite (cycle_in_reset _ _ _ Hr). apply monitor_recv_framed.
Qed.

(** C10.  Once a cycle raises [AXIS_ProtocolError] the coroutine is over:
    the offending cycle itself changed nothing, and whatever samples
    follow, the pending table and the received packets stay as they were
    when it was raised. *)
Theorem protocol_error_is_final (self : AXIS_Monitor.t)
    (pre post : list Sample) (s : Sample) (st0 st st' : State) :
  AXIS_Monitor._monitor_recv self pre st0 = (AXIS_Monitor.Running, st) →
  AXIS_Monitor.cycle self s st = (Raise AXIS_ProtocolError, st') →
  st' = st
  ∧ AXIS_Monitor._monitor_recv self (pre ++ s :: post) st0 =
    (AXIS_Monitor.Stopped AXIS_ProtocolError, st).
Proof.
  intros Hpre Hc. destruct (cycle_protocol_error _ _ _ _ Hc) as [_ ->].
  split; [done|]. rewrite (monitor_recv_app _ _ _ _ _ Hpre). cbn.
  by rewrite Hc.
Qed.

(** ** Bits and bytes *)

Lemma map_fmap {A B} (f : A → B) (l : list A) : map f l = f <$> l.
Proof. induction l; cbn; congruence. Qed.

Lemma format_08b_length v : length (format_08b v) = 8.
Proof. reflexivity. Qed.

Lemma resolve_format_08b v : resolve (format_08b v) = Ok (format_08b v).
Proof. destruct v; reflexivity. Qed.

Lemma int2_format_08b v : int2 (format_08b v) = Ok (Byte.to_N v).
Proof. destruct v; reflexivity. Qed.

Lemma bytes_to_N (c : list byte) : bytes (Byte.to_N <$> c) = Ok c.
Proof.
  induction c as [|v c IH]; cbn; [done|].
  rewrite Byte.of_to_N, IH. done.
Qed.

Lemma slice_concat8 (L : list binstr) (b : nat) (x : binstr) :
  Forall (λ y, length y = 8) L → L !! b = Some x →
  slice (concat L) (b * 8) ((b + 1) * 8) = x.
Proof.
  unfold slice. replace ((b + 1) * 8 - b * 8) with 8 by lia.
  intros HL. revert b. induction HL as [|y L Hy HL IH]; intros b; [done|].
  destruct b as [|b]; cbn [concat].
  - intros [= ->]. cbn [drop Nat.mul]. by apply take_app_length'.
  - intros Hb. cbn [lookup list_lookup] in Hb.
    replace (S b * 8) with (length y + b * 8) by lia.
    rewrite drop_app_add. by apply IH.
Qed.

Lemma lookup_seq_all {A} (l : list A) :
  (λ b, l !! b) <$> seq 0 (length l) = Some <$> l.
Proof.
  apply list_eq. intros i. rewrite !list_lookup_fmap.
  destruct (decide (i < length l)) as [Hi|Hi].
  - rewrite lookup_seq_lt by done. cbn.
    destruct (lookup_lt_is_Some_2 l i Hi) as [x Hx]. by rewrite Hx.
  - rewrite lookup_seq_ge by lia. rewrite lookup_ge_None_2 by lia. done.
Qed.

Lemma range_step_ok (stop step : nat) :
  0 < step →
  range_step stop step =
    Ok ((λ i, i * step) <$> seq 0 ((stop + step - 1) `div` step)).
Proof.
  intros H. unfold range_step. rewrite map_fmap. by destruct step; [lia|].
Qed.

(** Cutting a list into [W]-sized chunks at the offsets [0, W, 2W, ...]
    and joining them again. *)
Lemma concat_chunks {A} (l : list A) (W q : nat) :
  length l ≤ q * W →
  concat ((λ i, slice l (i * W) (i * W + W)) <$> seq 0 q) = l.
Proof.
  revert l. induction q as [|q IH]; intros l Hl.
  - cbn. destruct l; [done|]. cbn in Hl. lia.
  - cbn [seq fmap list_fmap concat]. rewrite <- fmap_S_seq.
    rewrite <- list_fmap_compose.
    transitivity (take W l ++ drop W l); [|apply take_drop]. f_equal.
    + unfold slice. cbn. f_equal. lia.
    + rewrite <- (IH (drop W l)) at 1 by (rewrite length_drop; lia).
      f_equal. apply list_fmap_ext. intros _ i _. unfold slice; cbn.
      rewrite drop_drop. f_equal. lia.
Qed.

(** ** Word layout *)

Lemma word_layout_length (lsb : bool) W c :
  length c ≤ W → length (word_layout lsb W c) = W.
Proof.
  intros H. unfold word_layout.
  destruct lsb; rewrite length_app, length_replicate, length_fmap,
    ?length_reverse; lia.
Qed.

Lemma word_layout_order (lsb : bool) W c :
  (if lsb then reverse (word_layout lsb W c) else word_layout lsb W c) =
  (Some <$> c) ++ replicate (W - length c) None.
Proof.
  unfold word_layout. destruct lsb; [|done].
  by rewrite reverse_app, reverse_replicate, <- fmap_reverse,
    reverse_involutive.
Qed.

Lemma keep_char_data (l : list byte) :
  keep_char <$> (Some <$> l) = replicate (length l) "1".
Proof. induction l; cbn; congruence. Qed.

Lemma lane_bits_data padstr (l : list byte) :
  concat (lane_bits padstr <$> (Some <$> l)) = concat (map format_08b l).
Proof. induction l; cbn -[format_08b]; congruence. Qed.

Lemma lane_bits_pad padstr p :
  concat (lane_bits padstr <$> replicate p None) =
  concat (replicate p padstr).
Proof. by rewrite fmap_replicate. Qed.

Lemma send_word_wires (self : AXIS_Master.t) padstr (bytestr : list byte)
    off w :
  present (len_tdata (AXIS_Master.bus self)) = true →
  off < length bytestr →
  AXIS_Master.send_word self padstr bytestr off w =
  Ok (word_wires self padstr
        (word_layout (AXIS_Master._lsb_first self) (AXIS_Master._n_bytes self)
           (slice bytestr off (off + AXIS_Master._n_bytes self)))
        (if bool_decide (off + AXIS_Master._n_bytes self < length bytestr)
         then "0" else "1") w).
Proof.
  intros Hd Hoff. unfold AXIS_Master.send_word, word_wires.
  set (W := AXIS_Master._n_bytes self).
  set (c := slice bytestr off (off + W)).
  assert (Hc : length c = Nat.min W (length bytestr - off)).
  { unfold c, slice. rewrite length_take, length_drop. f_equal. lia. }
  rewrite Hd. unfold word_layout.
  case_bool_decide as Hlt.
  - assert (Hlen : length c = W) by lia.
    cbn -[format_08b]. replace (W - length c) with 0 by lia. cbn -[format_08b].
    destruct (AXIS_Master._lsb_first self);
      rewrite ?app_nil_r, keep_char_data, lane_bits_data, ?length_reverse,
        Hlen; reflexivity.
  - set (p := off + W - length bytestr).
    assert (Hp : W - length c = p) by lia.
    assert (Hq : W - p = length c) by lia.
    rewrite Hp. destruct (Nat.eqb p 0) eqn:E.
    + apply Nat.eqb_eq in E. rewrite E. cbn -[format_08b].
      assert (Hlen : length c = W) by lia.
      destruct (AXIS_Master._lsb_first self);
        rewrite ?app_nil_r, keep_char_data, lane_bits_data, ?length_reverse,
          Hlen; reflexivity.
    + cbn -[format_08b]. rewrite Hq.
      destruct (AXIS_Master._lsb_first self);
        rewrite !fmap_app, concat_app, keep_char_data, lane_bits_data,
          lane_bits_pad, fmap_replicate, ?length_reverse; reflexivity.
Qed.

(** ** Decoding a laid-out word *)

Lemma bind_fmap_Some {A B} (f : A → list B) (l : list A) :
  (Some <$> l) ≫= from_option f [] = l ≫= f.
Proof. induction l as [|x l IH]; cbn; [done|]. by rewrite IH. Qed.

Section Decode.
Variables (mon : AXIS_Monitor.t) (s : Sample).
Variables (layout : list (option byte)) (padstr : binstr).
Hypothesis keep_layout : AXIS_Monitor.tkeep_of mon s = keep_char <$> layout.
Hypothesis strb_layout : AXIS_Monitor.tstrb_of mon s = keep_char <$> layout.
Hypothesis data_layout : tdata s = concat (lane_bits padstr <$> layout).
Hypothesis padstr_length : length padstr = 8.

Lemma byte_type_layout b x :
  layout !! b = Some x →
  AXIS_Monitor.byte_type mon s b = Ok [keep_char x; keep_char x].
Proof.
  intros Hb. unfold AXIS_Monitor.byte_type, index.
  rewrite keep_layout, strb_layout, list_lookup_fmap, Hb. cbn.
  by destruct x.
Qed.

Lemma data_slice_layout b x :
  layout !! b = Some x →
  slice (tdata s) (b * 8) ((b + 1) * 8) = lane_bits padstr x.
Proof.
  intros Hb. rewrite data_layout. apply slice_concat8.
  - apply Forall_fmap, Forall_forall. intros [v|] _; cbn -[format_08b];
      [apply format_08b_length | apply padstr_length].
  - by rewrite list_lookup_fmap, Hb.
Qed.

Lemma lane_pad b acc :
  layout !! b = Some None → AXIS_Monitor.lane mon s b acc = Ok acc.
Proof. intros Hb. apply lane_null. by apply (byte_type_layout b None). Qed.

Hypothesis mon_tdata : AXIS_Monitor.has_tdata mon = true.
Hypothesis mon_tuser : AXIS_Monitor.has_tuser mon = false.

Lemma lane_layout b x fd fu :
  layout !! b = Some x →
  AXIS_Monitor.lane mon s b (fd, fu) = Ok (fd ++ payload_of x, fu).
Proof.
  intros Hb. destruct x as [v|].
  - unfold AXIS_Monitor.lane.
    rewrite (byte_type_layout b _ Hb), mon_tdata, mon_tuser.
    rewrite (data_slice_layout b _ Hb). cbn -[format_08b].
    by rewrite resolve_format_08b; cbn -[format_08b];
      rewrite int2_format_08b.
  - rewrite lane_pad by done. cbn. by rewrite app_nil_r.
Qed.

Lemma lanes_layout bs fd fu :
  Forall (λ b, b < length layout) bs →
  AXIS_Monitor.lanes mon s bs (fd, fu) =
  Ok (fd ++ ((λ b, layout !! b) <$> bs) ≫= from_option payload_of [], fu).
Proof.
  intros Hbs. revert fd. induction Hbs as [|b bs Hb _ IH]; intros fd.
  - cbn. by rewrite app_nil_r.
  - destruct (lookup_lt_is_Some_2 layout b Hb) as [x Hx].
    rewrite lanes_cons, (lane_layout b x fd fu Hx).
    change (Ok (fd ++ payload_of x, fu) ≫= AXIS_Monitor.lanes mon s bs)
      with (AXIS_Monitor.lanes mon s bs (fd ++ payload_of x, fu)).
    rewrite IH, fmap_cons, bind_cons, Hx. cbn [from_option].
    by rewrite app_assoc.
Qed.

Lemma lanes_word :
  length layout = AXIS_Monitor._n_bytes mon →
  AXIS_Monitor.lanes mon s (AXIS_Monitor.byte_range mon) ([], []) =
  Ok ((if AXIS_Monitor._lsb_first mon then reverse layout else layout)
        ≫= payload_of, []).
Proof.
  intros Hlen. rewrite lanes_layout.
  - cbn. do 2 f_equal. unfold AXIS_Monitor.byte_range. rewrite <- Hlen.
    destruct (AXIS_Monitor._lsb_first mon).
    + rewrite fmap_reverse, lookup_seq_all, <- fmap_reverse.
      apply bind_fmap_Some.
    + rewrite lookup_seq_all. apply bind_fmap_Some.
  - unfold AXIS_Monitor.byte_range. rewrite <- Hlen.
    destruct (AXIS_Monitor._lsb_first mon); apply Forall_forall; intros b;
      rewrite ?elem_of_reverse, elem_of_seq; lia.
Qed.

End Decode.

Lemma payload_of_chunk (c : list byte) (p : nat) :
  ((Some <$> c) ++ replicate p None) ≫= payload_of = Byte.to_N <$> c.
Proof.
  rewrite bind_app. replace (replicate p None ≫= payload_of) with (@nil N).
  - rewrite app_nil_r. induction c as [|v c IH]; cbn; [done|]. by rewrite IH.
  - induction p as [|p IH]; cbn; [done|]. by rewrite <- IH.
Qed.

(** ** The pending table, step by step *)

Ltac msimpl := repeat (progress (rewrite ?M_bind_eq; cbn)).

Section Steps.
Variables (mon : AXIS_Monitor.t) (s : Sample).
Variables (k : StreamKey) (fd fu : list N) (c : list byte).
Variables (buf : gmap (option N * option N) Entry) (r : list Packet).
Hypothesis mon_tdata : AXIS_Monitor.has_tdata mon = true.
Hypothesis fd_bytes : bytes fd = Ok c.

Lemma extend_missing :
  buf !! k = None →
  AXIS_Monitor.extend mon k fd fu {| packet_buf := buf; received := r |} =
  (Raise KeyError, {| packet_buf := buf; received := r |}).
Proof.
  intros Hk. unfold AXIS_Monitor.extend, getitem. rewrite mon_tdata.
  msimpl. by rewrite Hk.
Qed.

Lemma complete_missing :
  buf !! k = None →
  AXIS_Monitor.complete mon s k fd fu
    {| packet_buf := buf; received := r |} =
  (Raise KeyError, {| packet_buf := buf; received := r |}).
Proof.
  intros Hk. unfold AXIS_Monitor.complete, getitem. rewrite mon_tdata.
  msimpl. by rewrite Hk.
Qed.

Hypothesis mon_tuser : AXIS_Monitor.has_tuser mon = false.

Lemma extend_pending d u :
  buf !! k = Some {| e_data := Some d; e_user := u |} →
  AXIS_Monitor.extend mon k fd fu {| packet_buf := buf; received := r |} =
  (Ok (), {| packet_buf :=
               <[k := {| e_data := Some (d ++ [c]); e_user := u |}]> buf;
             received := r |}).
Proof.
  intros Hk. unfold AXIS_Monitor.extend, getitem, setitem.
  rewrite mon_tdata, mon_tuser. msimpl.
  rewrite Hk. msimpl. rewrite fd_bytes. by msimpl.
Qed.

Lemma create_entry :
  AXIS_Monitor.create mon k fd fu {| packet_buf := buf; received := r |} =
  (Ok (), {| packet_buf :=
               <[k := {| e_data := Some [c]; e_user := None |}]> buf;
             received := r |}).
Proof.
  unfold AXIS_Monitor.create, setitem. rewrite mon_tdata, mon_tuser.
  msimpl. rewrite fd_bytes. msimpl. by rewrite insert_insert_eq.
Qed.

Hypothesis mon_tid : AXIS_Monitor.has_tid mon = false.
Hypothesis mon_tdest : AXIS_Monitor.has_tdest mon = false.

Lemma complete_pending d u :
  buf !! k = Some {| e_data := Some d; e_user := u |} →
  AXIS_Monitor.complete mon s k fd fu
    {| packet_buf := buf; received := r |} =
  (Ok (), {| packet_buf := delete k buf;
             received := r ++ [set_pkt_data (concat d ++ c) empty_pkt] |}).
Proof.
  intros Hk. unfold AXIS_Monitor.complete, getitem, delitem.
  rewrite mon_tdata, mon_tuser, mon_tid, mon_tdest. msimpl.
  rewrite Hk. msimpl. rewrite fd_bytes. msimpl. by rewrite Hk.
Qed.

Lemma complete_unbuffered_silent st :
  AXIS_Monitor.complete_unbuffered mon s fd fu st = (Ok (), st).
Proof.
  unfold AXIS_Monitor.complete_unbuffered.
  rewrite mon_tdata, mon_tuser, mon_tid, mon_tdest. msimpl.
  by rewrite fd_bytes.
Qed.

End Steps.

(** ** Driver and monitor on one bus *)

Lemma send_loop_trace (self : AXIS_Master.t) padstr (bytestr : list byte)
    offsets w :
  present (len_tdata (AXIS_Master.bus self)) = true →
  Forall (λ off, off < length bytestr) offsets →
  ∃ w', AXIS_Master.send_loop self padstr bytestr offsets w =
        Ok (wires_trace self padstr bytestr offsets w, w').
Proof.
  intros Hd Hoff. revert w. induction Hoff as [|off rest Ho _ IH]; intros w.
  - by exists w.
  - cbn [AXIS_Master.send_loop wires_trace].
    rewrite (send_word_wires self padstr bytestr off w Hd Ho). cbn zeta.
    destruct (IH (word_wires self padstr
      (word_layout (AXIS_Master._lsb_first self) (AXIS_Master._n_bytes self)
         (slice bytestr off (off + AXIS_Master._n_bytes self)))
      (if bool_decide (off + AXIS_Master._n_bytes self < length bytestr)
       then "0" else "1") w)) as [w' Hw'].
    exists w'. cbn. by rewrite Hw'.
Qed.

Section Loopback.
Variables (bus : Bus) (lsb_first : bool) (W : nat).
Hypothesis bus_tdata : present (len_tdata bus) = true.
Hypothesis bus_tkeep : has_tkeep bus = true.
Hypothesis bus_tlast : has_tlast bus = true.
Hypothesis bus_tready : has_tready bus = true.
Hypothesis bus_tid : len_tid bus = None.
Hypothesis bus_tdest : len_tdest bus = None.
Hypothesis bus_tuser : len_tuser bus = None.

Variables (padstr : binstr) (c : list byte) (last_word : ascii) (w : Sample).
Hypothesis padstr_length : length padstr = 8.
Hypothesis c_length : length c ≤ W.
Hypothesis w_ok : wires_ok w.

Let s : Sample :=
  word_wires (master_on bus lsb_first W) padstr (word_layout lsb_first W c)
    last_word w.

Lemma word_wires_ok : wires_ok s.
Proof.
  unfold s, word_wires, drive_if, wires_ok in *. cbn.
  by destruct (has_tstrb bus), (has_tkeep bus), (has_tlast bus).
Qed.

Lemma word_wires_transferred :
  transferred (monitor_on bus lsb_first W) s.
Proof.
  destruct word_wires_ok as [Hr Hrd]. split; [done|].
  split; [|by split].
  exists 1%N. split; [|done]. unfold s, word_wires, drive_if. cbn.
  by destruct (has_tstrb bus), (has_tkeep bus), (has_tlast bus).
Qed.

Lemma word_wires_tlast : tlast s = [last_word].
Proof.
  unfold s, word_wires, drive_if. cbn. rewrite bus_tlast.
  by destruct (has_tstrb bus), (has_tkeep bus).
Qed.

Lemma word_wires_lanes :
  AXIS_Monitor.lanes (monitor_on bus lsb_first W) s
    (AXIS_Monitor.byte_range (monitor_on bus lsb_first W)) ([], []) =
  Ok (Byte.to_N <$> c, []).
Proof.
  rewrite (lanes_word _ s (word_layout lsb_first W c) padstr).
  - cbn [monitor_on AXIS_Monitor._lsb_first].
    by rewrite word_layout_order, payload_of_chunk.
  - unfold AXIS_Monitor.tkeep_of, s, word_wires, drive_if. cbn.
    rewrite bus_tkeep. by destruct (has_tstrb bus).
  - unfold AXIS_Monitor.tstrb_of, AXIS_Monitor.tkeep_of, s, word_wires,
      drive_if. cbn. rewrite bus_tkeep. by destruct (has_tstrb bus).
  - unfold s, word_wires, drive_if. cbn.
    by destruct (has_tstrb bus), (has_tkeep bus).
  - done.
  - done.
  - unfold AXIS_Monitor.has_tuser. cbn. by rewrite bus_tuser.
  - by apply word_layout_length.
Qed.

End Loopback.

Section LoopbackCycle.
Variables (bus : Bus) (lsb_first : bool) (W : nat).
Hypothesis bus_tdata : present (len_tdata bus) = true.
Hypothesis bus_tkeep : has_tkeep bus = true.
Hypothesis bus_tlast : has_tlast bus = true.
Hypothesis bus_tready : has_tready bus = true.
Hypothesis bus_tid : len_tid bus = None.
Hypothesis bus_tdest : len_tdest bus = None.
Hypothesis bus_tuser : len_tuser bus = None.

Variables (padstr : binstr) (bytestr : list byte).
Hypothesis padstr_length : length padstr = 8.

Abbreviation mon := (monitor_on bus lsb_first W).
Abbreviation master := (master_on bus lsb_first W).

Lemma pending_insert d e :
  <[(None, None) := e]> (pending d) = {[ (None, None) := e ]}.
Proof.
  destruct d; cbn; [apply insert_empty|].
  by rewrite <- insert_empty, insert_insert_eq.
Qed.

Lemma pending_lookup d :
  pending d !! (None, None) =
  match d with
  | [] => None
  | _ => Some {| e_data := Some d; e_user := None |}
  end.
Proof. destruct d; cbn; [apply lookup_empty|apply lookup_singleton_eq]. Qed.

Lemma mon_no_tuser : AXIS_Monitor.has_tuser mon = false.
Proof. unfold AXIS_Monitor.has_tuser; cbn; by rewrite bus_tuser. Qed.
Lemma mon_no_tid : AXIS_Monitor.has_tid mon = false.
Proof. unfold AXIS_Monitor.has_tid; cbn; by rewrite bus_tid. Qed.
Lemma mon_no_tdest : AXIS_Monitor.has_tdest mon = false.
Proof. unfold AXIS_Monitor.has_tdest; cbn; by rewrite bus_tdest. Qed.

(** One transferred word of the driver, seen by the monitor: the
    branch taken by [word]. *)
Lemma word_word_wires c last_word w st :
  length c ≤ W → wires_ok w →
  AXIS_Monitor.cycle mon
    (word_wires master padstr (word_layout lsb_first W c) last_word w) st =
  (v ← lift (int_signal [last_word]);
   if negb (N.eqb v 0) then
     try_except_KeyError
       (AXIS_Monitor.complete mon
          (word_wires master padstr (word_layout lsb_first W c) last_word w)
          (None, None) (Byte.to_N <$> c) [])
       (AXIS_Monitor.complete_unbuffered mon
          (word_wires master padstr (word_layout lsb_first W c) last_word w)
          (Byte.to_N <$> c) [])
   else
     try_except_KeyError
       (AXIS_Monitor.extend mon (None, None) (Byte.to_N <$> c) [])
       (AXIS_Monitor.create mon (None, None) (Byte.to_N <$> c) [])) st.
Proof.
  intros Hc Hw.
  rewrite cycle_transferred by by apply word_wires_transferred.
  unfold AXIS_Monitor.word. rewrite M_bind_eq. unfold lift at 1.
  rewrite word_wires_lanes by done.
  rewrite mon_no_tid, mon_no_tdest.
  cbn [monitor_on AXIS_Monitor.bus]. rewrite bus_tlast.
  rewrite word_wires_tlast by done.
  rewrite !M_bind_eq. cbn [mret M_ret].
  rewrite !M_bind_eq. unfold lift.
  destruct (int_signal [last_word]); reflexivity.
Qed.

Lemma cycle_more c w d r :
  length c ≤ W → wires_ok w →
  AXIS_Monitor.cycle mon
    (word_wires master padstr (word_layout lsb_first W c) "0" w)
    {| packet_buf := pending d; received := r |} =
  (Ok (), {| packet_buf := pending (d ++ [c]); received := r |}).
Proof.
  intros Hc Hw. rewrite word_word_wires by done.
  change (int_signal ["0"]) with (Ok 0%N). rewrite M_bind_eq.
  cbn [lift N.eqb negb]. unfold try_except_KeyError.
  pose proof (bytes_to_N c) as Hb. destruct d as [|x d].
  - rewrite (extend_missing mon) by (done || apply lookup_empty).
    rewrite (create_entry mon _ _ _ c) by (done || apply mon_no_tuser).
    by rewrite (pending_insert []).
  - rewrite (extend_pending mon _ _ _ c _ _ bus_tdata Hb mon_no_tuser
               (x :: d) None) by apply lookup_singleton_eq.
    by rewrite (pending_insert (x :: d)).
Qed.

Lemma cycle_last c w d r :
  length c ≤ W → wires_ok w →
  AXIS_Monitor.cycle mon
    (word_wires master padstr (word_layout lsb_first W c) "1" w)
    {| packet_buf := pending d; received := r |} =
  (Ok (),
   match d with
   | [] => {| packet_buf := ∅; received := r |}
   | _ => {| packet_buf := ∅; received := r ++ [data_pkt (concat d ++ c)] |}
   end).
Proof.
  intros Hc Hw. rewrite word_word_wires by done.
  change (int_signal ["1"]) with (Ok 1%N). rewrite M_bind_eq.
  cbn [lift N.eqb negb]. unfold try_except_KeyError.
  pose proof (bytes_to_N c) as Hb. destruct d as [|x d].
  - rewrite (complete_missing mon) by (done || apply lookup_empty).
    by rewrite (complete_unbuffered_silent mon _ _ _ c)
      by (done || apply mon_no_tuser || apply mon_no_tid
          || apply mon_no_tdest).
  - rewrite (complete_pending mon _ _ _ _ c _ _ bus_tdata Hb mon_no_tuser
               mon_no_tid mon_no_tdest (x :: d) None)
      by apply lookup_singleton_eq.
    cbn [pending]. by rewrite delete_singleton_eq.
Qed.

(** The monitor on the whole trace of [send_loop]. *)
Lemma monitor_recv_trace offsets w d r :
  0 < W → wires_ok w → Forall (λ off, off < length bytestr) offsets →
  AXIS_Monitor._monitor_recv mon (wires_trace master padstr bytestr offsets w)
    {| packet_buf := pending d; received := r |} =
  (AXIS_Monitor.Running,
   let '(d', r') := fold_left (absorb W bytestr) offsets (d, r) in
   {| packet_buf := pending d'; received := r' |}).
Proof.
  intros HW Hw Hoff. revert w d r Hw.
  induction Hoff as [|off rest Ho _ IH]; intros w d r Hw; [done|].
  cbn [wires_trace fold_left AXIS_Monitor._monitor_recv master_on
       AXIS_Master._lsb_first AXIS_Master._n_bytes].
  assert (Hc : length (slice bytestr off (off + W)) ≤ W).
  { unfold slice. rewrite length_take. lia. }
  unfold absorb at 2. case_bool_decide.
  - rewrite cycle_more by done. apply IH. by apply word_wires_ok.
  - rewrite cycle_last by done. destruct d as [|x d].
    + apply (IH _ [] r). by apply word_wires_ok.
    + apply (IH _ [] _). by apply word_wires_ok.
Qed.

End LoopbackCycle.

(** ** The round trip *)

Lemma idle_outputs_ok self w :
  wires_ok w → wires_ok (AXIS_Master._idle_outputs self w).
Proof.
  unfold AXIS_Master._idle_outputs, wires_ok, drive_if.
  destruct (len_tdata _), (has_tlast _), (has_tkeep _), (has_tstrb _),
    (len_tid _), (len_tdest _), (len_tuser _); done.
Qed.

Lemma n_bytes_of_width bus W :
  len_tdata bus = Some (W * 8) → n_bytes_of bus = Ok W.
Proof.
  intros H. unfold n_bytes_of. rewrite H.
  rewrite Nat.Div0.mod_mul, Nat.div_mul by done. done.
Qed.

Lemma word_count_bounds (len W : nat) :
  0 < W → 0 < len →
  let q := (len + W - 1) `div` W in
  len ≤ q * W ∧ (q - 1) * W < len ∧ 0 < q.
Proof.
  intros HW Hlen q.
  pose proof (Nat.Div0.mul_div_le (len + W - 1) W) as H1.
  pose proof (Nat.mul_succ_div_gt (len + W - 1) W ltac:(lia)) as H2.
  fold q in H1, H2. nia.
Qed.

Lemma absorb_more W (bytestr : list byte) (l : list nat) d r :
  Forall (λ off, off + W < length bytestr) l →
  fold_left (absorb W bytestr) l (d, r) =
  (d ++ ((λ off, slice bytestr off (off + W)) <$> l), r).
Proof.
  intros Hl. revert d. induction Hl as [|off l Ho _ IH]; intros d; cbn.
  - by rewrite app_nil_r.
  - rewrite bool_decide_true by done. rewrite IH. by rewrite <- app_assoc.
Qed.

Lemma absorb_offsets W (bytestr : list byte) :
  0 < W → W < length bytestr →
  fold_left (absorb W bytestr)
    ((λ i, i * W) <$> seq 0 ((length bytestr + W - 1) `div` W)) ([], []) =
  ([], [data_pkt bytestr]).
Proof.
  intros HW HS.
  destruct (word_count_bounds (length bytestr) W) as (Hq1 & Hq2 & Hq3);
    [lia..|].
  set (q := (length bytestr + W - 1) `div` W) in *.
  assert (Hq : 2 ≤ q) by nia.
  destruct q as [|q']; [lia|].
  rewrite seq_S, fmap_app, fold_left_app. cbn [fmap list_fmap Nat.add].
  rewrite absorb_more.
  2:{ apply Forall_fmap, Forall_forall. intros i Hi.
      apply elem_of_seq in Hi. cbn. nia. }
  cbn [fold_left absorb]. rewrite bool_decide_false by lia.
  rewrite app_nil_l, <- list_fmap_compose.
  assert (Hcat :
    concat ((λ off, slice bytestr off (off + W)) ∘ (λ i, i * W) <$> seq 0 q')
      ++ slice bytestr (q' * W) (q' * W + W) = bytestr).
  { pose proof (concat_chunks bytestr W (q' + 1) ltac:(lia)) as Hc.
    rewrite Nat.add_1_r, seq_S, fmap_app, concat_app in Hc.
    cbn [fmap list_fmap concat Nat.add] in Hc.
    by rewrite app_nil_r in Hc. }
  rewrite Hcat. destruct q' as [|q'']; [lia|]. reflexivity.
Qed.

(** X12.  The round trip where the code delivers it.  On a bus with
    [tdata], [tkeep], [tlast], [tready] and none of [tid], [tdest],
    [tuser], out of reset and with the receiver ready at each transfer,
    every byte sequence longer than one word, sent by [_send_bytes], is
    handed to [_recv] by [_monitor_recv] as exactly one packet whose
    payload is that sequence, for both settings of [lsb_first] and of
    [padZero], and however many idle sample points (valid-gating,
    back-pressure) lie between the transfers; nothing stays pending. *)
Theorem roundtrip_multiword (bus : Bus) (lsb_first padZero bytewise : bool)
    (W : nat) (bytestr : list byte) (w : Sample) :
  len_tdata bus = Some (W * 8) →
  has_tkeep bus = true → has_tlast bus = true → has_tready bus = true →
  len_tid bus = None → len_tdest bus = None → len_tuser bus = None →
  wires_ok w →
  0 < W → W < length bytestr →
  ∃ m w1 trace w2 mon st,
    AXIS_Master.__init__ bus lsb_first w = Ok (m, w1)
    ∧ AXIS_Master._send_bytes m bytestr padZero w1 = Ok (trace, w2)
    ∧ AXIS_Monitor.__init__ bus lsb_first bytewise = Ok mon
    ∧ received st = [data_pkt bytestr]
    ∧ packet_buf st = ∅
    ∧ ∀ trace', with_idle mon trace trace' →
        AXIS_Monitor._monitor_recv mon trace' initial =
          (AXIS_Monitor.Running, st).
Proof.
  intros Hdata Hkeep Hlast Hready Htid Htdest Htuser Hw HW HS.
  pose proof (n_bytes_of_width bus W Hdata) as Hn.
  assert (Hpres : present (len_tdata bus) = true) by by rewrite Hdata.
  set (m := master_on bus lsb_first W).
  set (w1 := AXIS_Master._idle_outputs m w).
  set (padstr := if padZero then replicate 8 "0" else replicate 8 "X").
  set (offsets := (λ i, i * W) <$> seq 0 ((length bytestr + W - 1) `div` W)).
  destruct (word_count_bounds (length bytestr) W) as (Hq1 & Hq2 & Hq3);
    [lia..|].
  assert (Hoff : Forall (λ off, off < length bytestr) offsets).
  { apply Forall_fmap, Forall_forall. intros i Hi.
    apply elem_of_seq in Hi. cbn. nia. }
  destruct (send_loop_trace m padstr bytestr offsets w1 Hpres Hoff)
    as [w' Hloop].
  exists m, w1, (wires_trace m padstr bytestr offsets w1),
    (AXIS_Master._idle_outputs m w'), (monitor_on bus lsb_first W),
    {| packet_buf := ∅; received := [data_pkt bytestr] |}.
  split_and!.
  - unfold AXIS_Master.__init__. by rewrite Hn.
  - unfold AXIS_Master._send_bytes. cbn [m master_on AXIS_Master._n_bytes].
    rewrite range_step_ok by done. cbn [mbind result_bind].
    fold padstr offsets.
    change (master_on bus lsb_first W) with m. by rewrite Hloop.
  - unfold AXIS_Monitor.__init__. by rewrite Hn, Htuser.
  - reflexivity.
  - reflexivity.
  - intros trace' Hidle. rewrite (monitor_recv_with_idle _ _ _ _ Hidle).
    change initial with {| packet_buf := pending []; received := [] |}.
    rewrite (monitor_recv_trace bus lsb_first W) by
      (done || (by destruct padZero) || by apply idle_outputs_ok).
    unfold offsets. rewrite absorb_offsets by done. reflexivity.
Qed.

(** ** Padding *)

Lemma wires_trace_app self padstr (bytestr : list byte) l1 l2 w :
  ∃ w', wires_trace self padstr bytestr (l1 ++ l2) w =
        wires_trace self padstr bytestr l1 w
        ++ wires_trace self padstr bytestr l2 w'.
Proof.
  revert w. induction l1 as [|off l1 IH]; intros w; cbn [wires_trace app].
  - by exists w.
  - destruct (IH (word_wires self padstr
      (word_layout (AXIS_Master._lsb_first self) (AXIS_Master._n_bytes self)
         (slice bytestr off (off + AXIS_Master._n_bytes self)))
      (if bool_decide (off + AXIS_Master._n_bytes self < length bytestr)
       then "0" else "1") w)) as [w' ->].
    by exists w'.
Qed.

Lemma word_layout_pad (lsb : bool) W (c : list byte) b :
  length c ≤ W →
  (if lsb then b < W - length c else length c ≤ b ∧ b < W) →
  word_layout lsb W c !! b = Some None.
Proof.
  intros Hc Hb. unfold word_layout. destruct lsb.
  - rewrite lookup_app_l by by rewrite length_replicate.
    by apply lookup_replicate_2.
  - rewrite lookup_app_r by (rewrite length_fmap; lia).
    apply lookup_replicate_2. rewrite length_fmap. lia.
Qed.

(** C8, as the code has it.  On a bus with [tkeep], when the length of
    the byte sequence is not a multiple of the bus width, the padding
    lanes of the final word (the first [p] lanes of the bit string, the
    most significant ones, under [lsb_first]; the last [p] otherwise)
    carry keep 0 and strb 0: the monitor resolves them to (0,0), the
    Null class, and they add nothing to the payload and nothing to the
    byte-wise side channel. *)
Theorem padding_lanes_are_null (bus : Bus) (lsb_first padZero bytewise : bool)
    (bytestr : list byte) (w w1 w2 : Sample) (m : AXIS_Master.t)
    (trace : list Sample) (mon : AXIS_Monitor.t) :
  has_tkeep bus = true →
  AXIS_Master.__init__ bus lsb_first w = Ok (m, w1) →
  AXIS_Master._send_bytes m bytestr padZero w1 = Ok (trace, w2) →
  AXIS_Monitor.__init__ bus lsb_first bytewise = Ok mon →
  length bytestr `mod` AXIS_Master._n_bytes m ≠ 0 →
  let W := AXIS_Master._n_bytes m in
  let p := W - length bytestr `mod` W in
  ∃ init final,
    trace = init ++ [final] ∧ 0 < p ∧
    ∀ b, (if lsb_first then b < p else W - p ≤ b ∧ b < W) →
      AXIS_Monitor.byte_type mon final b = Ok ["0"; "0"]
      ∧ classify false false = Null
      ∧ ∀ acc, AXIS_Monitor.lane mon final b acc = Ok acc.
Proof.
  intros Hkeep Hm Hsend Hmon Hmod W p.
  (* the two instances *)
  unfold AXIS_Master.__init__ in Hm.
  destruct (n_bytes_of bus) as [n|] eqn:Hn; [|done].
  cbn in Hm. injection Hm as <- <-.
  cbn [AXIS_Master._n_bytes] in *.
  assert (Hbus : AXIS_Monitor.bus mon = bus).
  { unfold AXIS_Monitor.__init__ in Hmon. rewrite Hn in Hmon.
    cbn -[Nat.div Nat.modulo] in Hmon.
    destruct (len_tuser bus); cbn -[Nat.div Nat.modulo] in Hmon.
    - destruct (_ && _); cbn -[Nat.div Nat.modulo] in Hmon.
      + destruct (negb _); cbn -[Nat.div Nat.modulo] in Hmon; [done|].
        by injection Hmon as <-.
      + by injection Hmon as <-.
    - by injection Hmon as <-. }
  (* the bus has data lanes, and at least one *)
  assert (HW : 0 < W).
  { unfold W. destruct n; [|lia]. unfold AXIS_Master._send_bytes in Hsend.
    by cbn in Hsend. }
  assert (Hpres : present (len_tdata bus) = true).
  { unfold n_bytes_of in Hn. destruct (len_tdata bus); [done|].
    injection Hn as <-. unfold W in Hmod. by rewrite Nat.mod_1_r in Hmod. }
  assert (Hlen : 0 < length bytestr).
  { destruct bytestr; [|cbn; lia]. cbn in Hmod. by rewrite Nat.Div0.mod_0_l in Hmod. }
  (* the trace ends with the word at the last offset *)
  set (q := (length bytestr + W - 1) `div` W).
  destruct (word_count_bounds (length bytestr) W HW Hlen) as (Hq1 & Hq2 & Hq3).
  fold q in Hq1, Hq2, Hq3.
  set (master := {| AXIS_Master.bus := bus; AXIS_Master._n_bytes := n;
                    AXIS_Master._lsb_first := lsb_first |}) in *.
  set (padstr := if padZero then replicate 8 "0" else replicate 8 "X").
  unfold AXIS_Master._send_bytes in Hsend.
  cbn [master AXIS_Master._n_bytes] in Hsend. fold W in Hsend.
  rewrite range_step_ok in Hsend by done. cbn [mbind result_bind] in Hsend.
  fold padstr q master in Hsend.
  assert (Hqs : q = S (q - 1)) by lia.
  rewrite Hqs, seq_S, fmap_app in Hsend. cbn [fmap list_fmap Nat.add] in Hsend.
  set (offsets := (λ i, i * W) <$> seq 0 (q - 1)) in *.
  destruct (send_loop_trace master padstr bytestr (offsets ++ [(q - 1) * W])
              (AXIS_Master._idle_outputs master w) Hpres) as [w' Hloop].
  { apply Forall_app. split.
    - apply Forall_fmap, Forall_forall. intros i Hi.
      apply elem_of_seq in Hi. cbn. nia.
    - by apply Forall_singleton. }
  rewrite Hloop in Hsend. cbn in Hsend. injection Hsend as <- _.
  destruct (wires_trace_app master padstr bytestr offsets [(q - 1) * W]
              (AXIS_Master._idle_outputs master w)) as [w3 ->].
  cbn [wires_trace master AXIS_Master._lsb_first AXIS_Master._n_bytes].
  fold W master.
  set (c := slice bytestr ((q - 1) * W) ((q - 1) * W + W)).
  set (lc := if bool_decide ((q - 1) * W + W < length bytestr) then "0" else "1").
  set (final := word_wires master padstr (word_layout lsb_first W c) lc w3).
  (* the last chunk is the remainder *)
  assert (Hc : length c = length bytestr `mod` W).
  { unfold c, slice. rewrite length_take, length_drop.
    pose proof (Nat.div_mod_eq (length bytestr) W) as Hdm.
    pose proof (Nat.mod_upper_bound (length bytestr) W ltac:(lia)) as Hub.
    assert (Hne : length bytestr `mod` W ≠ 0) by exact Hmod.
    set (rem := length bytestr `mod` W) in *.
    set (quo := length bytestr `div` W) in *.
    clearbody rem quo.
    assert (quo < q).
    { apply Nat.nle_gt. intros Hle.
      pose proof (Nat.mul_le_mono_r _ _ W Hle). lia. }
    assert (q - 1 < quo + 1).
    { apply Nat.nle_gt. intros Hle.
      pose proof (Nat.mul_le_mono_r _ _ W Hle). lia. }
    assert (q - 1 = quo) as -> by lia. lia. }
  assert (HcW : length c ≤ W).
  { rewrite Hc. pose proof (Nat.mod_upper_bound (length bytestr) W). lia. }
  exists (wires_trace master padstr bytestr offsets
            (AXIS_Master._idle_outputs master w)), final.
  split; [done|]. split.
  { unfold p. pose proof (Nat.mod_upper_bound (length bytestr) W). lia. }
  intros b Hb.
  assert (Hpad : word_layout lsb_first W c !! b = Some None).
  { apply word_layout_pad; [done|]. rewrite Hc. fold p.
    destruct lsb_first; [done|].
    pose proof (Nat.mod_upper_bound (length bytestr) W). lia. }
  assert (Hk : AXIS_Monitor.tkeep_of mon final
               = keep_char <$> word_layout lsb_first W c).
  { unfold AXIS_Monitor.tkeep_of. rewrite Hbus, Hkeep.
    unfold final, word_wires, drive_if. cbn. rewrite Hkeep.
    by destruct (has_tstrb bus). }
  assert (Hs : AXIS_Monitor.tstrb_of mon final
               = keep_char <$> word_layout lsb_first W c).
  { unfold AXIS_Monitor.tstrb_of. rewrite Hbus.
    destruct (has_tstrb bus) eqn:Hstrb; [|done].
    unfold final, word_wires, drive_if. cbn. by rewrite Hstrb. }
  split; [|split; [done|]].
  - apply (byte_type_layout mon final _ Hk Hs b None Hpad).
  - intros acc. apply (lane_pad mon final _ Hk Hs b acc Hpad).
Qed.

(** ** Worked examples *)

(** C7.  [W = 4], [lsb_first], payload [11 22 33 44 55]: two words, the
    first with lanes [44 33 22 11], keep [1111], last 0; the second with
    three padding lanes in the high positions and [55] in the low one,
    keep [0001], last 1; the monitor hands the five bytes back. *)
Theorem scenario_w4_lsb_first :
  ∃ m w1 word1 word2 w2 mon st,
    AXIS_Master.__init__ bus32 true quiet_wires = Ok (m, w1)
    ∧ AXIS_Master._send_bytes m payload5 false w1 = Ok ([word1; word2], w2)
    ∧ tdata word1 = concat (format_08b <$> [x44; x33; x22; x11]%byte)
    ∧ tkeep word1 = bits "1111" ∧ tstrb word1 = bits "1111"
    ∧ tlast word1 = bits "0"
    ∧ tdata word2 = concat (replicate 3 (bits "XXXXXXXX")) ++ format_08b x55
    ∧ tkeep word2 = bits "0001" ∧ tstrb word2 = bits "0001"
    ∧ tlast word2 = bits "1"
    ∧ AXIS_Monitor.__init__ bus32 true false = Ok mon
    ∧ AXIS_Monitor._monitor_recv mon [word1; word2] initial =
        (AXIS_Monitor.Running, st)
    ∧ received st = [data_pkt payload5]
    ∧ packet_buf st = ∅.
Proof.
  do 7 eexists. split_and!; reflexivity.
Qed.

(** *** A single-word packet *)

(** C2 at the failing input.  A transferred word with [tlast] set, all
    four lanes Data, and nothing pending for its key: the cycle ends
    normally, yet nothing has been handed to [_recv]. *)
Theorem single_word_packet_is_dropped :
  transferred (monitor_on bus32 true 4) single_word
  ∧ int_signal (tlast single_word) = Ok 1%N
  ∧ AXIS_Monitor.lanes (monitor_on bus32 true 4) single_word
      (AXIS_Monitor.byte_range (monitor_on bus32 true 4)) ([], []) =
    Ok ([17; 34; 51; 68]%N, [])
  ∧ AXIS_Monitor.cycle (monitor_on bus32 true 4) single_word initial =
    (Ok (), initial).
Proof.
  split_and!; try reflexivity.
  repeat split; try reflexivity; by eexists.
Qed.

(** C1 at the failing inputs.  A byte sequence that fits into one word,
    whether it fills the word ([11 22 33 44]) or not ([11]), is sent as
    a single word with [tlast] set; the monitor takes the word and
    hands nothing to [_recv]: the payload is lost. *)
Theorem roundtrip_single_word_is_lost :
  ∃ m w1 short full w2 w3 mon,
    AXIS_Master.__init__ bus32 true quiet_wires = Ok (m, w1)
    ∧ AXIS_Master._send_bytes m [x11]%byte false w1 = Ok ([short], w2)
    ∧ AXIS_Master._send_bytes m [x11; x22; x33; x44]%byte false w1
      = Ok ([full], w3)
    ∧ tkeep short = bits "0001" ∧ tlast short = bits "1"
    ∧ tkeep full = bits "1111" ∧ tlast full = bits "1"
    ∧ AXIS_Monitor.__init__ bus32 true false = Ok mon
    ∧ transferred mon short ∧ transferred mon full
    ∧ AXIS_Monitor._monitor_recv mon [short] initial =
        (AXIS_Monitor.Running, initial)
    ∧ AXIS_Monitor._monitor_recv mon [full] initial =
        (AXIS_Monitor.Running, initial).
Proof.
  do 7 eexists. split_and!; try reflexivity.
  all: vm_compute; split_and!; try reflexivity; by exists 1%N.
Qed.

(** The same for every monitor that has [tdata]: with no entry pending
    for the key, the last-word case receives nothing. *)
Lemma complete_without_pending self s k fd fu st res st' :
  AXIS_Monitor.has_tdata self = true →
  packet_buf st !! k = None →
  try_except_KeyError (AXIS_Monitor.complete self s k fd fu)
    (AXIS_Monitor.complete_unbuffered self s fd fu) st = (res, st') →
  st' = st.
Proof.
  intros Hd Hk. unfold try_except_KeyError. destruct st as [buf r].
  rewrite (complete_missing self s k fd fu buf r Hd Hk).
  unfold AXIS_Monitor.complete_unbuffered, AXIS_Monitor.user_of_word.
  rewrite Hd.
  destruct (bytes fd); msimpl; [|by intros [= _ <-]].
  destruct (AXIS_Monitor.has_tuser self); msimpl;
    [destruct (AXIS_Monitor._tuser_bytewise self); msimpl;
     [|destruct (resolve (tuser s)); msimpl; [|by intros [= _ <-]]]|];
    (destruct (AXIS_Monitor.has_tid self); msimpl;
     [destruct (int_signal (tid s)); msimpl; [|by intros [= _ <-]]|]);
    (destruct (AXIS_Monitor.has_tdest self); msimpl;
     [destruct (int_signal (tdest s)); msimpl; [|by intros [= _ <-]]|]);
    by intros [= _ <-].
Qed.

(** *** Two interleaved streams *)

(** C6 at the failing input.  Stream 0 is the one-word packet [aa],
    stream 1 the two-word packet [b1 b2].  In each of the three
    interleavings the monitor receives the packet of stream 1 and never
    that of stream 0. *)
Theorem interleaved_single_word_is_dropped :
  AXIS_Monitor.__init__ bus8_id true false = Ok mon8_id
  ∧ AXIS_Monitor._monitor_recv mon8_id
      [word_a; word_b1; word_b2] initial
    = (AXIS_Monitor.Running, {| packet_buf := ∅; received := [pkt_b] |})
  ∧ AXIS_Monitor._monitor_recv mon8_id
      [word_b1; word_a; word_b2] initial
    = (AXIS_Monitor.Running, {| packet_buf := ∅; received := [pkt_b] |})
  ∧ AXIS_Monitor._monitor_recv mon8_id
      [word_b1; word_b2; word_a] initial
    = (AXIS_Monitor.Running, {| packet_buf := ∅; received := [pkt_b] |}).
Proof. split_and!; vm_compute; reflexivity. Qed.

(** With two words in each stream both packets are received, in the
    order in which they complete. *)
Lemma interleaved_two_word_streams :
  AXIS_Monitor._monitor_recv mon8_id
      [word_a1; word_a2; word_b1; word_b2] initial
    = (AXIS_Monitor.Running, {| packet_buf := ∅; received := [pkt_a; pkt_b] |})
  ∧ AXIS_Monitor._monitor_recv mon8_id
      [word_a1; word_b1; word_a2; word_b2] initial
    = (AXIS_Monitor.Running, {| packet_buf := ∅; received := [pkt_a; pkt_b] |})
  ∧ AXIS_Monitor._monitor_recv mon8_id
      [word_a1; word_b1; word_b2; word_a2] initial
    = (AXIS_Monitor.Running, {| packet_buf := ∅; received := [pkt_b; pkt_a] |})
  ∧ AXIS_Monitor._monitor_recv mon8_id
      [word_b1; word_a1; word_a2; word_b2] initial
    = (AXIS_Monitor.Running, {| packet_buf := ∅; received := [pkt_a; pkt_b] |})
  ∧ AXIS_Monitor._monitor_recv mon8_id
      [word_b1; word_a1; word_b2; word_a2] initial
    = (AXIS_Monitor.Running, {| packet_buf := ∅; received := [pkt_b; pkt_a] |})
  ∧ AXIS_Monitor._monitor_recv mon8_id
      [word_b1; word_b2; word_a1; word_a2] initial
    = (AXIS_Monitor.Running, {| packet_buf := ∅; received := [pkt_b; pkt_a] |}).
Proof. split_and!; vm_compute; reflexivity. Qed.

(** *** Instances of the theorems *)

Lemma construction_fails_iff_witness :
  (∀ n, len_tdata bus12 = Some n → 0 < n)
  ∧ AXIS_Master.__init__ bus12 true quiet_wires = Raise AttributeError
  ∧ AXIS_Monitor.__init__ bus12 true true = Raise AttributeError.
Proof.
  assert (Hpos : ∀ n, len_tdata bus12 = Some n → 0 < n).
  { intros n [= <-]. lia. }
  assert (Hbad : data_width_bad bus12).
  { exists 12. split; [reflexivity|]. intros [k Hk]. lia. }
  split; [exact Hpos|]. split.
  - apply (construction_fails_iff bus12 true true quiet_wires Hpos).
    exact Hbad.
  - apply (construction_fails_iff bus12 true true quiet_wires Hpos).
    left. exact Hbad.
Defined.

Lemma lane_classification_witness :
  AXIS_Monitor.byte_type mon16 position_word 1 =
    Ok [bit_char true; bit_char false]
  ∧ AXIS_Monitor.lane mon16 position_word 1 ([], []) = Ok ([0%N], []).
Proof.
  split; [reflexivity|].
  exact (proj1 (lane_classification mon16 position_word 1 true false [] []
                  eq_refl)).
Defined.

Lemma invalid_word_transferred : transferred mon16 invalid_word.
Proof. repeat split; try reflexivity; by eexists. Defined.

Lemma invalid_lane_raises_witness :
  transferred mon16 invalid_word
  ∧ AXIS_Monitor.byte_range mon16 = [] ++ 1 :: [0]
  ∧ AXIS_Monitor.byte_type mon16 invalid_word 1 = Ok ["0"; "1"]
  ∧ ∃ e, AXIS_Monitor.cycle mon16 invalid_word initial = (Raise e, initial)
         ∧ (Forall (λ b', ∃ a, AXIS_Monitor.lane mon16 invalid_word b'
                                 ([], []) = Ok a) []
            → e = AXIS_ProtocolError).
Proof.
  split; [exact invalid_word_transferred|].
  split; [reflexivity|]. split; [reflexivity|].
  exact (invalid_lane_raises mon16 invalid_word initial [] [0] 1
           invalid_word_transferred eq_refl eq_refl).
Defined.

Lemma reset_discards_pending_witness :
  in_reset reset_beat = true
  ∧ AXIS_Monitor._monitor_recv mon16 [beat_first] initial =
      (AXIS_Monitor.Running, {| packet_buf := pending [[x11; x22]%byte];
                                received := [] |})
  ∧ AXIS_Monitor._monitor_recv mon16
      ([beat_first] ++ reset_beat :: [beat_middle; beat_last]) initial =
    (AXIS_Monitor.Running,
     {| packet_buf := ∅;
        received := [data_pkt [x33; x44; x55; x66]%byte] |}).
Proof.
  assert (Hpre : AXIS_Monitor._monitor_recv mon16 [beat_first] initial =
      (AXIS_Monitor.Running, {| packet_buf := pending [[x11; x22]%byte];
                                received := [] |})).
  { vm_compute. reflexivity. }
  split; [reflexivity|]. split; [exact Hpre|].
  rewrite (reset_discards_pending mon16 [beat_first] [beat_middle; beat_last]
             reset_beat initial _ eq_refl Hpre).
  vm_compute. reflexivity.
Defined.

Lemma protocol_error_is_final_witness :
  AXIS_Monitor._monitor_recv mon16 [beat_first] initial =
    (AXIS_Monitor.Running, {| packet_buf := pending [[x11; x22]%byte];
                              received := [] |})
  ∧ AXIS_Monitor.cycle mon16 invalid_word
      {| packet_buf := pending [[x11; x22]%byte]; received := [] |} =
    (Raise AXIS_ProtocolError,
     {| packet_buf := pending [[x11; x22]%byte]; received := [] |})
  ∧ AXIS_Monitor._monitor_recv mon16
      ([beat_first] ++ invalid_word :: [beat_middle; beat_last]) initial =
    (AXIS_Monitor.Stopped AXIS_ProtocolError,
     {| packet_buf := pending [[x11; x22]%byte]; received := [] |}).
Proof.
  assert (Hpre : AXIS_Monitor._monitor_recv mon16 [beat_first] initial =
      (AXIS_Monitor.Running, {| packet_buf := pending [[x11; x22]%byte];
                                received := [] |})).
  { vm_compute. reflexivity. }
  assert (Hc : AXIS_Monitor.cycle mon16 invalid_word
      {| packet_buf := pending [[x11; x22]%byte]; received := [] |} =
    (Raise AXIS_ProtocolError,
     {| packet_buf := pending [[x11; x22]%byte]; received := [] |})).
  { vm_compute. reflexivity. }
  split; [exact Hpre|]. split; [exact Hc|].
  exact (proj2 (protocol_error_is_final mon16 [beat_first]
                  [beat_middle; beat_last] invalid_word initial _ _ Hpre Hc)).
Defined.

Lemma quiet_wires_ok : wires_ok quiet_wires.
Proof. split; [reflexivity|]. exists 1%N. by split. Defined.

Lemma roundtrip_multiword_witness :
  ∃ m w1 trace w2 mon st,
    AXIS_Master.__init__ bus32 false quiet_wires = Ok (m, w1)
    ∧ AXIS_Master._send_bytes m payload5 true w1 = Ok (trace, w2)
    ∧ AXIS_Monitor.__init__ bus32 false false = Ok mon
    ∧ received st = [data_pkt payload5]
    ∧ packet_buf st = ∅
    ∧ ∀ trace', with_idle mon trace trace' →
        AXIS_Monitor._monitor_recv mon trace' initial =
          (AXIS_Monitor.Running, st).
Proof.
  apply (roundtrip_multiword bus32 false true false 4 payload5 quiet_wires);
    try reflexivity.
  - exact quiet_wires_ok.
  - lia.
  - cbn. lia.
Defined.

Lemma padding_lanes_are_null_witness :
  ∃ m w1 trace w2 mon,
    has_tkeep bus32_user = true
    ∧ AXIS_Master.__init__ bus32_user true quiet_wires = Ok (m, w1)
    ∧ AXIS_Master._send_bytes m payload5 false w1 = Ok (trace, w2)
    ∧ AXIS_Monitor.__init__ bus32_user true true = Ok mon
    ∧ length payload5 `mod` AXIS_Master._n_bytes m ≠ 0
    ∧ ∃ init final,
        trace = init ++ [final] ∧ 0 < 4 - 5 `mod` 4 ∧
        ∀ b, b < 4 - 5 `mod` 4 →
          AXIS_Monitor.byte_type mon final b = Ok ["0"; "0"]
          ∧ classify false false = Null
          ∧ ∀ acc, AXIS_Monitor.lane mon final b acc = Ok acc.
Proof.
  do 5 eexists. split; [reflexivity|]. split; [reflexivity|].
  split; [reflexivity|]. split; [reflexivity|].
  assert (Hmod : length payload5 `mod` 4 ≠ 0) by (cbn; lia).
  split; [exact Hmod|].
  exact (padding_lanes_are_null bus32_user true false true payload5
           quiet_wires _ _ _ _ _ eq_refl eq_refl eq_refl eq_refl Hmod).
Defined.

(** *** Counterexamples to the claims as first stated *)

(** For the empty byte sequence no word is sent, so the monitor receives
    no packet at all, not a packet with an empty payload. *)
Lemma roundtrip_empty_sequence :
  ∃ m w1 w2 mon,
    AXIS_Master.__init__ bus32 true quiet_wires = Ok (m, w1)
    ∧ AXIS_Master._send_bytes m [] false w1 = Ok ([], w2)
    ∧ AXIS_Monitor.__init__ bus32 true false = Ok mon
    ∧ AXIS_Monitor._monitor_recv mon [] initial =
        (AXIS_Monitor.Running, initial)
    ∧ received initial ≠ [data_pkt []].
Proof. do 4 eexists. split_and!; try reflexivity. discriminate. Qed.

(** C3: a (1,0) lane puts a zero byte into the payload of the received
    packet, and without [tstrb] a lane whose keep bit is 0 is (0,0), not
    (1,1). *)
Lemma position_byte_in_payload :
  AXIS_Monitor.byte_type mon16 position_word 1 = Ok ["1"; "0"]
  ∧ AXIS_Monitor._monitor_recv mon16 [position_word; beat_last] initial =
    (AXIS_Monitor.Running,
     {| packet_buf := ∅;
        received := [data_pkt [x00; x22; x55; x66]%byte] |})
  ∧ has_tstrb (AXIS_Monitor.bus (monitor_on bus16_nostrb true 2)) = false
  ∧ AXIS_Monitor.byte_type (monitor_on bus16_nostrb true 2)
      invalid_word 1 = Ok ["0"; "0"].
Proof. split_and!; vm_compute; reflexivity. Qed.

(** C4: the lane visited first is a Data lane with unknown data bits, so
    [resolve] raises [ValueError] before the (0,1) lane is reached. *)
Lemma invalid_lane_behind_unknown :
  transferred mon16 unknown_then_invalid
  ∧ AXIS_Monitor.byte_range mon16 = [1; 0]
  ∧ AXIS_Monitor.byte_type mon16 unknown_then_invalid 0 = Ok ["0"; "1"]
  ∧ AXIS_Monitor.cycle mon16 unknown_then_invalid initial =
    (Raise ValueError, initial)
  ∧ ∀ st, AXIS_Monitor.cycle mon16 unknown_then_invalid initial ≠
          (Raise AXIS_ProtocolError, st).
Proof.
  split_and!; try reflexivity.
  - repeat split; try reflexivity; by eexists.
  - intros st. discriminate.
Qed.

(** C8: the padding lanes of the final word resolve to (0,0), not to the
    Position pair (1,0), and the byte-wise side channel of that word has
    one entry, not four. *)
Lemma padding_is_not_position :
  ∃ m w1 word1 word2 w2 mon,
    AXIS_Master.__init__ bus32_user true quiet_wires = Ok (m, w1)
    ∧ AXIS_Master._send_bytes m payload5 false w1 = Ok ([word1; word2], w2)
    ∧ AXIS_Monitor.__init__ bus32_user true true = Ok mon
    ∧ AXIS_Monitor.byte_type mon word2 0 = Ok ["0"; "0"]
    ∧ AXIS_Monitor.byte_type mon word2 0 ≠ Ok ["1"; "0"]
    ∧ AXIS_Monitor.lanes mon (set_tuser (bits "00011011") word2)
        (AXIS_Monitor.byte_range mon) ([], []) = Ok ([85%N], [3%N]).
Proof. do 6 eexists. split_and!; try reflexivity. discriminate. Qed.

(** * Further properties of the code *)

(** ** Which exceptions leave the monitor *)

Lemma rw_ret {A} L (a : A) : raises_within L (mret a).
Proof. intros st e st'. discriminate. Qed.

Lemma rw_lift {A} L (r : result A) :
  result_within L r → raises_within L (lift r).
Proof. intros H st e st' [= Hr _]. by apply H. Qed.

Lemma rw_get_buf L : raises_within L get_buf.
Proof. intros st e st'. discriminate. Qed.

Lemma rw_put_buf L buf : raises_within L (put_buf buf).
Proof. intros st e st'. discriminate. Qed.

Lemma rw_recv L p : raises_within L (_recv p).
Proof. intros st e st'. discriminate. Qed.

Lemma rw_bind {A B} L (m : M A) (k : A → M B) :
  raises_within L m → (∀ a, raises_within L (k a)) →
  raises_within L (m ≫= k).
Proof.
  intros Hm Hk st e st'. rewrite M_bind_eq.
  destruct (m st) as [[a|e'] st1] eqn:E; [apply Hk|].
  intros [= -> ->]. by apply Hm in E.
Qed.

Lemma rw_try {A} L (body handler : M A) :
  raises_within (KeyError :: L) body → raises_within L handler →
  raises_within L (try_except_KeyError body handler).
Proof.
  intros Hb Hh st e st'. unfold try_except_KeyError.
  destruct (body st) as [[a|e'] st1] eqn:E; [discriminate|].
  apply Hb in E.
  destruct e'; try apply Hh; intros [= <- _];
    apply elem_of_cons in E as [?|?]; done.
Qed.

Lemma result_within_value {A} L (r : result A) :
  ValueError ∈ L → (∀ e, r = Raise e → e = ValueError) → result_within L r.
Proof. intros HL H e He. by rewrite (H e He). Qed.

Lemma result_within_raise {A} L e : e ∈ L → result_within L (@Raise A e).
Proof. by intros HL e' [= <-]. Qed.

Ltac rw_mem := repeat (apply list_elem_of_here || apply list_elem_of_further).

Ltac rw_step :=
  match goal with
  | |- raises_within _ (_ ≫= _) => apply rw_bind; [|intros]
  | |- raises_within _ (try_except_KeyError _ _) => apply rw_try
  | |- raises_within _ (if ?c then _ else _) => destruct c
  | |- raises_within _ (match ?x with _ => _ end) => destruct x
  | |- raises_within _ (mret _) => apply rw_ret
  | |- raises_within _ get_buf => apply rw_get_buf
  | |- raises_within _ (put_buf _) => apply rw_put_buf
  | |- raises_within _ (_recv _) => apply rw_recv
  | |- raises_within _ (lift (Raise _)) =>
      apply rw_lift, result_within_raise; rw_mem
  | |- raises_within _ (lift _) =>
      apply rw_lift, result_within_value;
      [rw_mem | eauto using resolve_exn, int_signal_exn, bytes_exn]
  end.

Lemma index_exn {A} (l : list A) b e : index l b = Raise e → e = IndexError.
Proof. unfold index. destruct (l !! b); congruence. Qed.

Lemma result_within_ok {A} L (a : A) : result_within L (Ok a).
Proof. intros e. discriminate. Qed.

Lemma result_within_bind {A B} L (r : result A) (k : A → result B) :
  result_within L r → (∀ a, result_within L (k a)) →
  result_within L (r ≫= k).
Proof.
  intros Hr Hk e. destruct r as [a|e']; cbn; [apply Hk|].
  intros [= <-]. by apply Hr.
Qed.

Lemma result_within_index {A} L (l : list A) b :
  IndexError ∈ L → result_within L (index l b).
Proof. intros HL e He. by rewrite (index_exn _ _ _ He). Qed.

Ltac res_step :=
  match goal with
  | |- result_within _ (_ ≫= _) => apply result_within_bind; [|intros]
  | |- result_within _ (if ?c then _ else _) => destruct c
  | |- result_within _ (Ok _) => apply result_within_ok
  | |- result_within _ (Raise _) => apply result_within_raise; rw_mem
  | |- result_within _ (index _ _) => apply result_within_index; rw_mem
  | |- result_within _ _ =>
      apply result_within_value;
      [rw_mem | eauto using resolve_exn, int2_exn, int_signal_exn, bytes_exn]
  end.

Lemma lane_within self s b acc :
  result_within [AXIS_ProtocolError; ValueError; IndexError]
    (AXIS_Monitor.lane self s b acc).
Proof.
  unfold AXIS_Monitor.lane, AXIS_Monitor.byte_type. destruct acc as [fd fu].
  repeat res_step.
Qed.

Lemma lanes_within self s l acc :
  result_within [AXIS_ProtocolError; ValueError; IndexError]
    (AXIS_Monitor.lanes self s l acc).
Proof.
  revert acc. induction l as [|b l IH]; intros acc e; [discriminate|].
  rewrite lanes_cons.
  destruct (AXIS_Monitor.lane self s b acc) as [a|e'] eqn:E; cbn.
  - apply IH.
  - intros [= <-]. by apply lane_within in E.
Qed.

Lemma word_within self s :
  raises_within [AXIS_ProtocolError; ValueError; IndexError]
    (AXIS_Monitor.word self s).
Proof.
  unfold AXIS_Monitor.word. apply rw_bind.
  { apply rw_lift, lanes_within. }
  intros [fd fu].
  unfold AXIS_Monitor.complete, AXIS_Monitor.complete_unbuffered,
    AXIS_Monitor.extend, AXIS_Monitor.create, AXIS_Monitor.user_of_word,
    getitem, getitem_data, getitem_user, setitem, delitem.
  repeat rw_step.
Qed.

Lemma cycle_raises self s st e st' :
  AXIS_Monitor.cycle self s st = (Raise e, st') →
  e ∈ [AXIS_ProtocolError; ValueError; IndexError; TypeError]
  ∧ (e = TypeError → has_tready (AXIS_Monitor.bus self) = false).
Proof.
  unfold AXIS_Monitor.cycle. destruct (in_reset s).
  { rewrite M_bind_eq. cbn. destruct (bool_decide _); discriminate. }
  rewrite M_bind_eq. unfold lift at 1.
  destruct (int_signal (tvalid s)) as [v|e0] eqn:Ev.
  2: { intros [= <- _]. apply int_signal_exn in Ev as ->.
       split; [rw_mem|discriminate]. }
  destruct (N.eqb v 0); [discriminate|].
  rewrite M_bind_eq. unfold lift at 1.
  destruct (has_tready _) eqn:Hr.
  - destruct (int_signal (tready s)) as [r|e0] eqn:Er.
    2: { intros [= <- _]. apply int_signal_exn in Er as ->.
         split; [rw_mem|discriminate]. }
    destruct (N.eqb r 0); [discriminate|]. intros H.
    apply word_within in H. split.
    + apply list_elem_of_In in H. apply list_elem_of_In. cbn in *. tauto.
    + intros ->. apply list_elem_of_In in H. cbn in H.
      destruct H as [?|[?|[?|[]]]]; discriminate.
  - intros [= <- _]. split; [rw_mem|done].
Qed.

(** X1.  Whatever the samples, the monitor coroutine ends only with
    [AXIS_ProtocolError], [ValueError], [IndexError] or [TypeError]: the
    [KeyError]s of the pending table are all caught.  And it ends with
    [TypeError] only on a bus without [tready]. *)
Theorem monitor_stops_only_with (self : AXIS_Monitor.t)
    (samples : list Sample) (st st' : State) (e : exn) :
  AXIS_Monitor._monitor_recv self samples st = (AXIS_Monitor.Stopped e, st') →
  e ∈ [AXIS_ProtocolError; ValueError; IndexError; TypeError]
  ∧ e ≠ KeyError
  ∧ (e = TypeError → has_tready (AXIS_Monitor.bus self) = false).
Proof.
  revert st. induction samples as [|s l IH]; intros st; cbn; [discriminate|].
  destruct (AXIS_Monitor.cycle self s st) as [[[]|e'] st1] eqn:E; [apply IH|].
  intros [= <- _]. destruct (cycle_raises _ _ _ _ _ E) as [Hin Hty].
  split; [done|]. split; [|done].
  intros ->. apply list_elem_of_In in Hin. cbn in Hin.
  destruct Hin as [?|[?|[?|[?|[]]]]]; discriminate.
Qed.

Lemma monitor_stops_only_with_witness :
  AXIS_Monitor._monitor_recv mon16 [beat_first; invalid_word; beat_last]
    initial =
    (AXIS_Monitor.Stopped AXIS_ProtocolError,
     {| packet_buf := pending [[x11; x22]%byte]; received := [] |})
  ∧ AXIS_ProtocolError ≠ KeyError.
Proof.
  assert (H : AXIS_Monitor._monitor_recv mon16
                [beat_first; invalid_word; beat_last] initial =
    (AXIS_Monitor.Stopped AXIS_ProtocolError,
     {| packet_buf := pending [[x11; x22]%byte]; received := [] |})).
  { vm_compute. reflexivity. }
  split; [exact H|].
  exact (proj1 (proj2 (monitor_stops_only_with mon16 _ _ _ _ H))).
Defined.

(** ** A bus without [tready], a bus without [tdata] *)

Lemma cycle_without_tready self s :
  has_tready (AXIS_Monitor.bus self) = false →
  AXIS_Monitor.cycle self s initial = (Ok (), initial)
  ∨ ∃ e, AXIS_Monitor.cycle self s initial = (Raise e, initial)
         ∧ (e = TypeError ∨ e = ValueError).
Proof.
  intros Hr. unfold AXIS_Monitor.cycle. destruct (in_reset s).
  { left. rewrite M_bind_eq. cbn. by rewrite bool_decide_false by naive_solver. }
  rewrite M_bind_eq.
  destruct (int_signal (tvalid s)) as [v|e0] eqn:Ev;
    cbn -[AXIS_Monitor.word N.eqb].
  2: { right. exists e0. split; [done|]. right. by apply int_signal_exn in Ev. }
  destruct (N.eqb v 0); [by left|].
  right. exists TypeError. rewrite M_bind_eq, Hr. by split; [|left].
Qed.

(** X2.  On a bus without [tready] the monitor never receives a packet
    and never buffers a word: a sample with [tvalid] high ends the
    coroutine ([int] of the stand-in object is a [TypeError]), and every
    other sample is skipped. *)
Theorem monitor_without_tready_is_deaf (self : AXIS_Monitor.t)
    (samples : list Sample) :
  has_tready (AXIS_Monitor.bus self) = false →
  (AXIS_Monitor._monitor_recv self samples initial).2 = initial
  ∧ ∀ e, (AXIS_Monitor._monitor_recv self samples initial).1
           = AXIS_Monitor.Stopped e → e = TypeError ∨ e = ValueError.
Proof.
  intros Hr. induction samples as [|s l [IH1 IH2]];
    cbn [AXIS_Monitor._monitor_recv]; [by split|].
  destruct (cycle_without_tready self s Hr) as [->|(e & -> & He)].
  - by split.
  - split; [done|]. by intros e' [= <-].
Qed.

Lemma monitor_without_tready_is_deaf_witness :
  has_tready (AXIS_Monitor.bus (monitor_on bus16_noready true 2)) = false
  ∧ (AXIS_Monitor._monitor_recv (monitor_on bus16_noready true 2)
       [beat_first; beat_last] initial).2 = initial.
Proof.
  split; [reflexivity|].
  exact (proj1 (monitor_without_tready_is_deaf
                  (monitor_on bus16_noready true 2) [beat_first; beat_last]
                  eq_refl)).
Defined.

(** X3.  On a bus without [tdata] the driver is constructed (one lane is
    assumed), but sending any non-empty byte sequence raises
    [AttributeError]: [tdata] is driven without a guard. *)
Theorem send_bytes_without_tdata (bus : Bus) (lsb_first padZero : bool)
    (bytestr : list byte) (w : Sample) :
  len_tdata bus = None → bytestr ≠ [] →
  ∃ m w1,
    AXIS_Master.__init__ bus lsb_first w = Ok (m, w1)
    ∧ AXIS_Master._n_bytes m = 1
    ∧ AXIS_Master._send_bytes m bytestr padZero w1 = Raise AttributeError.
Proof.
  intros Hd Hne. eexists _, _. split; [|split].
  - unfold AXIS_Master.__init__, n_bytes_of. rewrite Hd. reflexivity.
  - reflexivity.
  - unfold AXIS_Master._send_bytes. cbn [AXIS_Master._n_bytes].
    rewrite range_step_ok by lia. cbn [mbind result_bind].
    destruct bytestr as [|x rest]; [done|].
    replace ((length (x :: rest) + 1 - 1) `div` 1) with (S (length rest))
      by (rewrite Nat.div_1_r; cbn; lia).
    cbn [seq fmap list_fmap AXIS_Master.send_loop].
    unfold AXIS_Master.send_word. cbn [AXIS_Master.bus]. rewrite Hd.
    cbn. by destruct (bool_decide _), lsb_first.
Qed.

Lemma send_bytes_without_tdata_witness :
  len_tdata bus_bare = None ∧ payload5 ≠ []
  ∧ ∃ m w1,
      AXIS_Master.__init__ bus_bare true quiet_wires = Ok (m, w1)
      ∧ AXIS_Master._n_bytes m = 1
      ∧ AXIS_Master._send_bytes m payload5 false w1 = Raise AttributeError.
Proof.
  split; [reflexivity|]. split; [discriminate|].
  apply (send_bytes_without_tdata bus_bare true false payload5 quiet_wires);
    [reflexivity|discriminate].
Defined.

(** ** The shape of what the driver sends *)

Lemma wires_trace_length self padstr (bytestr : list byte) offsets w :
  length (wires_trace self padstr bytestr offsets w) = length offsets.
Proof.
  revert w. induction offsets as [|off rest IH]; intros w; cbn; [done|].
  by rewrite IH.
Qed.

Lemma wires_trace_lookup self padstr (bytestr : list byte) offsets w i s :
  wires_trace self padstr bytestr offsets w !! i = Some s →
  ∃ off w0,
    offsets !! i = Some off
    ∧ s = word_wires self padstr
            (word_layout (AXIS_Master._lsb_first self)
               (AXIS_Master._n_bytes self)
               (slice bytestr off (off + AXIS_Master._n_bytes self)))
            (if bool_decide (off + AXIS_Master._n_bytes self < length bytestr)
             then "0" else "1") w0.
Proof.
  revert w i. induction offsets as [|off rest IH]; intros w i; [done|].
  destruct i as [|i]; cbn [wires_trace].
  - intros [= <-]. by exists off, w.
  - intros H. apply IH in H as (off' & w0 & Hoff & ->). by exists off', w0.
Qed.

Lemma word_wires_tvalid self padstr layout lc w :
  tvalid (word_wires self padstr layout lc w) = ["1"].
Proof.
  unfold word_wires, drive_if.
  by destruct (has_tstrb _), (has_tkeep _), (has_tlast _).
Qed.

Lemma word_wires_tdata self padstr layout lc w :
  tdata (word_wires self padstr layout lc w) =
  concat (lane_bits padstr <$> layout).
Proof.
  unfold word_wires, drive_if.
  by destruct (has_tstrb _), (has_tkeep _), (has_tlast _).
Qed.

Lemma word_wires_tkeep self padstr layout lc w :
  has_tkeep (AXIS_Master.bus self) = true →
  tkeep (word_wires self padstr layout lc w) = keep_char <$> layout.
Proof.
  intros H. unfold word_wires, drive_if. rewrite H.
  by destruct (has_tstrb _), (has_tlast _).
Qed.

Lemma word_wires_tstrb self padstr layout lc w :
  has_tstrb (AXIS_Master.bus self) = true →
  tstrb (word_wires self padstr layout lc w) = keep_char <$> layout.
Proof. intros H. unfold word_wires, drive_if. by rewrite H. Qed.

Lemma word_wires_last self padstr layout lc w :
  has_tlast (AXIS_Master.bus self) = true →
  tlast (word_wires self padstr layout lc w) = [lc].
Proof.
  intros H. unfold word_wires, drive_if. rewrite H.
  by destruct (has_tstrb _), (has_tkeep _).
Qed.

Lemma lane_bits_length padstr (layout : list (option byte)) :
  length padstr = 8 →
  length (concat (lane_bits padstr <$> layout)) = length layout * 8.
Proof.
  intros Hp. induction layout as [|[v|] l IH]; cbn [fmap list_fmap concat];
    [done|..]; rewrite length_app, IH; cbn [lane_bits length];
    rewrite ?format_08b_length, ?Hp; lia.
Qed.

Lemma keep_char_ones (lsb : bool) W (c : list byte) :
  length c ≤ W →
  length (filter (λ k, k = "1") (keep_char <$> word_layout lsb W c))
  = length c.
Proof.
  intros Hc.
  assert (Hd : ∀ l : list byte,
    filter (λ k, k = "1") (keep_char <$> (Some <$> l))
    = replicate (length l) "1").
  { induction l as [|v l IH]; [done|]. cbn [fmap list_fmap keep_char].
    rewrite filter_cons_True by done. cbn. by rewrite IH. }
  assert (Hp : ∀ p,
    filter (λ k, k = "1") (keep_char <$> replicate p (@None byte)) = []).
  { induction p as [|p IH]; [done|]. cbn [replicate fmap list_fmap keep_char].
    by rewrite filter_cons_False by done. }
  unfold word_layout. destruct lsb; rewrite fmap_app, filter_app, Hd, Hp,
    ?app_nil_r, ?app_nil_l, length_replicate, ?length_reverse; done.
Qed.

(** X4.  On a bus with [tdata], [_send_bytes] puts exactly
    [ceil(len / W)] words on the bus, each with [tvalid] high and [8 W]
    data bits; [tlast] is high on the final word and on no other; the
    keep string of a word has [W] bits of which as many are 1 as the
    word carries bytes of the sequence, and the strobe string is the
    same; and the driver leaves [tvalid] low. *)
Theorem send_bytes_shape (self : AXIS_Master.t) (bytestr : list byte)
    (padZero : bool) (w : Sample) :
  present (len_tdata (AXIS_Master.bus self)) = true →
  0 < AXIS_Master._n_bytes self →
  let W := AXIS_Master._n_bytes self in
  ∃ trace w',
    AXIS_Master._send_bytes self bytestr padZero w = Ok (trace, w')
    ∧ tvalid w' = ["0"]
    ∧ length trace = (length bytestr + W - 1) `div` W
    ∧ ∀ i s, trace !! i = Some s →
        tvalid s = ["1"]
        ∧ length (tdata s) = W * 8
        ∧ (has_tlast (AXIS_Master.bus self) = true →
           tlast s = [if bool_decide (S i = length trace) then "1" else "0"])
        ∧ (has_tkeep (AXIS_Master.bus self) = true →
           length (tkeep s) = W
           ∧ length (filter (λ k, k = "1") (tkeep s))
             = Nat.min W (length bytestr - i * W))
        ∧ (has_tstrb (AXIS_Master.bus self) = true →
           length (tstrb s) = W
           ∧ length (filter (λ k, k = "1") (tstrb s))
             = Nat.min W (length bytestr - i * W)).
Proof.
  intros Hd HW W.
  set (padstr := if padZero then replicate 8 "0" else replicate 8 "X").
  assert (Hpad : length padstr = 8) by by destruct padZero.
  set (q := (length bytestr + W - 1) `div` W).
  set (offsets := (λ i, i * W) <$> seq 0 q).
  assert (Hq : length bytestr ≤ q * W ∧ (q = 0 ∨ (q - 1) * W < length bytestr)).
  { destruct (Nat.eq_0_gt_0_cases (length bytestr)) as [H0|H0].
    - assert (q = 0) as ->.
      { unfold q. rewrite H0. apply Nat.div_small. lia. }
      split; [lia|by left].
    - destruct (word_count_bounds (length bytestr) W HW H0) as (H1 & H2 & _).
      fold q in H1, H2. by eauto. }
  destruct Hq as [Hq1 Hq2].
  assert (Hoff : Forall (λ off, off < length bytestr) offsets).
  { apply Forall_fmap, Forall_forall. intros i Hi.
    apply elem_of_seq in Hi. cbn. nia. }
  destruct (send_loop_trace self padstr bytestr offsets w Hd Hoff)
    as [w1 Hloop].
  exists (wires_trace self padstr bytestr offsets w),
    (AXIS_Master._idle_outputs self w1).
  assert (Hlen : length (wires_trace self padstr bytestr offsets w) = q).
  { rewrite wires_trace_length. unfold offsets.
    by rewrite length_fmap, length_seq. }
  split_and!.
  - unfold AXIS_Master._send_bytes. fold W.
    rewrite range_step_ok by done. cbn [mbind result_bind].
    fold padstr q offsets. by rewrite Hloop.
  - unfold AXIS_Master._idle_outputs, drive_if.
    by destruct (len_tdata _), (has_tlast _), (has_tkeep _), (has_tstrb _),
      (len_tid _), (len_tdest _), (len_tuser _).
  - exact Hlen.
  - intros i s Hs. rewrite Hlen.
    assert (Hi : i < q).
    { rewrite <- Hlen. by eapply lookup_lt_Some. }
    apply wires_trace_lookup in Hs as (off & w0 & Ho & ->).
    unfold offsets in Ho. rewrite list_lookup_fmap, lookup_seq_lt in Ho by done.
    cbn in Ho. injection Ho as <-. fold W.
    set (c := slice bytestr (i * W) (i * W + W)).
    assert (Hc : length c = Nat.min W (length bytestr - i * W)).
    { unfold c, slice. rewrite length_take, length_drop. f_equal. lia. }
    assert (HcW : length c ≤ W) by lia.
    split_and!.
    + apply word_wires_tvalid.
    + rewrite word_wires_tdata, lane_bits_length by done.
      by rewrite word_layout_length.
    + intros Hl. rewrite word_wires_last by done. f_equal.
      destruct (decide (S i = q)) as [He|He].
      * rewrite (bool_decide_true (S i = q)) by done.
        rewrite bool_decide_false; [done|]. nia.
      * rewrite (bool_decide_false (S i = q)) by done.
        rewrite bool_decide_true; [done|]. nia.
    + intros Hk. rewrite word_wires_tkeep by done.
      by rewrite length_fmap, word_layout_length, keep_char_ones.
    + intros Hk. rewrite word_wires_tstrb by done.
      by rewrite length_fmap, word_layout_length, keep_char_ones.
Qed.

Lemma send_bytes_shape_witness :
  present (len_tdata (AXIS_Master.bus (master_on bus32 true 4))) = true
  ∧ 0 < AXIS_Master._n_bytes (master_on bus32 true 4)
  ∧ ∃ trace w',
      AXIS_Master._send_bytes (master_on bus32 true 4) payload5 false
        quiet_wires = Ok (trace, w')
      ∧ length trace = 2.
Proof.
  split; [reflexivity|]. split; [cbn; lia|].
  destruct (send_bytes_shape (master_on bus32 true 4) payload5 false
              quiet_wires eq_refl ltac:(cbn; lia))
    as (trace & w' & H1 & _ & H3 & _).
  exists trace, w'. split; [exact H1|exact H3].
Defined.

(** ** The monitor as a function of the words read *)

Section Reassemble.
Variables (self : AXIS_Monitor.t) (s : Sample) (bt : Beat).
Hypothesis self_tdata : AXIS_Monitor.has_tdata self = true.
Hypothesis self_tuser : AXIS_Monitor.has_tuser self = false.
Hypothesis s_decoded : decoded self s = Ok bt.

Lemma decoded_parts :
  ∃ fd fu,
    AXIS_Monitor.lanes self s (AXIS_Monitor.byte_range self) ([], [])
      = Ok (fd, fu)
    ∧ stream_id self s = Ok (b_key bt)
    ∧ is_last self s = Ok (b_last bt)
    ∧ bytes fd = Ok (b_chunk bt).
Proof.
  unfold decoded in s_decoded.
  apply result_bind_ok in s_decoded as ([fd fu] & Hl & H).
  apply result_bind_ok in H as (k & Hk & H).
  apply result_bind_ok in H as (l & Hla & H).
  apply result_bind_ok in H as (c & Hc & [= <-]).
  by exists fd, fu.
Qed.

Lemma stream_id_parts :
  (if AXIS_Monitor.has_tid self
   then ∃ v, int_signal (tid s) = Ok v ∧ (b_key bt).1 = Some v
   else (b_key bt).1 = None)
  ∧ (if AXIS_Monitor.has_tdest self
     then ∃ v, int_signal (tdest s) = Ok v ∧ (b_key bt).2 = Some v
     else (b_key bt).2 = None).
Proof.
  destruct decoded_parts as (fd & fu & _ & Hk & _). unfold stream_id in Hk.
  apply result_bind_ok in Hk as (i & Hi & Hk).
  apply result_bind_ok in Hk as (d & Hd & [= <-]). cbn. split.
  - destruct (AXIS_Monitor.has_tid self); [|by injection Hi as <-].
    apply result_bind_ok in Hi as (v & Hv & [= <-]). by exists v.
  - destruct (AXIS_Monitor.has_tdest self); [|by injection Hd as <-].
    apply result_bind_ok in Hd as (v & Hv & [= <-]). by exists v.
Qed.

(** The last-word case and the other case, on any state. *)
Lemma complete_or_drop fd fu st :
  bytes fd = Ok (b_chunk bt) → b_last bt = true →
  try_except_KeyError
    (AXIS_Monitor.complete self s (b_key bt) fd fu)
    (AXIS_Monitor.complete_unbuffered self s fd fu) st
  = (Ok (), reassemble st bt).
Proof.
  intros Hb Hl. destruct stream_id_parts as [Hi Hd].
  unfold try_except_KeyError, reassemble. rewrite Hl.
  destruct st as [buf r]. cbn [packet_buf received].
  unfold AXIS_Monitor.complete, AXIS_Monitor.complete_unbuffered,
    getitem, getitem_data, delitem.
  rewrite self_tdata, self_tuser.
  destruct (buf !! b_key bt) as [[[d|] u]|] eqn:Hk; msimpl;
    rewrite ?Hk, ?Hb; msimpl; rewrite ?Hk, ?Hb; msimpl.
  all: destruct (AXIS_Monitor.has_tid self);
    [destruct Hi as (vi & -> & Hi)|]; msimpl.
  all: destruct (AXIS_Monitor.has_tdest self);
    [destruct Hd as (vd & -> & Hd)|]; msimpl.
  all: rewrite ?Hk; msimpl; try reflexivity.
  all: unfold tagged_pkt; rewrite Hi, Hd; reflexivity.
Qed.

Lemma extend_or_create fd fu st :
  bytes fd = Ok (b_chunk bt) → b_last bt = false →
  try_except_KeyError
    (AXIS_Monitor.extend self (b_key bt) fd fu)
    (AXIS_Monitor.create self (b_key bt) fd fu) st
  = (Ok (), reassemble st bt).
Proof.
  intros Hb Hl. unfold try_except_KeyError, reassemble. rewrite Hl.
  destruct st as [buf r]. cbn [packet_buf received].
  unfold AXIS_Monitor.extend, AXIS_Monitor.create,
    getitem, getitem_data, setitem.
  rewrite self_tdata, self_tuser.
  destruct (buf !! b_key bt) as [[[d|] u]|] eqn:Hk; msimpl;
    rewrite ?Hk, ?Hb; msimpl; rewrite ?Hk, ?Hb; msimpl;
    rewrite ?insert_insert_eq; reflexivity.
Qed.

Lemma word_is_reassemble st :
  AXIS_Monitor.word self s st = (Ok (), reassemble st bt).
Proof.
  destruct decoded_parts as (fd & fu & Hlanes & Hkey & Hlast & Hb).
  unfold AXIS_Monitor.word. rewrite M_bind_eq. unfold lift at 1.
  rewrite Hlanes. cbn iota beta.
  unfold stream_id in Hkey. unfold is_last in Hlast.
  destruct stream_id_parts as [Hi Hd].
  destruct (AXIS_Monitor.has_tid self);
    [destruct Hi as (vi & Hvi & Hi)|]; rewrite ?Hvi;
  (destruct (AXIS_Monitor.has_tdest self);
    [destruct Hd as (vd & Hvd & Hd)|]; rewrite ?Hvd);
  rewrite !M_bind_eq; cbn [lift mret M_ret];
  rewrite ?M_bind_eq; cbn [lift mret M_ret].
  all: match goal with
       | |- context [AXIS_Monitor.complete self s ?k _ _] =>
           replace k with (b_key bt)
             by (destruct (b_key bt); cbn in *; congruence)
       end.
  all: rewrite M_bind_eq; destruct (has_tlast (AXIS_Monitor.bus self)).
  all: try (apply result_bind_ok in Hlast as (v & Hv & [= Hlast]);
            rewrite M_bind_eq; unfold lift at 1; rewrite Hv;
            cbn [mret M_ret]; rewrite Hlast).
  all: try (injection Hlast as Hlast; cbn [mret M_ret]; rewrite Hlast).
  all: destruct (b_last bt) eqn:Hl;
    first [by apply complete_or_drop | by apply extend_or_create].
Qed.

End Reassemble.

Lemma pkt_key_tagged k payload : pkt_key (tagged_pkt k payload) = k.
Proof. by destruct k. Qed.

Lemma reassemble_other k bt st :
  b_key bt ≠ k → stream_view k (reassemble st bt) = stream_view k st.
Proof.
  intros Hk. unfold stream_view, reassemble.
  destruct (packet_buf st !! b_key bt ≫= e_data) as [d|], (b_last bt);
    cbn [packet_buf received]; try reflexivity.
  - rewrite filter_app, filter_cons_False, filter_nil, app_nil_r
      by by rewrite pkt_key_tagged.
    by rewrite lookup_delete_ne.
  - by rewrite lookup_insert_ne.
  - by rewrite lookup_insert_ne.
Qed.

Lemma reassemble_own bt st st' :
  stream_view (b_key bt) st = stream_view (b_key bt) st' →
  stream_view (b_key bt) (reassemble st bt)
  = stream_view (b_key bt) (reassemble st' bt).
Proof.
  unfold stream_view, reassemble. intros [= Hr Hb]. rewrite Hb.
  destruct (packet_buf st' !! b_key bt ≫= e_data) as [d|], (b_last bt);
    cbn [packet_buf received]; rewrite ?Hr, ?Hb; try reflexivity.
  - by rewrite !filter_app, Hr, !lookup_delete_eq.
  - by rewrite !lookup_insert_eq.
  - by rewrite !lookup_insert_eq.
Qed.

Lemma concerns_reset self k s : in_reset s = true → concerns self k s = true.
Proof. unfold concerns. by intros ->. Qed.

Lemma concerns_decoded self k s bt :
  in_reset s = false → decoded self s = Ok bt →
  concerns self k s = bool_decide (b_key bt = k).
Proof. unfold concerns. by intros -> ->. Qed.

Lemma cycle_clean self s st :
  AXIS_Monitor.has_tdata self = true → AXIS_Monitor.has_tuser self = false →
  clean self s →
  ∃ st', AXIS_Monitor.cycle self s st = (Ok (), st').
Proof.
  intros Hd Hu [Hr|[Hi|[Ht [bt Hbt]]]].
  - rewrite cycle_in_reset by done. by eexists.
  - rewrite cycle_idle by done. by eexists.
  - rewrite cycle_transferred by done.
    rewrite (word_is_reassemble self s bt) by done. by eexists.
Qed.

Lemma monitor_recv_clean self samples st :
  AXIS_Monitor.has_tdata self = true → AXIS_Monitor.has_tuser self = false →
  Forall (clean self) samples →
  (AXIS_Monitor._monitor_recv self samples st).1 = AXIS_Monitor.Running.
Proof.
  intros Hd Hu Hc. revert st. induction Hc as [|s l Hs _ IH]; intros st.
  - done.
  - cbn. destruct (cycle_clean self s st Hd Hu Hs) as [st' ->]. apply IH.
Qed.

Lemma monitor_recv_stream self k samples st st' :
  AXIS_Monitor.has_tdata self = true → AXIS_Monitor.has_tuser self = false →
  Forall (clean self) samples →
  stream_view k st = stream_view k st' →
  stream_view k (AXIS_Monitor._monitor_recv self samples st).2
  = stream_view k
      (AXIS_Monitor._monitor_recv self
         (filter (λ s, concerns self k s) samples) st').2.
Proof.
  intros Hd Hu Hc. revert st st'.
  induction Hc as [|s l Hs _ IH]; intros st st' Hv; [done|].
  cbn [AXIS_Monitor._monitor_recv].
  destruct Hs as [Hr|[Hi|[Ht [bt Hbt]]]].
  - rewrite filter_cons_True by by rewrite concerns_reset.
    cbn [AXIS_Monitor._monitor_recv]. rewrite !cycle_in_reset by done.
    apply IH. injection Hv as Hv _. unfold stream_view. cbn. by rewrite Hv.
  - rewrite cycle_idle by done.
    destruct (concerns self k s) eqn:Hk.
    + rewrite filter_cons_True by by rewrite Hk.
      cbn [AXIS_Monitor._monitor_recv]. rewrite cycle_idle by done.
      by apply IH.
    + rewrite filter_cons_False by (rewrite Hk; by intros []). by apply IH.
  - rewrite cycle_transferred by done.
    rewrite (word_is_reassemble self s bt) by done.
    pose proof Ht as [Hr _].
    destruct (decide (b_key bt = k)) as [<-|Hk].
    + rewrite filter_cons_True
        by (rewrite (concerns_decoded _ _ _ bt) by done;
            by rewrite bool_decide_eq_true_2).
      cbn [AXIS_Monitor._monitor_recv]. rewrite cycle_transferred by done.
      rewrite (word_is_reassemble self s bt) by done.
      by apply IH, reassemble_own.
    + rewrite filter_cons_False
        by (rewrite (concerns_decoded _ _ _ bt) by done;
            rewrite bool_decide_eq_false_2 by done; by intros []).
      apply IH. by rewrite reassemble_other.
Qed.

Lemma monitor_recv_own self k samples st :
  AXIS_Monitor.has_tdata self = true → AXIS_Monitor.has_tuser self = false →
  Forall (clean self) samples →
  Forall (λ s, concerns self k s) samples →
  Forall (λ p, pkt_key p = k) (received st) →
  Forall (λ p, pkt_key p = k)
    (received (AXIS_Monitor._monitor_recv self samples st).2).
Proof.
  intros Hd Hu Hc. revert st.
  induction Hc as [|s l Hs _ IH]; intros st Hk Hst; [done|].
  apply Forall_cons in Hk as [Hk Hl].
  cbn [AXIS_Monitor._monitor_recv].
  destruct Hs as [Hr|[Hi|[Ht [bt Hbt]]]].
  - rewrite cycle_in_reset by done. by apply IH.
  - rewrite cycle_idle by done. by apply IH.
  - rewrite cycle_transferred by done.
    rewrite (word_is_reassemble self s bt) by done.
    apply IH; [done|]. pose proof Ht as [Hr _].
    rewrite (concerns_decoded _ _ _ bt) in Hk by done.
    apply bool_decide_unpack in Hk.
    unfold reassemble.
    destruct (packet_buf st !! b_key bt ≫= e_data) as [d|], (b_last bt);
      cbn [received]; try done.
    apply Forall_app. split; [done|].
    apply Forall_singleton. by rewrite pkt_key_tagged.
Qed.

Lemma filter_all {A} (P : A → Prop) `{∀ x, Decision (P x)} (l : list A) :
  Forall P l → filter P l = l.
Proof.
  induction 1 as [|x l Hx _ IH]; [done|].
  by rewrite filter_cons_True, IH.
Qed.

(** X5. A monitor with [tdata] and without [tuser] keeps the streams
    apart: over sample points that are in reset, idle, or transfer a
    word whose lanes and stream id read cleanly, the loop never stops,
    and what it receives for one stream id, and what it holds pending
    for it, is what it would receive and hold had it seen only the
    reset points and the words of that stream. *)
Theorem streams_are_independent (self : AXIS_Monitor.t) (k : StreamKey)
    (samples : list Sample) :
  AXIS_Monitor.has_tdata self = true → AXIS_Monitor.has_tuser self = false →
  Forall (clean self) samples →
  let full := AXIS_Monitor._monitor_recv self samples initial in
  let own :=
    AXIS_Monitor._monitor_recv self
      (filter (λ s, concerns self k s) samples) initial in
  full.1 = AXIS_Monitor.Running
  ∧ own.1 = AXIS_Monitor.Running
  ∧ filter (λ p, pkt_key p = k) (received full.2) = received own.2
  ∧ packet_buf full.2 !! k = packet_buf own.2 !! k.
Proof.
  intros Hd Hu Hc full own.
  assert (Hc' : Forall (clean self) (filter (λ s, concerns self k s) samples))
    by (apply Forall_forall; intros s [_ Hs]%list_elem_of_filter;
        by eapply Forall_forall in Hs).
  assert (Hk : Forall (λ s, concerns self k s)
                 (filter (λ s, concerns self k s) samples))
    by (apply Forall_forall; by intros s [Hs _]%list_elem_of_filter).
  pose proof (monitor_recv_stream self k samples initial initial Hd Hu Hc
                eq_refl) as [= Hr Hb].
  split_and!.
  - by apply monitor_recv_clean.
  - by apply monitor_recv_clean.
  - subst full own. rewrite Hr. apply filter_all.
    by apply monitor_recv_own.
  - done.
Qed.

Lemma streams_are_independent_witness :
  AXIS_Monitor.has_tdata mon8_id = true
  ∧ AXIS_Monitor.has_tuser mon8_id = false
  ∧ Forall (clean mon8_id) [word_a1; word_b1; word_a2; word_b2]
  ∧ filter (λ p, pkt_key p = (Some 1%N, None))
      (received (AXIS_Monitor._monitor_recv mon8_id
                   [word_a1; word_b1; word_a2; word_b2] initial).2)
    = received (AXIS_Monitor._monitor_recv mon8_id
                  (filter (λ s, concerns mon8_id (Some 1%N, None) s)
                     [word_a1; word_b1; word_a2; word_b2]) initial).2.
Proof.
  assert (Hc : Forall (clean mon8_id) [word_a1; word_b1; word_a2; word_b2]).
  { repeat first [apply Forall_nil_2 | apply Forall_cons_2].
    all: right; right; (split; [|by eexists]).
    all: split_and!; [reflexivity|by exists 1%N|reflexivity|by exists 1%N]. }
  split; [reflexivity|]. split; [reflexivity|]. split; [exact Hc|].
  exact (proj1 (proj2 (proj2
    (streams_are_independent mon8_id (Some 1%N, None)
       [word_a1; word_b1; word_a2; word_b2] eq_refl eq_refl Hc)))).
Defined.

Lemma monitor_recv_words self (k : StreamKey) chunks :
  AXIS_Monitor.has_tdata self = true → AXIS_Monitor.has_tuser self = false →
  chunks ≠ [] →
  ∀ d samples buf r,
    Forall2 (λ s bt, transferred self s ∧ decoded self s = Ok bt)
      samples (beats_of k chunks) →
    buf !! k = None →
    AXIS_Monitor._monitor_recv self samples
      {| packet_buf := held k d buf; received := r |}
    = (AXIS_Monitor.Running,
       {| packet_buf := buf;
          received :=
            r ++ if bool_decide (2 ≤ length d + length chunks)
                 then [tagged_pkt k (concat (d ++ chunks))] else [] |}).
Proof.
  intros Hd Hu. induction chunks as [|c rest IH]; [done|].
  intros _ d samples buf r Hs Hk. cbn [beats_of] in Hs.
  apply Forall2_cons_inv_r in Hs as (s & l & [Ht Hbt] & Hl & ->).
  cbn [AXIS_Monitor._monitor_recv].
  rewrite cycle_transferred by done.
  rewrite (word_is_reassemble self s _ Hd Hu Hbt).
  unfold reassemble. cbn [b_key b_chunk b_last packet_buf received].
  destruct rest as [|c' rest].
  - apply Forall2_nil_inv_r in Hl as ->. cbn [AXIS_Monitor._monitor_recv].
    rewrite bool_decide_eq_true_2 by done. destruct d as [|c0 d]; cbn [held].
    + rewrite Hk. cbn. by rewrite app_nil_r.
    + rewrite lookup_insert_eq. cbn [mbind option_bind e_data].
      rewrite delete_insert_eq, delete_id by done.
      rewrite bool_decide_eq_true_2 by (cbn; lia).
      by rewrite concat_app, (concat_cons c), app_nil_r.
  - rewrite bool_decide_eq_false_2 by done.
    assert (Hnext : ∀ buf',
      buf' = held k (d ++ [c]) buf →
      AXIS_Monitor._monitor_recv self l {| packet_buf := buf'; received := r |}
      = (AXIS_Monitor.Running,
         {| packet_buf := buf;
            received :=
              r ++ if bool_decide (2 ≤ length d + length (c :: c' :: rest))
                   then [tagged_pkt k (concat (d ++ c :: c' :: rest))]
                   else [] |})).
    { intros buf' ->. rewrite (IH ltac:(done) (d ++ [c]) l buf r Hl Hk).
      rewrite length_app, <- app_assoc. cbn [length app].
      by rewrite !bool_decide_eq_true_2 by lia. }
    destruct d as [|c0 d]; cbn [held].
    + rewrite Hk. cbn [mbind option_bind]. by apply Hnext.
    + rewrite lookup_insert_eq. cbn [mbind option_bind e_data e_user].
      apply Hnext. cbn [held app].
      rewrite insert_insert_eq. by destruct (d ++ [c]).
Qed.

(** X6. A monitor with [tdata] and without [tuser] receives a train of
    packets of one stream as follows: with nothing pending for the
    stream, and however many idle sample points lie between the words,
    each packet of two or more words is handed to [_recv] once, in
    order, with the payload of its words joined and the stream id as
    tag; each packet of a single word is handed over not at all; and
    the pending table ends as it began. *)
Theorem monitor_receives_train (self : AXIS_Monitor.t) (k : StreamKey)
    (packets : list (list (list byte))) (samples samples' : list Sample)
    (st : State) :
  AXIS_Monitor.has_tdata self = true → AXIS_Monitor.has_tuser self = false →
  Forall2 (λ s bt, transferred self s ∧ decoded self s = Ok bt)
    samples (packets ≫= beats_of k) →
  with_idle self samples samples' →
  packet_buf st !! k = None →
  AXIS_Monitor._monitor_recv self samples' st
  = (AXIS_Monitor.Running,
     {| packet_buf := packet_buf st;
        received :=
          received st
          ++ ((λ chunks, tagged_pkt k (concat chunks))
              <$> filter (λ chunks, 2 ≤ length chunks) packets) |}).
Proof.
  intros Hd Hu Hs Hidle Hk. rewrite (monitor_recv_with_idle _ _ _ _ Hidle).
  clear Hidle samples'. destruct st as [buf r]. cbn [packet_buf received] in *.
  revert samples r Hs.
  induction packets as [|chunks packets IH]; intros samples r Hs.
  - apply Forall2_nil_inv_r in Hs as ->. cbn. by rewrite app_nil_r.
  - cbn [mbind list_bind] in Hs.
    apply Forall2_app_inv_r in Hs as (l1 & l2 & H1 & H2 & ->).
    destruct chunks as [|c rest].
    + apply Forall2_nil_inv_r in H1 as ->. cbn [app].
      rewrite filter_cons_False by (cbn; lia). by apply IH.
    + pose proof (monitor_recv_words self k (c :: rest) Hd Hu ltac:(done)
                    [] l1 buf r H1 Hk) as Hrun.
      cbn [held] in Hrun. rewrite (monitor_recv_app self l1 l2 _ _ Hrun).
      rewrite IH by done. cbn [length app Nat.add].
      destruct (decide (2 ≤ S (length rest))) as [Hlen|Hlen].
      * rewrite bool_decide_eq_true_2, filter_cons_True by done.
        cbn [fmap list_fmap]. by rewrite <- app_assoc.
      * rewrite bool_decide_eq_false_2, filter_cons_False by done.
        by rewrite app_nil_r.
Qed.

Lemma monitor_receives_train_witness :
  AXIS_Monitor.has_tdata mon8_id = true
  ∧ AXIS_Monitor.has_tuser mon8_id = false
  ∧ Forall2 (λ s bt, transferred mon8_id s ∧ decoded mon8_id s = Ok bt)
      [word_a1; word_a2; word_a]
      ([[[xa1]; [xa2]]; [[xaa]]]%byte ≫= beats_of (Some 0%N, None))
  ∧ with_idle mon8_id [word_a1; word_a2; word_a] [word_a1; word_a2; word_a]
  ∧ packet_buf initial !! (Some 0%N, None) = None
  ∧ AXIS_Monitor._monitor_recv mon8_id [word_a1; word_a2; word_a] initial
    = (AXIS_Monitor.Running, {| packet_buf := ∅; received := [pkt_a] |}).
Proof.
  assert (Hs : Forall2 (λ s bt, transferred mon8_id s ∧ decoded mon8_id s = Ok bt)
      [word_a1; word_a2; word_a]
      ([[[xa1]; [xa2]]; [[xaa]]]%byte ≫= beats_of (Some 0%N, None))).
  { repeat first [apply Forall2_nil_2 | apply Forall2_cons_2].
    all: split; [|reflexivity].
    all: split_and!; [reflexivity|by exists 1%N|reflexivity|by exists 1%N]. }
  split; [reflexivity|]. split; [reflexivity|]. split; [exact Hs|].
  split; [apply with_idle_refl|]. split; [reflexivity|].
  exact (monitor_receives_train mon8_id (Some 0%N, None)
           [[[xa1]; [xa2]]; [[xaa]]]%byte _ _ initial eq_refl eq_refl Hs
           (with_idle_refl _ _) eq_refl).
Defined.

(** ** A bus without [tlast] *)

Lemma word_without_tlast self s st res st' :
  has_tlast (AXIS_Monitor.bus self) = false →
  AXIS_Monitor.has_tdata self = true →
  packet_buf st = ∅ →
  AXIS_Monitor.word self s st = (res, st') → st' = st.
Proof.
  intros Hl Hd Hb. unfold AXIS_Monitor.word. rewrite Hl, M_bind_eq.
  unfold lift at 1.
  destruct (AXIS_Monitor.lanes _ _ _ _) as [[fd fu]|e]; [|by intros [= _ <-]].
  cbn iota beta. rewrite M_bind_eq.
  destruct (AXIS_Monitor.has_tid self).
  - rewrite M_bind_eq. unfold lift at 1.
    destruct (int_signal (tid s)) as [vi|e]; [|by intros [= _ <-]].
    cbn [mret M_ret]. rewrite M_bind_eq.
    destruct (AXIS_Monitor.has_tdest self).
    + rewrite M_bind_eq. unfold lift at 1.
      destruct (int_signal (tdest s)) as [vd|e]; [|by intros [= _ <-]].
      cbn [mret M_ret]. rewrite M_bind_eq. cbn [mret M_ret].
      apply complete_without_pending; [done|]. by rewrite Hb.
    + cbn [mret M_ret]. rewrite M_bind_eq. cbn [mret M_ret].
      apply complete_without_pending; [done|]. by rewrite Hb.
  - cbn [mret M_ret]. rewrite M_bind_eq.
    destruct (AXIS_Monitor.has_tdest self).
    + rewrite M_bind_eq. unfold lift at 1.
      destruct (int_signal (tdest s)) as [vd|e]; [|by intros [= _ <-]].
      cbn [mret M_ret]. rewrite M_bind_eq. cbn [mret M_ret].
      apply complete_without_pending; [done|]. by rewrite Hb.
    + cbn [mret M_ret]. rewrite M_bind_eq. cbn [mret M_ret].
      apply complete_without_pending; [done|]. by rewrite Hb.
Qed.

Lemma cycle_without_tlast self s st res st' :
  has_tlast (AXIS_Monitor.bus self) = false →
  AXIS_Monitor.has_tdata self = true →
  packet_buf st = ∅ →
  AXIS_Monitor.cycle self s st = (res, st') → st' = st.
Proof.
  intros Hl Hd Hb. unfold AXIS_Monitor.cycle.
  destruct (in_reset s).
  - rewrite M_bind_eq. cbn. rewrite Hb.
    rewrite bool_decide_eq_false_2 by (by intros []). by intros [= _ <-].
  - rewrite M_bind_eq. unfold lift at 1.
    destruct (int_signal (tvalid s)) as [v|e]; [|by intros [= _ <-]].
    cbn iota beta. destruct (N.eqb v 0); [by intros [= _ <-]|].
    rewrite M_bind_eq. unfold lift at 1.
    destruct (if has_tready (AXIS_Monitor.bus self) then _ else _) as [r|e];
      [|by intros [= _ <-]].
    cbn iota beta. destruct (N.eqb r 0); [by intros [= _ <-]|].
    by apply word_without_tlast.
Qed.

(** X7. On a bus with [tdata] and without [tlast] every transferred
    word is a packet of its own, and the monitor hands none of them to
    [_recv]: started with nothing pending, whatever the sample points,
    it receives nothing and holds nothing pending, and this also when
    the loop stops with an exception. *)
Theorem monitor_without_tlast_receives_nothing (self : AXIS_Monitor.t)
    (samples : list Sample) (st : State) :
  has_tlast (AXIS_Monitor.bus self) = false →
  AXIS_Monitor.has_tdata self = true →
  packet_buf st = ∅ →
  (AXIS_Monitor._monitor_recv self samples st).2 = st.
Proof.
  intros Hl Hd. revert st.
  induction samples as [|s l IH]; intros st Hb; [done|].
  cbn [AXIS_Monitor._monitor_recv].
  destruct (AXIS_Monitor.cycle self s st) as [[[]|e] st1] eqn:Hc;
    pose proof (cycle_without_tlast _ _ _ _ _ Hl Hd Hb Hc) as ->;
    [by apply IH|done].
Qed.

Lemma monitor_without_tlast_receives_nothing_witness :
  has_tlast (AXIS_Monitor.bus (monitor_on bus16_nolast true 2)) = false
  ∧ AXIS_Monitor.has_tdata (monitor_on bus16_nolast true 2) = true
  ∧ packet_buf initial = ∅
  ∧ (AXIS_Monitor._monitor_recv (monitor_on bus16_nolast true 2)
       [beat_first; beat_middle; beat_last] initial).2 = initial.
Proof.
  split; [reflexivity|]. split; [reflexivity|]. split; [reflexivity|].
  exact (monitor_without_tlast_receives_nothing
           (monitor_on bus16_nolast true 2)
           [beat_first; beat_middle; beat_last] initial
           eq_refl eq_refl eq_refl).
Defined.

(** ** The driver against the clock *)

Lemma coroutine_bind_eq {A B} (m : Clocked.Coroutine A)
    (k : A → Clocked.Coroutine B) env :
  (m ≫= k) env =
  match m env with
  | (tr, Clocked.Returned (a, env')) =>
      let '(tr', o) := k a env' in (tr ++ tr', o)
  | (tr, Clocked.Suspended) => (tr, Clocked.Suspended)
  | (tr, Clocked.Raised e) => (tr, Clocked.Raised e)
  end.
Proof. reflexivity. Qed.

Lemma coroutine_bind_returned {A B} (m : Clocked.Coroutine A)
    (k : A → Clocked.Coroutine B) env tr b :
  (m ≫= k) env = (tr, Clocked.Returned b) →
  ∃ tr1 a env1 tr2,
    m env = (tr1, Clocked.Returned (a, env1))
    ∧ k a env1 = (tr2, Clocked.Returned b)
    ∧ tr = tr1 ++ tr2.
Proof.
  rewrite coroutine_bind_eq.
  destruct (m env) as [tr1 [[a env1]| |e]]; [|done..].
  destruct (k a env1) as [tr2 o] eqn:Hk. intros [= <- ->].
  by exists tr1, a, env1, tr2.
Qed.

Lemma lift_result_returned {A} (r : result A) env tr a env' :
  Clocked.lift_result r env = (tr, Clocked.Returned (a, env')) →
  r = Ok a ∧ tr = [] ∧ env' = env.
Proof. destruct r; [by intros [= <- <- <-]|done]. Qed.

Lemma rising_edge_returned w env tr r env' :
  Clocked.RisingEdge w env = (tr, Clocked.Returned (r, env')) →
  env = r :: env' ∧ tr = [set_tready r w].
Proof. destruct env; [done|by intros [= <- <- <-]]. Qed.

Lemma wait_cycles_returned n w env tr u env' :
  Clocked.wait_cycles n w env = (tr, Clocked.Returned (u, env')) →
  Forall (λ s, ∃ r, s = set_tready r w) tr
  ∧ length tr = n ∧ env = (tready <$> tr) ++ env'.
Proof.
  revert env tr. induction n as [|n IH]; intros env tr; cbn.
  - by intros [= <- _ <-].
  - intros (tr1 & r & env1 & tr2 & H1 & H2 & ->)%coroutine_bind_returned.
    apply rising_edge_returned in H1 as [-> ->].
    apply IH in H2 as (Hf & Hn & ->). split_and!.
    + apply Forall_cons. split; [by exists r|done].
    + cbn. by rewrite Hn.
    + done.
Qed.

Lemma wait_tready_paced w env : ∀ r tr u env',
  Clocked.wait_tready w r env = (tr, Clocked.Returned (u, env')) →
  paced true [w] (set_tready r w :: tr)
  ∧ r :: env = (tready <$> set_tready r w :: tr) ++ env'
  ∧ Forall (λ s, in_reset s = in_reset w) tr.
Proof.
  induction env as [|r' env IH]; intros r tr u env'; cbn.
  - destruct (int_signal r) as [v|e] eqn:Hr; [|done].
    destruct (N.eqb v 0) eqn:Hv; [done|]. intros [= <- _ <-].
    split_and!; [|done..]. apply paced_pass; [|constructor].
    intros _. exists v. split; [done|]. by apply N.eqb_neq.
  - destruct (int_signal r) as [v|e] eqn:Hr; [|done].
    destruct (N.eqb v 0) eqn:Hv.
    + destruct (Clocked.wait_tready w r' env) as [tr' o] eqn:Hw.
      intros [= <- ->]. apply IH in Hw as (Hp & He & Hf).
      apply N.eqb_eq in Hv as ->. split_and!.
      * by apply paced_stall.
      * cbn in He |- *. by rewrite He.
      * by apply Forall_cons.
    + intros [= <- _ <-]. split_and!; [|done..].
      apply paced_pass; [|constructor].
      intros _. exists v. split; [done|]. by apply N.eqb_neq.
Qed.

Lemma paced_app ready l1 l2 t1 t2 :
  paced ready l1 t1 → paced ready l2 t2 → paced ready (l1 ++ l2) (t1 ++ t2).
Proof.
  intros H1 H2. induction H1; cbn.
  - done.
  - by apply paced_gap.
  - by apply paced_stall.
  - by apply paced_pass.
Qed.

Lemma paced_gaps ready t :
  Forall (λ s, tvalid s = ["0"]) t → paced ready [] t.
Proof.
  induction 1; [constructor|by apply paced_gap].
Qed.

(** What the gate leaves on the wires is overwritten by the word. *)
Lemma send_word_gated self padstr bytestr offset x y w :
  AXIS_Master.send_word self padstr bytestr offset
    (set_tvalid x (set_tdata y w))
  = AXIS_Master.send_word self padstr bytestr offset w.
Proof.
  unfold AXIS_Master.send_word, drive_if.
  destruct (bool_decide _), (negb _), (AXIS_Master._lsb_first self),
    (has_tlast _), (present _), (has_tkeep _), (has_tstrb _); reflexivity.
Qed.

Lemma send_word_in_reset self padstr bytestr offset w w' :
  AXIS_Master.send_word self padstr bytestr offset w = Ok w' →
  in_reset w' = in_reset w.
Proof.
  unfold AXIS_Master.send_word, drive_if.
  destruct (bool_decide _), (negb _), (AXIS_Master._lsb_first self),
    (has_tlast _), (present _), (has_tkeep _), (has_tstrb _);
    by intros [= <-].
Qed.

Section ClockedDriver.
Context {G : Type} (_next_valids : Clocked.Valids G → Clocked.Valids G).
Variables (self : AXIS_Master.t) (padstr : binstr) (bytestr : list byte).

Lemma gate_returned v w env tr v' w' env' :
  Clocked.gate _next_valids self padstr v w env
    = (tr, Clocked.Returned ((v', w'), env')) →
  Forall (λ s, tvalid s = ["0"] ∧ in_reset s = in_reset w) tr
  ∧ env = (tready <$> tr) ++ env'
  ∧ in_reset w' = in_reset w
  ∧ (∀ offset,
       AXIS_Master.send_word self padstr bytestr offset w'
       = AXIS_Master.send_word self padstr bytestr offset w).
Proof.
  unfold Clocked.gate. destruct (Clocked.is_off _).
  - intros (tr1 & w1 & env1 & tr2 & H1 & H2 & ->)%coroutine_bind_returned.
    apply lift_result_returned in H1 as (Hw1 & -> & ->).
    apply coroutine_bind_returned in H2
      as (tr3 & [] & env3 & tr4 & H3 & H4 & ->).
    injection H4 as <- <- <- <-.
    apply wait_cycles_returned in H3 as (Hf & _ & ->).
    destruct (present _); [|done]. injection Hw1 as <-.
    rewrite app_nil_r. split_and!.
    + eapply Forall_impl; [exact Hf|]. by intros s [r ->].
    + done.
    + done.
    + intros offset. apply send_word_gated.
  - intros [= <- <- <- <-]. by split_and!.
Qed.

Lemma send_loop_paced offsets : ∀ v w env tr v' w' env',
  Clocked.send_loop _next_valids self padstr bytestr offsets v w env
    = (tr, Clocked.Returned ((v', w'), env')) →
  ∃ trace,
    AXIS_Master.send_loop self padstr bytestr offsets w = Ok (trace, w')
    ∧ paced (has_tready (AXIS_Master.bus self)) trace tr
    ∧ env = (tready <$> tr) ++ env'
    ∧ Forall (λ s, in_reset s = in_reset w) tr.
Proof.
  induction offsets as [|offset rest IH]; intros v w env tr v' w' env'.
  - cbn. intros [= <- <- <- <-]. exists [].
    split_and!; [done|constructor|done|done].
  - cbn [Clocked.send_loop AXIS_Master.send_loop].
    intros (tr1 & [v1 w1] & env1 & tr2 & H1 & H2 & ->)%coroutine_bind_returned.
    apply gate_returned in H1 as (Hgap & -> & Hr1 & Hword).
    apply coroutine_bind_returned in H2
      as (tr2' & w2 & env2 & tr3 & H2' & H3 & ->).
    apply lift_result_returned in H2' as (Hw2 & -> & ->).
    rewrite Hword in Hw2. rewrite Hw2. cbn [mbind result_bind].
    pose proof (send_word_in_reset _ _ _ _ _ _ Hw2) as Hr2.
    apply coroutine_bind_returned in H3
      as (tr3' & r & env3 & tr4 & H3 & H4 & ->).
    apply rising_edge_returned in H3 as [-> ->].
    apply coroutine_bind_returned in H4
      as (tr5 & [] & env5 & tr6 & H5 & H6 & ->).
    apply IH in H6 as (trace & -> & Hp & -> & Hr6).
    exists (w2 :: trace). split; [done|].
    assert (Hone : paced (has_tready (AXIS_Master.bus self)) [w2]
                     (set_tready r w2 :: tr5)
                   ∧ r :: env3 = (tready <$> set_tready r w2 :: tr5)
                                  ++ (tready <$> tr6) ++ env'
                   ∧ Forall (λ s, in_reset s = in_reset w2) tr5).
    { destruct (has_tready _).
      - by apply wait_tready_paced in H5.
      - injection H5 as <- <-. split_and!; [|done..].
        apply paced_pass; [done|constructor]. }
    destruct Hone as (Hone & Henv & Hr5). split_and!.
    + apply (paced_app _ [] (w2 :: trace));
        [apply paced_gaps; eapply Forall_impl; [exact Hgap|]; by intros ? []|].
      cbn [app]. by apply (paced_app _ [w2] trace (_ :: _)).
    + rewrite Henv. cbn [app].
      rewrite !fmap_app, !fmap_cons, <- !app_assoc. cbn [app].
      by rewrite fmap_app, <- app_assoc.
    + rewrite !Forall_app. split_and!.
      * eapply Forall_impl; [exact Hgap|]. by intros ? [].
      * done.
      * by apply Forall_singleton.
      * eapply Forall_impl; [exact Hr5|]. intros ? ->. done.
      * eapply Forall_impl; [exact Hr6|]. intros ? ->. done.
Qed.

End ClockedDriver.

(** X8. The clocked run of [_send_bytes] against its transfers: if the
    run returns, under any valid-gating and any sequence of [tready]
    values, then the sample points it passed are the transfers of
    [AXIS_Master._send_bytes] in order, each held with the wires
    unchanged while [tready] reads 0 and passed where it reads
    non-zero, with nothing but [tvalid]-low points in between; the
    wires are left as there, and the run has used up one [tready]
    value per sample point. *)
Theorem clocked_send_bytes_is_paced {G : Type}
    (_next_valids : Clocked.Valids G → Clocked.Valids G)
    (self : AXIS_Master.t) (bytestr : list byte) (padZero : bool)
    (v v' : Clocked.Valids G) (w w' : Sample) (env env' : list binstr)
    (tr : list Sample) :
  Clocked._send_bytes _next_valids self bytestr padZero v w env
    = (tr, Clocked.Returned ((v', w'), env')) →
  ∃ trace,
    AXIS_Master._send_bytes self bytestr padZero w = Ok (trace, w')
    ∧ paced (has_tready (AXIS_Master.bus self)) trace tr
    ∧ env = (tready <$> tr) ++ env'.
Proof.
  unfold Clocked._send_bytes, AXIS_Master._send_bytes.
  intros (tr1 & offsets & env1 & tr2 & H1 & H2 & ->)%coroutine_bind_returned.
  apply lift_result_returned in H1 as (-> & -> & ->).
  apply coroutine_bind_returned in H2
    as (tr3 & [v1 w1] & env3 & tr4 & H3 & H4 & ->).
  injection H4 as <- <- <- <-.
  apply send_loop_paced in H3 as (trace & Hl & Hp & -> & _).
  exists trace. cbn [mbind result_bind]. rewrite Hl. cbn.
  by rewrite !app_nil_r.
Qed.

(** The monitor does not read [tready] beyond its being non-zero. *)
Lemma lanes_set_tready mon r s rng : ∀ acc,
  AXIS_Monitor.lanes mon (set_tready r s) rng acc
  = AXIS_Monitor.lanes mon s rng acc.
Proof.
  induction rng as [|b rng IH]; intros acc; [done|].
  cbn [AXIS_Monitor.lanes].
  change (AXIS_Monitor.lane mon (set_tready r s) b acc)
    with (AXIS_Monitor.lane mon s b acc).
  destruct (AXIS_Monitor.lane mon s b acc); [apply IH|done].
Qed.

Lemma word_set_tready mon r s st :
  AXIS_Monitor.word mon (set_tready r s) st = AXIS_Monitor.word mon s st.
Proof.
  unfold AXIS_Monitor.word. rewrite !M_bind_eq. unfold lift at 1 3.
  by rewrite lanes_set_tready.
Qed.

Lemma cycle_passed mon r s st :
  has_tready (AXIS_Monitor.bus mon) = true →
  in_reset s = false →
  (∃ v, int_signal (tvalid s) = Ok v ∧ v ≠ 0%N) →
  (∃ v, int_signal r = Ok v ∧ v ≠ 0%N) →
  AXIS_Monitor.cycle mon (set_tready r s) st
  = AXIS_Monitor.cycle mon (set_tready ["1"] s) st.
Proof.
  intros Hh Hr Hv Hrd.
  rewrite !cycle_transferred, !word_set_tready; [done|..].
  - split_and!; [done..|]. by exists 1%N.
  - by split_and!.
Qed.

Lemma monitor_recv_paced mon l tr st :
  has_tready (AXIS_Monitor.bus mon) = true →
  paced true l tr →
  Forall (λ s, in_reset s = false) tr →
  Forall (λ s, ∃ v, int_signal (tvalid s) = Ok v ∧ v ≠ 0%N) l →
  AXIS_Monitor._monitor_recv mon tr st
  = AXIS_Monitor._monitor_recv mon (set_tready ["1"] <$> l) st.
Proof.
  intros Hh Hp. revert st.
  induction Hp as [|s l l' Hs _ IH|s r l l' _ Hr _ IH|s r l l' Hr _ IH];
    intros st Hres Hl.
  - done.
  - apply Forall_cons in Hres as [Hrs Hres].
    cbn [AXIS_Monitor._monitor_recv]. rewrite cycle_idle; [by apply IH|].
    split; [done|]. left. by rewrite Hs.
  - apply Forall_cons in Hres as [Hrs Hres].
    cbn [AXIS_Monitor._monitor_recv]. rewrite cycle_idle; [by apply IH|].
    split; [done|]. right. apply Forall_cons in Hl as [(v & Hv & _) _].
    split_and!; [by exists v|done..].
  - apply Forall_cons in Hres as [Hrs Hres].
    apply Forall_cons in Hl as [Hv Hl].
    cbn [AXIS_Monitor._monitor_recv fmap list_fmap].
    rewrite cycle_passed by auto.
    destruct (AXIS_Monitor.cycle mon _ st) as [[[]|e] st1]; [|done].
    by apply IH.
Qed.

Lemma word_wires_set_tready self padstr layout last_word r w :
  set_tready r (word_wires self padstr layout last_word w)
  = word_wires self padstr layout last_word (set_tready r w).
Proof.
  unfold word_wires, drive_if.
  by destruct (has_tstrb _), (has_tkeep _), (has_tlast _).
Qed.

Lemma wires_trace_set_tready self padstr (bytestr : list byte) r offsets :
  ∀ w,
  set_tready r <$> wires_trace self padstr bytestr offsets w
  = wires_trace self padstr bytestr offsets (set_tready r w).
Proof.
  induction offsets as [|offset rest IH]; intros w; [done|].
  cbn [wires_trace fmap list_fmap].
  by rewrite <- word_wires_set_tready, <- IH.
Qed.

Lemma wires_trace_tvalid self padstr (bytestr : list byte) offsets : ∀ w,
  Forall (λ s, ∃ v, int_signal (tvalid s) = Ok v ∧ v ≠ 0%N)
    (wires_trace self padstr bytestr offsets w).
Proof.
  induction offsets as [|offset rest IH]; intros w; [constructor|].
  cbn [wires_trace]. apply Forall_cons. split; [|apply IH].
  exists 1%N. split; [|done]. unfold word_wires, drive_if.
  by destruct (has_tstrb _), (has_tkeep _), (has_tlast _).
Qed.

Lemma idle_outputs_in_reset self w :
  in_reset (AXIS_Master._idle_outputs self w) = in_reset w.
Proof.
  unfold AXIS_Master._idle_outputs, drive_if.
  by destruct (len_tdata _), (has_tlast _), (has_tkeep _), (has_tstrb _),
    (len_tid _), (len_tdest _), (len_tuser _).
Qed.

Lemma idle_outputs_tvalid self w :
  tvalid (AXIS_Master._idle_outputs self w) = ["0"].
Proof.
  unfold AXIS_Master._idle_outputs, drive_if.
  by destruct (len_tdata _), (has_tlast _), (has_tkeep _), (has_tstrb _),
    (len_tid _), (len_tdest _), (len_tuser _).
Qed.

(** X9. Driver and monitor on one bus, clock edge by clock edge.  On a
    bus with [tdata], [tkeep], [tlast] and [tready] and none of [tid],
    [tdest], [tuser], out of reset: whenever [_driver_send], with or
    without its [sync] edge, under any valid-gating and any sequence
    of [tready] values, returns from sending a byte sequence longer
    than one word, the monitor that saw the sample points of that run
    has handed exactly one packet to [_recv], with that byte sequence
    as payload, and holds nothing pending. *)
Theorem roundtrip_against_the_clock {G : Type}
    (_next_valids : Clocked.Valids G → Clocked.Valids G)
    (bus : Bus) (lsb_first padZero bytewise sync : bool) (W : nat)
    (bytestr : list byte) (w w1 : Sample) (m : AXIS_Master.t)
    (mon : AXIS_Monitor.t) (v : Clocked.Valids G) (env : list binstr)
    (tr : list Sample) (res : Clocked.Valids G * Sample * list binstr) :
  len_tdata bus = Some (W * 8) →
  has_tkeep bus = true → has_tlast bus = true → has_tready bus = true →
  len_tid bus = None → len_tdest bus = None → len_tuser bus = None →
  in_reset w = false →
  0 < W → W < length bytestr →
  AXIS_Master.__init__ bus lsb_first w = Ok (m, w1) →
  AXIS_Monitor.__init__ bus lsb_first bytewise = Ok mon →
  Clocked._driver_send _next_valids m bytestr sync padZero v w1 env
    = (tr, Clocked.Returned res) →
  AXIS_Monitor._monitor_recv mon tr initial
  = (AXIS_Monitor.Running,
     {| packet_buf := ∅; received := [data_pkt bytestr] |}).
Proof.
  intros Hdata Hkeep Hlast Hready Htid Htdest Htuser Hw HW HS Hm Hmon Hrun.
  pose proof (n_bytes_of_width bus W Hdata) as Hn.
  assert (Hpres : present (len_tdata bus) = true) by by rewrite Hdata.
  unfold AXIS_Master.__init__ in Hm. rewrite Hn in Hm.
  injection Hm as <- <-.
  unfold AXIS_Monitor.__init__ in Hmon. rewrite Hn, Htuser in Hmon.
  injection Hmon as <-.
  change {| AXIS_Master.bus := bus; AXIS_Master._n_bytes := W;
            AXIS_Master._lsb_first := lsb_first |}
    with (master_on bus lsb_first W) in *.
  change {| AXIS_Monitor.bus := bus; AXIS_Monitor._n_bytes := W;
            AXIS_Monitor._tuser_bytewise := false;
            AXIS_Monitor._user_bits := 0;
            AXIS_Monitor._lsb_first := lsb_first |}
    with (monitor_on bus lsb_first W).
  set (m := master_on bus lsb_first W) in *.
  set (w1 := AXIS_Master._idle_outputs m w) in *.
  set (padstr := if padZero then replicate 8 "0" else replicate 8 "X").
  set (offsets := (λ i, i * W) <$> seq 0 ((length bytestr + W - 1) `div` W)).
  assert (Hw1 : in_reset w1 = false)
    by (unfold w1; by rewrite idle_outputs_in_reset).
  destruct (word_count_bounds (length bytestr) W) as (Hq1 & Hq2 & Hq3);
    [lia..|].
  assert (Hoff : Forall (λ off, off < length bytestr) offsets).
  { apply Forall_fmap, Forall_forall. intros i Hi.
    apply elem_of_seq in Hi. cbn. nia. }
  (* the run, taken apart *)
  destruct res as [[v' w'] env']. unfold Clocked._driver_send in Hrun.
  apply coroutine_bind_returned in Hrun
    as (tr0 & [] & env0 & tr1 & Hsync & Hrun & ->).
  apply coroutine_bind_returned in Hrun
    as (tr2 & b0 & env2 & tr3 & Hidx & Hrun & ->).
  apply lift_result_returned in Hidx as (_ & -> & ->).
  unfold Clocked._send_bytes in Hrun.
  apply coroutine_bind_returned in Hrun
    as (tr4 & offs & env4 & tr5 & Hoffs & Hrun & ->).
  apply lift_result_returned in Hoffs as (Hoffs & -> & ->).
  cbn [m master_on AXIS_Master._n_bytes] in Hoffs.
  rewrite range_step_ok in Hoffs by done. injection Hoffs as <-.
  fold offsets padstr in Hrun.
  apply coroutine_bind_returned in Hrun
    as (tr6 & [v6 w6] & env6 & tr7 & Hloop & Hret & ->).
  injection Hret as <- _ _ _.
  apply send_loop_paced in Hloop as (trace & Htrace & Hp & _ & Hres).
  destruct (send_loop_trace m padstr bytestr offsets w1 Hpres Hoff)
    as [w'' Hloop].
  rewrite Hloop in Htrace. injection Htrace as <- _.
  cbn [m master_on AXIS_Master.bus] in Hp. rewrite Hready in Hp.
  (* the sync edge is an idle point *)
  assert (Hfirst : ∀ st,
    AXIS_Monitor._monitor_recv (monitor_on bus lsb_first W)
      (tr0 ++ [] ++ [] ++ tr6 ++ []) st
    = AXIS_Monitor._monitor_recv (monitor_on bus lsb_first W) tr6 st).
  { intros st. cbn [app]. rewrite app_nil_r. destruct sync.
    - apply coroutine_bind_returned in Hsync
        as (t1 & r & e1 & t2 & Hedge & Hret & ->).
      apply rising_edge_returned in Hedge as [-> ->].
      injection Hret as <- _. cbn [app AXIS_Monitor._monitor_recv].
      rewrite cycle_idle; [done|]. split; [done|]. left. cbn [tvalid set_tready].
      unfold w1. by rewrite idle_outputs_tvalid.
    - by injection Hsync as <- _. }
  rewrite Hfirst.
  rewrite (monitor_recv_paced (monitor_on bus lsb_first W) _ _ _ Hready Hp).
  2:{ eapply Forall_impl; [exact Hres|]. intros s ->. done. }
  2:{ apply wires_trace_tvalid. }
  rewrite wires_trace_set_tready.
  change initial with {| packet_buf := pending []; received := [] |}.
  rewrite (monitor_recv_trace bus lsb_first W); try done.
  - unfold offsets. rewrite absorb_offsets by done. reflexivity.
  - by destruct padZero.
  - split; [done|]. by exists 1%N.
Qed.

Lemma send_word_ok self padstr bytestr offset w :
  present (len_tdata (AXIS_Master.bus self)) = true →
  ∃ w', AXIS_Master.send_word self padstr bytestr offset w = Ok w'.
Proof.
  intros Hd. unfold AXIS_Master.send_word. rewrite Hd.
  destruct (bool_decide _), (negb _), (AXIS_Master._lsb_first self);
    by eexists.
Qed.

Lemma ready_points_cons r env :
  ready_points (r :: env)
  = (if is_ready r then 1 else 0) + ready_points env.
Proof.
  unfold ready_points. destruct (is_ready r) eqn:Hr.
  - by rewrite filter_cons_True by by rewrite Hr.
  - by rewrite filter_cons_False by (rewrite Hr; by intros []).
Qed.

Lemma wait_tready_outcome w env : ∀ r,
  Forall resolved (r :: env) →
  match (Clocked.wait_tready w r env).2 with
  | Clocked.Returned (_, env') =>
      ready_points (r :: env) = S (ready_points env') ∧ Forall resolved env'
  | Clocked.Suspended => ready_points (r :: env) = 0
  | Clocked.Raised _ => False
  end.
Proof.
  induction env as [|r' env IH]; intros r [[v Hv] Henv]%Forall_cons;
    rewrite ready_points_cons; unfold is_ready; cbn [Clocked.wait_tready];
    rewrite Hv; destruct (N.eqb v 0); cbn [negb snd]; try done.
  specialize (IH r' Henv).
  destruct (Clocked.wait_tready w r' env) as [tr [[[] env']| |e]];
    cbn [snd] in *; done.
Qed.

Section Progress.
Context {G : Type} (_next_valids : Clocked.Valids G → Clocked.Valids G).
Variables (self : AXIS_Master.t) (padstr : binstr) (bytestr : list byte).
Hypothesis self_tdata : present (len_tdata (AXIS_Master.bus self)) = true.
Hypothesis self_tready : has_tready (AXIS_Master.bus self) = true.

Lemma send_loop_outcome offsets : ∀ v w env,
  Clocked.on v = Clocked.Always →
  Forall resolved env →
  match (Clocked.send_loop _next_valids self padstr bytestr offsets v w env).2
  with
  | Clocked.Returned _ => length offsets ≤ ready_points env
  | Clocked.Suspended => ready_points env < length offsets
  | Clocked.Raised _ => False
  end.
Proof.
  induction offsets as [|offset rest IH]; intros v w env Hv Henv.
  - cbn. lia.
  - cbn [Clocked.send_loop]. unfold Clocked.gate. rewrite Hv.
    cbn [Clocked.is_off]. rewrite coroutine_bind_eq. cbn [mret Clocked.Coroutine_ret].
    unfold Clocked.consume_valid. rewrite Hv.
    destruct (send_word_ok self padstr bytestr offset w self_tdata)
      as [w1 ->].
    rewrite coroutine_bind_eq. cbn [Clocked.lift_result].
    rewrite coroutine_bind_eq. rewrite self_tready.
    destruct env as [|r env]; [cbn; lia|]. cbn [Clocked.RisingEdge].
    rewrite coroutine_bind_eq.
    pose proof (wait_tready_outcome w1 env r Henv) as Hw.
    destruct (Clocked.wait_tready w1 r env) as [tr [[[] env']| |e]];
      cbn [snd length] in Hw |- *; [|lia|done].
    destruct Hw as [-> Henv'].
    specialize (IH v w1 env' Hv Henv').
    destruct (Clocked.send_loop _ _ _ _ rest v w1 env') as [tr' [a| |e]];
      cbn [snd length] in IH |- *; [lia|lia|done].
Qed.

End Progress.

(** X10. When the clocked [_send_bytes] gets through: on a bus with
    [tdata] and [tready], with the valid-gating off and every
    [tready] value resolvable, the run never raises; it returns if the
    sample points to come hold at least one ready point per word, and
    otherwise it is still waiting for [tready] when the clock stops. *)
Theorem clocked_send_bytes_returns {G : Type}
    (_next_valids : Clocked.Valids G → Clocked.Valids G)
    (self : AXIS_Master.t) (bytestr : list byte) (padZero : bool)
    (v : Clocked.Valids G) (w : Sample) (env : list binstr) :
  present (len_tdata (AXIS_Master.bus self)) = true →
  has_tready (AXIS_Master.bus self) = true →
  0 < AXIS_Master._n_bytes self →
  Clocked.on v = Clocked.Always →
  Forall resolved env →
  let words :=
    (length bytestr + AXIS_Master._n_bytes self - 1)
      / AXIS_Master._n_bytes self in
  match (Clocked._send_bytes _next_valids self bytestr padZero v w env).2 with
  | Clocked.Returned _ => words ≤ ready_points env
  | Clocked.Suspended => ready_points env < words
  | Clocked.Raised _ => False
  end.
Proof.
  intros Hd Hr HW Hv Henv words. unfold Clocked._send_bytes.
  rewrite range_step_ok by done. rewrite coroutine_bind_eq.
  cbn [Clocked.lift_result]. rewrite coroutine_bind_eq.
  pose proof (send_loop_outcome _next_valids self
    (if padZero then replicate 8 "0" else replicate 8 "X") bytestr Hd Hr
    ((λ i, i * AXIS_Master._n_bytes self) <$> seq 0 words) v w env Hv Henv)
    as Hl.
  rewrite length_fmap, length_seq in Hl. fold words.
  destruct (Clocked.send_loop _ _ _ _ _ v w env) as [tr [[[v' w'] env']| |e]];
    cbn [snd] in Hl |- *; done.
Qed.

(** ** What the driver raises *)

Lemma coroutine_bind_raised {A B} (m : Clocked.Coroutine A)
    (k : A → Clocked.Coroutine B) env e :
  ((m ≫= k) env).2 = Clocked.Raised e →
  (m env).2 = Clocked.Raised e
  ∨ ∃ tr a env1,
      m env = (tr, Clocked.Returned (a, env1))
      ∧ (k a env1).2 = Clocked.Raised e.
Proof.
  rewrite coroutine_bind_eq.
  destruct (m env) as [tr [[a env1]| |e']]; cbn [snd];
    [|done|intros [= ->]; by left].
  destruct (k a env1) as [tr' o] eqn:Hk. cbn [snd]. intros ->.
  right. exists tr, a, env1. by rewrite Hk.
Qed.

Lemma wait_cycles_never_raises n w : ∀ env e,
  (Clocked.wait_cycles n w env).2 ≠ Clocked.Raised e.
Proof.
  induction n as [|n IH]; intros env e; [done|].
  cbn [Clocked.wait_cycles].
  intros [H|(tr & r & env1 & _ & H)]%coroutine_bind_raised.
  - by destruct env.
  - by apply IH in H.
Qed.

Lemma wait_tready_raised w env : ∀ r e,
  (Clocked.wait_tready w r env).2 = Clocked.Raised e →
  e = ValueError ∧ ∃ r', r' ∈ r :: env ∧ int_signal r' = Raise ValueError.
Proof.
  induction env as [|r' env IH]; intros r e; cbn [Clocked.wait_tready];
    destruct (int_signal r) as [v|e'] eqn:Hr.
  - by destruct (N.eqb v 0).
  - intros [= <-]. pose proof (int_signal_exn _ _ Hr) as ->.
    split; [done|]. exists r. split; [apply list_elem_of_here|done].
  - destruct (N.eqb v 0); [|done].
    destruct (Clocked.wait_tready w r' env) as [tr o] eqn:Hw. cbn [snd].
    intros ->. destruct (IH r' e) as (-> & r'' & Hin & Hv);
      [by rewrite Hw|].
    split; [done|]. exists r''. split; [by apply list_elem_of_further|done].
  - intros [= <-]. pose proof (int_signal_exn _ _ Hr) as ->.
    split; [done|]. exists r. split; [apply list_elem_of_here|done].
Qed.

Lemma wait_tready_rest w env : ∀ r tr u env',
  Clocked.wait_tready w r env = (tr, Clocked.Returned (u, env')) →
  env' ⊆ env.
Proof.
  intros r tr u env' (_ & He & _)%wait_tready_paced.
  cbn in He. injection He as ->. intros x Hx.
  apply elem_of_app. by right.
Qed.

Lemma send_word_raised self padstr bytestr offset w e :
  AXIS_Master.send_word self padstr bytestr offset w = Raise e →
  e = AttributeError ∧ len_tdata (AXIS_Master.bus self) = None.
Proof.
  unfold AXIS_Master.send_word.
  destruct (len_tdata (AXIS_Master.bus self)) eqn:Hd; cbn [present];
    destruct (bool_decide _), (negb _), (AXIS_Master._lsb_first self);
    try done; by intros [= <-].
Qed.

Section Raises.
Context {G : Type} (_next_valids : Clocked.Valids G → Clocked.Valids G).
Variables (self : AXIS_Master.t) (padstr : binstr) (bytestr : list byte).

Lemma gate_raised v w env e :
  (Clocked.gate _next_valids self padstr v w env).2 = Clocked.Raised e →
  e = AttributeError ∧ len_tdata (AXIS_Master.bus self) = None.
Proof.
  unfold Clocked.gate. destruct (Clocked.is_off _); [|done].
  intros [H|(tr & w1 & env1 & _ & H)]%coroutine_bind_raised.
  - destruct (len_tdata (AXIS_Master.bus self)); [done|].
    by injection H as <-.
  - apply coroutine_bind_raised in H as [H|(tr' & [] & env2 & _ & H)];
      [by apply wait_cycles_never_raises in H|done].
Qed.

Lemma send_loop_raised offsets : ∀ v w env e,
  (Clocked.send_loop _next_valids self padstr bytestr offsets v w env).2
    = Clocked.Raised e →
  (e = AttributeError ∧ len_tdata (AXIS_Master.bus self) = None)
  ∨ (e = ValueError ∧ has_tready (AXIS_Master.bus self) = true
     ∧ ∃ r, r ∈ env ∧ int_signal r = Raise ValueError).
Proof.
  induction offsets as [|offset rest IH]; intros v w env e; [done|].
  cbn [Clocked.send_loop].
  intros [H|(tr & [v1 w1] & env1 & Hg & H)]%coroutine_bind_raised;
    [left; by apply gate_raised in H|].
  apply (gate_returned _next_valids self padstr bytestr) in Hg
    as (_ & -> & _ & _).
  apply coroutine_bind_raised in H as [H|(tr2 & w2 & env2 & Hw & H)].
  { left. destruct (AXIS_Master.send_word _ _ _ _ _) eqn:Hs; [done|].
    injection H as <-. by apply send_word_raised in Hs. }
  apply lift_result_returned in Hw as (_ & _ & ->).
  apply coroutine_bind_raised in H as [H|(tr3 & r & env3 & Hedge & H)];
    [by destruct env1|].
  apply rising_edge_returned in Hedge as [-> _].
  apply coroutine_bind_raised in H as [H|(tr4 & [] & env4 & Hwait & H)].
  - destruct (has_tready _); [|done]. right.
    apply wait_tready_raised in H as (-> & r' & Hin & Hr').
    split_and!; [done..|]. exists r'. split; [|done].
    apply elem_of_app. by right.
  - apply IH in H as [H|(-> & Hh & r' & Hin & Hr')]; [by left|right].
    split_and!; [done..|]. exists r'. split; [|done].
    apply elem_of_app. right. apply list_elem_of_further.
    destruct (has_tready _); [|by injection Hwait as _ <-].
    by apply wait_tready_rest in Hwait; apply Hwait.
Qed.

End Raises.

(** X11. What [_driver_send] raises on a [bytes] transaction, under
    any valid-gating and any sequence of [tready] values: an
    [IndexError] only for the empty transaction; an [AttributeError]
    only on a bus without [tdata]; a [ValueError] only when the word
    is zero bytes wide or when a [tready] value it read was not
    resolvable; and nothing else. *)
Theorem driver_send_raises_only {G : Type}
    (_next_valids : Clocked.Valids G → Clocked.Valids G)
    (self : AXIS_Master.t) (transaction : list byte) (sync padZero : bool)
    (v : Clocked.Valids G) (w : Sample) (env : list binstr) (e : exn) :
  (Clocked._driver_send _next_valids self transaction sync padZero v w env).2
    = Clocked.Raised e →
  (e = IndexError ∧ transaction = [])
  ∨ (e = AttributeError ∧ transaction ≠ []
     ∧ len_tdata (AXIS_Master.bus self) = None)
  ∨ (e = ValueError ∧ transaction ≠ []
     ∧ (AXIS_Master._n_bytes self = 0
        ∨ (has_tready (AXIS_Master.bus self) = true
           ∧ ∃ r, r ∈ env ∧ int_signal r = Raise ValueError))).
Proof.
  unfold Clocked._driver_send.
  intros [H|(tr & [] & env1 & Hsync & H)]%coroutine_bind_raised.
  { destruct sync; [|done].
    apply coroutine_bind_raised in H as [H|(tr & r & env1 & _ & H)];
      [by destruct env|done]. }
  assert (Henv : env1 ⊆ env).
  { destruct sync; [|by injection Hsync as _ <-].
    apply coroutine_bind_returned in Hsync
      as (t1 & r & e1 & t2 & Hedge & Hret & _).
    apply rising_edge_returned in Hedge as [-> _].
    injection Hret as _ <-. intros x Hx. by apply list_elem_of_further. }
  apply coroutine_bind_raised in H as [H|(tr2 & b & env2 & Hidx & H)].
  { left. destruct transaction; [|done]. by injection H as <-. }
  apply lift_result_returned in Hidx as (Hidx & _ & ->).
  assert (Hne : transaction ≠ []) by by destruct transaction.
  right. unfold Clocked._send_bytes in H.
  apply coroutine_bind_raised in H as [H|(tr3 & offsets & env3 & Hoffs & H)].
  { right. unfold range_step in H.
    destruct (AXIS_Master._n_bytes self); [|done].
    injection H as <-. split_and!; [done..|by left]. }
  apply lift_result_returned in Hoffs as (_ & _ & ->).
  apply coroutine_bind_raised in H as [H|(tr4 & [v4 w4] & env4 & _ & H)];
    [|done].
  apply send_loop_raised in H as [[-> Hd]|(-> & Hh & r & Hin & Hr)].
  - by left.
  - right. split_and!; [done..|]. right. split; [done|].
    exists r. split; [by apply Henv|done].
Qed.

(** *** Instances for the clocked driver *)

Lemma clocked_send_bytes_is_paced_witness :
  ∃ tr v' w' env' trace,
    Clocked._send_bytes next_valids_of_list master16 payload5 false
      gated_valids idle16 stalling_env
      = (tr, Clocked.Returned ((v', w'), env'))
    ∧ AXIS_Master._send_bytes master16 payload5 false idle16 = Ok (trace, w')
    ∧ paced true trace tr ∧ length trace = 3 ∧ length tr = 9.
Proof.
  assert (Hrun : ∃ tr v' w' env',
    Clocked._send_bytes next_valids_of_list master16 payload5 false
      gated_valids idle16 stalling_env
      = (tr, Clocked.Returned ((v', w'), env')) ∧ length tr = 9).
  { do 4 eexists. split; [vm_compute; reflexivity|reflexivity]. }
  destruct Hrun as (tr & v' & w' & env' & Hrun & Hlen).
  destruct (clocked_send_bytes_is_paced _ _ _ _ _ _ _ _ _ _ _ Hrun)
    as (trace & Hsend & Hp & _).
  exists tr, v', w', env', trace. split_and!; [done..| |done].
  assert (Hs : ∃ t w2, AXIS_Master._send_bytes master16 payload5 false idle16
                       = Ok (t, w2) ∧ length t = 3).
  { do 2 eexists. split; [vm_compute; reflexivity|reflexivity]. }
  destruct Hs as (t & w2 & Hs & Ht). rewrite Hs in Hsend.
  by injection Hsend as <- _.
Defined.

Lemma roundtrip_against_the_clock_witness :
  len_tdata bus16 = Some (2 * 8)
  ∧ in_reset quiet_wires = false
  ∧ 2 < length payload5
  ∧ AXIS_Master.__init__ bus16 true quiet_wires = Ok (master16, idle16)
  ∧ AXIS_Monitor.__init__ bus16 true false = Ok mon16
  ∧ (∃ res, gated_run = (gated_run.1, Clocked.Returned res))
  ∧ length gated_run.1 = 9
  ∧ AXIS_Monitor._monitor_recv mon16 gated_run.1 initial
    = (AXIS_Monitor.Running,
       {| packet_buf := ∅; received := [data_pkt payload5] |}).
Proof.
  assert (Hrun : ∃ res, gated_run = (gated_run.1, Clocked.Returned res)).
  { eexists. vm_compute. reflexivity. }
  split_and!; [reflexivity|reflexivity|cbn; lia|reflexivity|reflexivity|
               exact Hrun|reflexivity|].
  destruct Hrun as [res Hrun].
  exact (roundtrip_against_the_clock next_valids_of_list bus16 true false
           false true 2 payload5 quiet_wires idle16 master16 mon16
           gated_valids stalling_env gated_run.1 res
           eq_refl eq_refl eq_refl eq_refl eq_refl eq_refl eq_refl eq_refl
           ltac:(lia) ltac:(cbn; lia) eq_refl eq_refl Hrun).
Defined.

Lemma clocked_send_bytes_returns_witness :
  present (len_tdata (AXIS_Master.bus master16)) = true
  ∧ has_tready (AXIS_Master.bus master16) = true
  ∧ 0 < AXIS_Master._n_bytes master16
  ∧ Clocked.on always_valid = Clocked.Always
  ∧ Forall resolved stalling_env
  ∧ match (Clocked._send_bytes next_valids_of_list master16 payload5 false
             always_valid idle16 stalling_env).2 with
    | Clocked.Returned _ => 3 ≤ ready_points stalling_env
    | Clocked.Suspended => ready_points stalling_env < 3
    | Clocked.Raised _ => False
    end.
Proof.
  assert (Henv : Forall resolved stalling_env).
  { repeat first [apply Forall_nil_2 | apply Forall_cons_2];
      by eexists. }
  split_and!; [reflexivity|reflexivity|cbn; lia|reflexivity|exact Henv|].
  exact (clocked_send_bytes_returns next_valids_of_list master16 payload5
           false always_valid idle16 stalling_env eq_refl eq_refl
           ltac:(cbn; lia) eq_refl Henv).
Defined.

Lemma driver_send_raises_only_witness :
  (Clocked._driver_send next_valids_of_list master16 [] true false
     gated_valids idle16 stalling_env).2 = Clocked.Raised IndexError
  ∧ ((IndexError = IndexError ∧ @nil byte = [])
     ∨ (IndexError = AttributeError ∧ @nil byte ≠ []
        ∧ len_tdata (AXIS_Master.bus master16) = None)
     ∨ (IndexError = ValueError ∧ @nil byte ≠ []
        ∧ (AXIS_Master._n_bytes master16 = 0
           ∨ (has_tready (AXIS_Master.bus master16) = true
              ∧ ∃ r, r ∈ stalling_env ∧ int_signal r = Raise ValueError)))).
Proof.
  split; [reflexivity|].
  exact (driver_send_raises_only next_valids_of_list master16 [] true false
           gated_valids idle16 stalling_env IndexError eq_refl).
Defined.

(** ** What the lane loop hands on *)

Lemma int2_digits_bound s : ∀ acc v,
  int2_digits s acc = Ok v → (v < (acc + 1) * 2 ^ N.of_nat (length s))%N.
Proof.
  induction s as [|c s IH]; intros acc v; cbn [int2_digits length].
  - intros [= <-]. cbn. lia.
  - rewrite Nat2N.inj_succ, N.pow_succ_r'.
    destruct (Ascii.eqb c "0"); [|destruct (Ascii.eqb c "1"); [|done]];
      intros H%IH; nia.
Qed.

Lemma int2_bound s v : int2 s = Ok v → (v < 2 ^ N.of_nat (length s))%N.
Proof.
  destruct s as [|c s]; [done|]. intros H%int2_digits_bound. lia.
Qed.

Lemma resolve_length s r : resolve s = Ok r → length r = length s.
Proof.
  unfold resolve. destruct (existsb _ _); [done|].
  intros [= <-]. apply length_map.
Qed.

Lemma data_byte_bound (data : binstr) b r v :
  resolve (slice data (b * 8) ((b + 1) * 8)) = Ok r → int2 r = Ok v →
  (v < 256)%N.
Proof.
  intros Hr Hv. apply int2_bound in Hv. apply resolve_length in Hr.
  assert (length r ≤ 8) by (rewrite Hr; unfold slice; rewrite length_take; lia).
  assert (2 ^ N.of_nat (length r) ≤ 2 ^ 8)%N
    by (apply N.pow_le_mono_r; lia).
  change (2 ^ 8)%N with 256%N in *. lia.
Qed.

Lemma bytes_of_small l :
  Forall (λ v, (v < 256)%N) l → ∃ c, bytes l = Ok c ∧ length c = length l.
Proof.
  induction 1 as [|v l Hv _ (c & Hc & Hlen)]; [by exists []|].
  cbn [bytes]. destruct (Byte.of_N v) as [b|] eqn:Hb.
  - rewrite Hc. exists (b :: c). cbn. by rewrite Hlen.
  - apply Byte.of_N_None_iff in Hb. lia.
Qed.

Section LaneLoop.
Variables (self : AXIS_Monitor.t) (s : Sample).

Lemma lane_adds b fd0 fu0 fd fu :
  AXIS_Monitor.lane self s b (fd0, fu0) = Ok (fd, fu) →
  ∃ n, n ≤ 1 ∧ lanes_add self n fd0 fu0 fd fu.
Proof.
  unfold AXIS_Monitor.lane, lanes_add, bytewise.
  set (bw := AXIS_Monitor.has_tuser self && AXIS_Monitor._tuser_bytewise self).
  destruct (AXIS_Monitor.byte_type self s b) as [bt|e]; [|done].
  cbn [mbind result_bind].
  case_bool_decide as H11;
    [|case_bool_decide as H10; [|case_bool_decide as H01]].
  - destruct (AXIS_Monitor.has_tdata self).
    + destruct (resolve (slice (tdata s) _ _)) as [r|] eqn:Hr;
        cbn [mbind result_bind]; [|done].
      destruct (int2 r) as [v|] eqn:Hv; cbn [mbind result_bind]; [|done].
      pose proof (data_byte_bound _ _ _ _ Hr Hv) as Hb.
      destruct bw.
      * destruct (resolve (slice (tuser s) _ _)) as [r'|];
          cbn [mbind result_bind]; [|done].
        destruct (int2 r') as [v'|]; cbn [mbind result_bind]; [|done].
        intros [= <- <-]. exists 1. split; [done|].
        exists [v], [v']. split_and!; try done. by apply Forall_singleton.
      * intros [= <- <-]. exists 1. split; [done|]. exists [v], [].
        rewrite app_nil_r. split_and!; try done. by apply Forall_singleton.
    + cbn [mbind result_bind]. destruct bw.
      * destruct (resolve (slice (tuser s) _ _)) as [r'|];
          cbn [mbind result_bind]; [|done].
        destruct (int2 r') as [v'|]; cbn [mbind result_bind]; [|done].
        intros [= <- <-]. exists 1. split; [done|].
        exists [], [v']. rewrite app_nil_r. by split_and!.
      * intros [= <- <-]. exists 1. split; [done|]. exists [], [].
        rewrite !app_nil_r. by split_and!.
  - intros [= <- <-]. exists 1. split; [done|].
    exists (if AXIS_Monitor.has_tdata self then [0%N] else []),
      (if bw then [0%N] else []).
    destruct (AXIS_Monitor.has_tdata self), bw;
      rewrite ?app_nil_r; split_and!; try done;
      by apply Forall_singleton.
  - done.
  - intros [= <- <-]. exists 0. split; [lia|]. exists [], [].
    rewrite !app_nil_r. split_and!; try done;
      by destruct (AXIS_Monitor.has_tdata self), bw.
Qed.

Lemma lanes_add_trans n1 n2 fd0 fu0 fd1 fu1 fd fu :
  lanes_add self n1 fd0 fu0 fd1 fu1 → lanes_add self n2 fd1 fu1 fd fu →
  lanes_add self (n1 + n2) fd0 fu0 fd fu.
Proof.
  intros (d1 & u1 & -> & -> & Hb1 & Hd1 & Hu1)
         (d2 & u2 & -> & -> & Hb2 & Hd2 & Hu2).
  exists (d1 ++ d2), (u1 ++ u2). rewrite !app_assoc, !length_app, Hd1, Hd2, Hu1, Hu2.
  split_and!; try done.
  - by apply Forall_app.
  - by destruct (AXIS_Monitor.has_tdata self).
  - by destruct (bytewise self).
Qed.

Lemma lanes_adds rng : ∀ fd0 fu0 fd fu,
  AXIS_Monitor.lanes self s rng (fd0, fu0) = Ok (fd, fu) →
  ∃ n, n ≤ length rng ∧ lanes_add self n fd0 fu0 fd fu.
Proof.
  induction rng as [|b rng IH]; intros fd0 fu0 fd fu; cbn [AXIS_Monitor.lanes].
  - intros [= <- <-]. exists 0. split; [done|]. exists [], [].
    rewrite !app_nil_r. split_and!; try done;
      by destruct (AXIS_Monitor.has_tdata self), (bytewise self).
  - destruct (AXIS_Monitor.lane self s b (fd0, fu0)) as [[fd1 fu1]|] eqn:Hl;
      [|done].
    cbn [mbind result_bind]. intros (n2 & Hn2 & H2)%IH.
    apply lane_adds in Hl as (n1 & Hn1 & H1).
    exists (n1 + n2). split; [cbn; lia|]. by eapply lanes_add_trans.
Qed.

End LaneLoop.

(** X13. What the lane loop hands on.  When the loop over the lanes of
    a word ends without an exception, it has taken some number [n] of
    Data and Position lanes, at most one per lane of the bus; the data
    list holds [n] values (none without [tdata]), each below 256, so
    that [bytes(filtered_data)] cannot raise; and the user list holds
    [n] values in byte-wise mode and none otherwise. *)
Theorem lane_loop_output (self : AXIS_Monitor.t) (s : Sample)
    (fd fu : list N) :
  AXIS_Monitor.lanes self s (AXIS_Monitor.byte_range self) ([], [])
    = Ok (fd, fu) →
  ∃ n,
    n ≤ AXIS_Monitor._n_bytes self
    ∧ length fd = (if AXIS_Monitor.has_tdata self then n else 0)
    ∧ length fu = (if bytewise self then n else 0)
    ∧ ∃ c, bytes fd = Ok c ∧ length c = length fd.
Proof.
  intros (n & Hn & d & u & -> & -> & Hb & Hd & Hu)%lanes_adds.
  exists n. split_and!; [|done..|by apply bytes_of_small].
  unfold AXIS_Monitor.byte_range in Hn.
  destruct (AXIS_Monitor._lsb_first self);
    by rewrite ?length_reverse, length_seq in Hn.
Qed.

Lemma lane_loop_output_witness :
  AXIS_Monitor.lanes mon16_user user_last
    (AXIS_Monitor.byte_range mon16_user) ([], []) = Ok ([51%N], [3%N])
  ∧ ∃ n,
      n ≤ AXIS_Monitor._n_bytes mon16_user
      ∧ length [51%N] = (if AXIS_Monitor.has_tdata mon16_user then n else 0)
      ∧ length [3%N] = (if bytewise mon16_user then n else 0)
      ∧ ∃ c, bytes [51%N] = Ok c ∧ length c = length [51%N].
Proof.
  split; [reflexivity|].
  exact (lane_loop_output mon16_user user_last [51%N] [3%N] eq_refl).
Defined.

(** ** Data and user values stay in step *)

Section Aligned.
Variables (self : AXIS_Monitor.t) (s : Sample).
Hypothesis self_tdata : AXIS_Monitor.has_tdata self = true.
Hypothesis self_tuser : AXIS_Monitor.has_tuser self = true.
Hypothesis self_bytewise : AXIS_Monitor._tuser_bytewise self = true.

Variables (k : StreamKey) (fd fu : list N) (c : list byte).
Hypothesis fd_bytes : bytes fd = Ok c.
Hypothesis c_length : length c = length fd.
Hypothesis fu_length : length fu = length fd.

Lemma aligned_insert buf r e :
  aligned {| packet_buf := buf; received := r |} → aligned_entry e →
  aligned {| packet_buf := <[k := e]> buf; received := r |}.
Proof. intros [Hb Hr] He. split; [by apply map_Forall_insert_2|done]. Qed.

Lemma complete_aligned st res st' :
  aligned st →
  try_except_KeyError
    (AXIS_Monitor.complete self s k fd fu)
    (AXIS_Monitor.complete_unbuffered self s fd fu) st = (res, st') →
  aligned st'.
Proof.
  intros Hst. destruct (packet_buf st !! k) as [e|] eqn:Hk.
  2:{ intros H. by rewrite (complete_without_pending _ _ _ _ _ _ _ _
                              self_tdata Hk H). }
  destruct Hst as [Hbuf Hrecv].
  destruct (Hbuf k e Hk) as (d & u & -> & Hu).
  destruct st as [buf r]. cbn [packet_buf received] in *.
  unfold try_except_KeyError, AXIS_Monitor.complete, getitem, getitem_data,
    getitem_user, delitem.
  rewrite self_tdata, self_tuser, self_bytewise. msimpl.
  rewrite Hk. msimpl. rewrite fd_bytes. msimpl. rewrite Hk. msimpl.
  assert (Hdone : ∀ p,
    pkt_data p = Some (concat d ++ c) →
    pkt_user p = Some (UserBytewise (u ++ fu)) →
    aligned {| packet_buf := delete k buf; received := r ++ [p] |}).
  { intros p Hpd Hpu. split; cbn [packet_buf received].
    - by apply map_Forall_delete.
    - apply Forall_app. split; [done|]. apply Forall_singleton.
      exists (concat d ++ c), (u ++ fu). split_and!; [done..|].
      rewrite !length_app. lia. }
  destruct (AXIS_Monitor.has_tid self); msimpl;
    [destruct (int_signal (tid s)) eqn:Hi; msimpl;
     [|apply int_signal_exn in Hi as ->; by intros [= _ <-]]|];
    (destruct (AXIS_Monitor.has_tdest self); msimpl;
     [destruct (int_signal (tdest s)) eqn:Hj; msimpl;
      [|apply int_signal_exn in Hj as ->; by intros [= _ <-]]|]);
    rewrite ?Hk; msimpl; intros [= _ <-]; by apply Hdone.
Qed.

Lemma extend_aligned st res st' :
  aligned st →
  try_except_KeyError
    (AXIS_Monitor.extend self k fd fu)
    (AXIS_Monitor.create self k fd fu) st = (res, st') →
  aligned st'.
Proof.
  intros Hst. destruct st as [buf r].
  unfold try_except_KeyError, AXIS_Monitor.extend, AXIS_Monitor.create,
    getitem, getitem_data, getitem_user, setitem.
  rewrite self_tdata, self_tuser, self_bytewise. msimpl.
  destruct (buf !! k) as [e|] eqn:Hk; msimpl.
  - destruct Hst as [Hbuf Hrecv]. cbn [packet_buf received] in *.
    destruct (Hbuf k e Hk) as (d & u & -> & Hu). msimpl.
    rewrite fd_bytes. msimpl. rewrite lookup_insert_eq. msimpl.
    intros [= _ <-]. rewrite insert_insert_eq.
    apply aligned_insert; [done|].
    exists (d ++ [c]), (u ++ fu). split; [done|].
    rewrite concat_app, !length_app. cbn. rewrite app_nil_r. lia.
  - rewrite fd_bytes. msimpl. intros [= _ <-]. rewrite !insert_insert_eq.
    apply aligned_insert; [done|].
    exists [c], fu. split; [done|]. cbn. rewrite app_nil_r. lia.
Qed.

End Aligned.

Lemma word_aligned self s st res st' :
  AXIS_Monitor.has_tdata self = true →
  AXIS_Monitor.has_tuser self = true →
  AXIS_Monitor._tuser_bytewise self = true →
  aligned st →
  AXIS_Monitor.word self s st = (res, st') → aligned st'.
Proof.
  intros Hd Hu Hw Hst. unfold AXIS_Monitor.word. rewrite M_bind_eq.
  unfold lift at 1.
  destruct (AXIS_Monitor.lanes _ _ _ _) as [[fd fu]|e] eqn:Hl;
    [|by intros [= _ <-]].
  apply lanes_adds in Hl as (n & _ & d & u & Hfd & Hfu & Hb & Hld & Hlu).
  cbn [app] in Hfd, Hfu. subst fd fu.
  unfold bytewise in Hlu. rewrite Hd in Hld. rewrite Hu, Hw in Hlu.
  cbn in Hlu. destruct (bytes_of_small _ Hb) as (c & Hc & Hlc).
  cbn iota beta. rewrite M_bind_eq.
  assert (Hstep : ∀ k (l : bool) res st',
    (if l then
       try_except_KeyError (AXIS_Monitor.complete self s k d u)
         (AXIS_Monitor.complete_unbuffered self s d u)
     else
       try_except_KeyError (AXIS_Monitor.extend self k d u)
         (AXIS_Monitor.create self k d u)) st = (res, st') →
    aligned st').
  { intros k [] res0 st0.
    - by apply (complete_aligned self s Hd Hu Hw k d u c); try lia.
    - by apply (extend_aligned self Hd Hu Hw k d u c); try lia. }
  assert (Hlast : ∀ k res st',
    ((if has_tlast (AXIS_Monitor.bus self)
      then v ← lift (int_signal (tlast s)); mret (negb (N.eqb v 0))
      else mret true) ≫= λ is_last : bool,
       if is_last then
         try_except_KeyError (AXIS_Monitor.complete self s k d u)
           (AXIS_Monitor.complete_unbuffered self s d u)
       else
         try_except_KeyError (AXIS_Monitor.extend self k d u)
           (AXIS_Monitor.create self k d u)) st = (res, st') →
    aligned st').
  { intros k res0 st0. rewrite M_bind_eq.
    destruct (has_tlast _).
    - rewrite M_bind_eq. unfold lift at 1.
      destruct (int_signal (tlast s)); [|by intros [= _ <-]].
      cbn [mret M_ret]. apply Hstep.
    - cbn [mret M_ret]. apply (Hstep k true). }
  destruct (AXIS_Monitor.has_tid self).
  - rewrite M_bind_eq. unfold lift at 1.
    destruct (int_signal (tid s)) as [vi|e]; [|by intros [= _ <-]].
    cbn [mret M_ret]. rewrite M_bind_eq.
    destruct (AXIS_Monitor.has_tdest self).
    + rewrite M_bind_eq. unfold lift at 1.
      destruct (int_signal (tdest s)) as [vd|e]; [|by intros [= _ <-]].
      cbn [mret M_ret]. apply Hlast.
    + cbn [mret M_ret]. apply Hlast.
  - cbn [mret M_ret]. rewrite M_bind_eq.
    destruct (AXIS_Monitor.has_tdest self).
    + rewrite M_bind_eq. unfold lift at 1.
      destruct (int_signal (tdest s)) as [vd|e]; [|by intros [= _ <-]].
      cbn [mret M_ret]. apply Hlast.
    + cbn [mret M_ret]. apply Hlast.
Qed.

Lemma cycle_aligned self s st res st' :
  AXIS_Monitor.has_tdata self = true →
  AXIS_Monitor.has_tuser self = true →
  AXIS_Monitor._tuser_bytewise self = true →
  aligned st →
  AXIS_Monitor.cycle self s st = (res, st') → aligned st'.
Proof.
  intros Hd Hu Hw Hst. unfold AXIS_Monitor.cycle.
  destruct (in_reset s).
  - rewrite M_bind_eq. cbn. case_bool_decide; intros [= _ <-]; [|done].
    split; [apply map_Forall_empty|apply Hst].
  - rewrite M_bind_eq. unfold lift at 1.
    destruct (int_signal (tvalid s)) as [v|e]; [|by intros [= _ <-]].
    cbn iota beta. destruct (N.eqb v 0); [by intros [= _ <-]|].
    rewrite M_bind_eq. unfold lift at 1.
    destruct (if has_tready (AXIS_Monitor.bus self) then _ else _) as [r|e];
      [|by intros [= _ <-]].
    cbn iota beta. destruct (N.eqb r 0); [by intros [= _ <-]|].
    by apply word_aligned.
Qed.

(** X14. In byte-wise mode data and user values stay in step.  For a
    monitor with [tdata] and a byte-wise [tuser], whatever the sample
    points and however the loop ends: every packet handed to [_recv]
    carries exactly one user value per payload byte, and every pending
    entry holds exactly one user value per byte it holds; no entry is
    ever left with its data and without its user list. *)
Theorem user_stays_aligned (self : AXIS_Monitor.t) (samples : list Sample)
    (st : State) :
  AXIS_Monitor.has_tdata self = true →
  AXIS_Monitor.has_tuser self = true →
  AXIS_Monitor._tuser_bytewise self = true →
  aligned st →
  aligned (AXIS_Monitor._monitor_recv self samples st).2.
Proof.
  intros Hd Hu Hw. revert st.
  induction samples as [|s l IH]; intros st Hst; [done|].
  cbn [AXIS_Monitor._monitor_recv].
  destruct (AXIS_Monitor.cycle self s st) as [[[]|e] st1] eqn:Hc;
    pose proof (cycle_aligned _ _ _ _ _ Hd Hu Hw Hst Hc) as Hst1;
    [by apply IH|done].
Qed.

Lemma user_stays_aligned_witness :
  AXIS_Monitor.has_tdata mon16_user = true
  ∧ AXIS_Monitor.has_tuser mon16_user = true
  ∧ AXIS_Monitor._tuser_bytewise mon16_user = true
  ∧ aligned initial
  ∧ AXIS_Monitor._monitor_recv mon16_user [user_first; user_last] initial
    = (AXIS_Monitor.Running,
       {| packet_buf := ∅;
          received :=
            [set_pkt_user (UserBytewise [1; 2; 3]%N)
               (set_pkt_data [x11; x22; x33]%byte empty_pkt)] |})
  ∧ aligned
      (AXIS_Monitor._monitor_recv mon16_user [user_first; user_last]
         initial).2.
Proof.
  assert (H0 : aligned initial) by (split; [apply map_Forall_empty|done]).
  split_and!; [reflexivity|reflexivity|reflexivity|exact H0|
               vm_compute; reflexivity|].
  exact (user_stays_aligned mon16_user [user_first; user_last] initial
           eq_refl eq_refl eq_refl H0).
Defined.

(** ** Driver and monitor that disagree on [lsb_first] *)

(** X15. The two [lsb_first] settings against each other.  On a bus
    with [tdata] and [tkeep] and without [tuser], the lane loop of a
    monitor reads from a word driven by [_send_bytes] the bytes of that
    word's chunk, padding left out: in their order when driver and
    monitor agree on [lsb_first], and in reverse order when they do
    not. *)
Theorem lsb_first_must_agree (bus : Bus) (driver_lsb monitor_lsb : bool)
    (W : nat) (padstr : binstr) (bytestr : list byte) (offset : nat)
    (w : Sample) :
  present (len_tdata bus) = true → has_tkeep bus = true →
  len_tuser bus = None →
  length padstr = 8 → offset < length bytestr →
  let chunk := slice bytestr offset (offset + W) in
  let mon := monitor_on bus monitor_lsb W in
  ∃ s,
    AXIS_Master.send_word (master_on bus driver_lsb W) padstr bytestr offset w
      = Ok s
    ∧ AXIS_Monitor.lanes mon s (AXIS_Monitor.byte_range mon) ([], [])
      = Ok (Byte.to_N <$> (if Bool.eqb driver_lsb monitor_lsb then chunk
                           else reverse chunk), []).
Proof.
  intros Hd Hk Hu Hp Hoff chunk mon.
  assert (Hc : length chunk ≤ W)
    by (unfold chunk, slice; rewrite length_take; lia).
  eexists. split; [by apply send_word_wires|].
  cbn [master_on AXIS_Master._lsb_first AXIS_Master._n_bytes]. fold chunk.
  set (last_word := if bool_decide _ then _ else _).
  rewrite (lanes_word mon _ (word_layout driver_lsb W chunk) padstr).
  - cbn [mon monitor_on AXIS_Monitor._lsb_first]. f_equal. f_equal.
    destruct driver_lsb, monitor_lsb; cbn [Bool.eqb].
    + by rewrite (word_layout_order true), payload_of_chunk.
    + unfold word_layout. rewrite bind_app.
      replace (replicate (W - length chunk) None ≫= payload_of)
        with (@nil N) by (by induction (W - length chunk) as [|p IH]).
      cbn [app]. generalize (reverse chunk) as l.
      induction l as [|v l IH]; cbn; [done|]. by rewrite <- IH.
    + unfold word_layout. rewrite reverse_app, reverse_replicate, bind_app.
      replace (replicate (W - length chunk) None ≫= payload_of)
        with (@nil N) by (by induction (W - length chunk) as [|p IH]).
      cbn [app]. rewrite <- fmap_reverse. generalize (reverse chunk) as l.
      induction l as [|v l IH]; cbn; [done|]. by rewrite <- IH.
    + by rewrite (word_layout_order false), payload_of_chunk.
  - unfold AXIS_Monitor.tkeep_of, word_wires, drive_if. cbn.
    rewrite Hk. by destruct (has_tstrb bus).
  - unfold AXIS_Monitor.tstrb_of, AXIS_Monitor.tkeep_of, word_wires,
      drive_if. cbn. rewrite Hk. by destruct (has_tstrb bus).
  - unfold word_wires, drive_if. cbn.
    by destruct (has_tstrb bus), (has_tkeep bus).
  - done.
  - done.
  - unfold AXIS_Monitor.has_tuser. cbn. by rewrite Hu.
  - by apply word_layout_length.
Qed.

Lemma lsb_first_must_agree_witness :
  present (len_tdata bus32) = true ∧ has_tkeep bus32 = true
  ∧ len_tuser bus32 = None ∧ length (replicate 8 "X") = 8
  ∧ 0 < length payload5
  ∧ ∃ s,
      AXIS_Master.send_word (master_on bus32 true 4) (replicate 8 "X")
        payload5 0 quiet_wires = Ok s
      ∧ AXIS_Monitor.lanes (monitor_on bus32 false 4) s
          (AXIS_Monitor.byte_range (monitor_on bus32 false 4)) ([], [])
        = Ok (Byte.to_N <$> [x44; x33; x22; x11]%byte, []).
Proof.
  split_and!; [reflexivity|reflexivity|reflexivity|reflexivity|cbn; lia|].
  exact (lsb_first_must_agree bus32 true false 4 (replicate 8 "X") payload5 0
           quiet_wires eq_refl eq_refl eq_refl eq_refl ltac:(cbn; lia)).
Defined.

(** ** Packets are handed over one at a time *)

Lemma ho_ret {A} (a : A) : hands_over 0 (mret a).
Proof. intros st res st' [= _ <-]. exists []. by rewrite app_nil_r. Qed.

Lemma ho_lift {A} (r : result A) : hands_over 0 (lift r).
Proof. intros st res st' [= _ <-]. exists []. by rewrite app_nil_r. Qed.

Lemma ho_get_buf : hands_over 0 get_buf.
Proof. intros st res st' [= _ <-]. exists []. by rewrite app_nil_r. Qed.

Lemma ho_put_buf buf : hands_over 0 (put_buf buf).
Proof. intros st res st' [= _ <-]. exists []. by rewrite app_nil_r. Qed.

Lemma ho_recv p : hands_over 1 (_recv p).
Proof. intros st res st' [= _ <-]. by exists [p]. Qed.

Lemma ho_bind {A B} n1 n2 (m : M A) (k : A → M B) :
  hands_over n1 m → (∀ a, hands_over n2 (k a)) →
  hands_over (n1 + n2) (m ≫= k).
Proof.
  intros Hm Hk st res st'. rewrite M_bind_eq.
  destruct (m st) as [[a|e] st1] eqn:E.
  - intros H2. apply Hm in E as (new1 & E1 & L1).
    apply Hk in H2 as (new2 & E2 & L2).
    exists (new1 ++ new2). rewrite E2, E1, app_assoc, length_app.
    split; [done|lia].
  - intros [= _ <-]. apply Hm in E as (new1 & E1 & L1).
    exists new1. split; [done|lia].
Qed.

Lemma ho_try {A} n (body handler : M A) :
  hands_over n body → hands_over 0 handler →
  hands_over n (try_except_KeyError body handler).
Proof.
  intros Hb Hh st res st'. unfold try_except_KeyError.
  destruct (body st) as [[a|e] st1] eqn:E.
  - intros [= _ <-]. by apply Hb in E.
  - apply Hb in E as (new1 & E1 & L1).
    assert (Hkeep : (Raise e, st1) = (res, st') →
      ∃ new, received st' = received st ++ new ∧ length new ≤ n)
      by (intros [= _ <-]; by exists new1).
    destruct e; try exact Hkeep.
    intros (new2 & E2 & L2)%Hh. exists new1.
    destruct new2; [|cbn in L2; lia].
    rewrite E2, E1, app_nil_r. done.
Qed.

Ltac ho_step :=
  match goal with
  | |- hands_over 0 (_ ≫= _) => apply (ho_bind 0 0); [|intros]
  | |- hands_over 0 (try_except_KeyError _ _) => apply ho_try
  | |- hands_over _ (if ?c then _ else _) => destruct c
  | |- hands_over _ (match ?x with _ => _ end) => destruct x
  | |- hands_over 0 (mret _) => apply ho_ret
  | |- hands_over 0 get_buf => apply ho_get_buf
  | |- hands_over 0 (put_buf _) => apply ho_put_buf
  | |- hands_over 0 (lift _) => apply ho_lift
  end.

Lemma ho_complete self s k fd fu :
  hands_over 1 (AXIS_Monitor.complete self s k fd fu).
Proof.
  unfold AXIS_Monitor.complete, AXIS_Monitor.user_of_word, getitem,
    getitem_data, getitem_user, delitem.
  do 4 (apply (ho_bind 0 1); [repeat ho_step|intros]).
  apply (ho_bind 1 0); [apply ho_recv|intros]. repeat ho_step.
Qed.

Lemma ho_weaken {A} n n' (m : M A) :
  n ≤ n' → hands_over n m → hands_over n' m.
Proof.
  intros Hn Hm st res st' (new & E & L)%Hm. exists new. split; [done|lia].
Qed.

Lemma ho_word self s : hands_over 1 (AXIS_Monitor.word self s).
Proof.
  unfold AXIS_Monitor.word.
  apply (ho_bind 0 1); [apply ho_lift|intros [fd fu]].
  apply (ho_bind 0 1); [repeat ho_step|intros id].
  apply (ho_bind 0 1); [repeat ho_step|intros dest].
  apply (ho_bind 0 1); [repeat ho_step|intros [|]].
  - apply ho_try; [apply ho_complete|].
    unfold AXIS_Monitor.complete_unbuffered, AXIS_Monitor.user_of_word.
    repeat ho_step.
  - apply (ho_weaken 0); [lia|].
    unfold AXIS_Monitor.extend, AXIS_Monitor.create, getitem, getitem_data,
      getitem_user, setitem.
    repeat ho_step.
Qed.

Lemma ho_cycle self s : hands_over 1 (AXIS_Monitor.cycle self s).
Proof.
  unfold AXIS_Monitor.cycle. destruct (in_reset s).
  - apply (ho_weaken 0); [lia|]. repeat ho_step.
  - apply (ho_bind 0 1); [apply ho_lift|intros valid].
    destruct (N.eqb valid 0); [apply (ho_weaken 0); [lia|apply ho_ret]|].
    apply (ho_bind 0 1); [apply ho_lift|intros ready].
    destruct (N.eqb ready 0); [apply (ho_weaken 0); [lia|apply ho_ret]|].
    apply ho_word.
Qed.

(** X16. Packets are handed over one at a time and never taken back:
    whatever the sample points and however the loop ends, the packets
    received after a run are those received before it, in their order,
    followed by at most one new packet per sample point. *)
Theorem packets_one_at_a_time (self : AXIS_Monitor.t)
    (samples : list Sample) (st : State) :
  ∃ new,
    received (AXIS_Monitor._monitor_recv self samples st).2
    = received st ++ new
    ∧ length new ≤ length samples.
Proof.
  revert st. induction samples as [|s l IH]; intros st.
  - exists []. by rewrite app_nil_r.
  - cbn [AXIS_Monitor._monitor_recv length].
    destruct (AXIS_Monitor.cycle self s st) as [[[]|e] st1] eqn:E;
      apply ho_cycle in E as (new1 & E1 & L1).
    + destruct (IH st1) as (new2 & E2 & L2). exists (new1 ++ new2).
      rewrite E2, E1, app_assoc, length_app. split; [done|lia].
    + exists new1. split; [done|lia].
Qed.

(** ** A packet in flight *)

Lemma wires_trace_take self padstr (bytestr : list byte) j offsets : ∀ w,
  take j (wires_trace self padstr bytestr offsets w)
  = wires_trace self padstr bytestr (take j offsets) w.
Proof.
  revert j. induction offsets as [|offset rest IH]; intros j w.
  - by destruct j.
  - destruct j as [|j]; [done|]. cbn [wires_trace take]. by rewrite IH.
Qed.

(** X17. A packet in flight.  On the bus of the round trip, after any
    [j] of the words of a byte sequence but not all of them, and
    however many idle sample points in between, the monitor has handed
    nothing to [_recv], keeps running, and holds pending exactly the
    [j] chunks transferred so far, in order. *)
Theorem nothing_before_the_last_word (bus : Bus)
    (lsb_first padZero bytewise : bool) (W : nat) (bytestr : list byte)
    (w : Sample) :
  len_tdata bus = Some (W * 8) →
  has_tkeep bus = true → has_tlast bus = true → has_tready bus = true →
  len_tid bus = None → len_tdest bus = None → len_tuser bus = None →
  wires_ok w →
  0 < W →
  ∃ m w1 trace w2 mon,
    AXIS_Master.__init__ bus lsb_first w = Ok (m, w1)
    ∧ AXIS_Master._send_bytes m bytestr padZero w1 = Ok (trace, w2)
    ∧ AXIS_Monitor.__init__ bus lsb_first bytewise = Ok mon
    ∧ ∀ j trace',
        j < length trace →
        with_idle mon (take j trace) trace' →
        AXIS_Monitor._monitor_recv mon trace' initial =
          (AXIS_Monitor.Running,
           {| packet_buf :=
                pending ((λ i, slice bytestr (i * W) (i * W + W)) <$> seq 0 j);
              received := [] |}).
Proof.
  intros Hdata Hkeep Hlast Hready Htid Htdest Htuser Hw HW.
  pose proof (n_bytes_of_width bus W Hdata) as Hn.
  assert (Hpres : present (len_tdata bus) = true) by by rewrite Hdata.
  set (m := master_on bus lsb_first W).
  set (w1 := AXIS_Master._idle_outputs m w).
  set (padstr := if padZero then replicate 8 "0" else replicate 8 "X").
  set (q := (length bytestr + W - 1) `div` W).
  set (offsets := (λ i, i * W) <$> seq 0 q).
  assert (Hoff : Forall (λ off, off < length bytestr) offsets).
  { apply Forall_fmap, Forall_forall. intros i Hi.
    apply elem_of_seq in Hi. cbn.
    destruct (Nat.eq_0_gt_0_cases (length bytestr)) as [H0|H0].
    - exfalso. unfold q in Hi. rewrite H0 in Hi.
      rewrite Nat.div_small in Hi by lia. lia.
    - destruct (word_count_bounds (length bytestr) W) as (_ & Hq2 & _);
        [lia..|]. fold q in Hq2. nia. }
  destruct (send_loop_trace m padstr bytestr offsets w1 Hpres Hoff)
    as [w' Hloop].
  exists m, w1, (wires_trace m padstr bytestr offsets w1),
    (AXIS_Master._idle_outputs m w'), (monitor_on bus lsb_first W).
  split_and!.
  - unfold AXIS_Master.__init__. by rewrite Hn.
  - unfold AXIS_Master._send_bytes. cbn [m master_on AXIS_Master._n_bytes].
    rewrite range_step_ok by done. cbn [mbind result_bind].
    fold padstr q offsets.
    change (master_on bus lsb_first W) with m. by rewrite Hloop.
  - unfold AXIS_Monitor.__init__. by rewrite Hn, Htuser.
  - intros j trace' Hj Hidle. rewrite wires_trace_length in Hj.
    unfold offsets in Hj. rewrite length_fmap, length_seq in Hj.
    assert (H0 : 0 < length bytestr).
    { destruct (Nat.eq_0_gt_0_cases (length bytestr)) as [H0|H0]; [|done].
      exfalso. unfold q in Hj. rewrite H0 in Hj.
      rewrite Nat.div_small in Hj by lia. lia. }
    destruct (word_count_bounds (length bytestr) W) as (_ & Hq2 & _);
      [lia..|]. fold q in Hq2.
    rewrite (monitor_recv_with_idle _ _ _ _ Hidle), wires_trace_take.
    unfold offsets. rewrite <- fmap_take, take_seq, Nat.min_l by lia.
    assert (Hmore : Forall (λ off, off + W < length bytestr)
                      ((λ i, i * W) <$> seq 0 j)).
    { apply Forall_fmap, Forall_forall. intros i Hi.
      apply elem_of_seq in Hi. cbn. nia. }
    change initial with {| packet_buf := pending []; received := [] |}.
    rewrite (monitor_recv_trace bus lsb_first W); try done.
    + rewrite absorb_more by done. cbn [app].
      by rewrite <- list_fmap_compose.
    + by destruct padZero.
    + by apply idle_outputs_ok.
    + eapply Forall_impl; [exact Hmore|]. cbn. lia.
Qed.

Lemma nothing_before_the_last_word_witness :
  len_tdata bus16 = Some (2 * 8) ∧ wires_ok quiet_wires
  ∧ ∃ trace w2,
      AXIS_Master._send_bytes master16 payload5 false idle16
        = Ok (trace, w2)
      ∧ length trace = 3
      ∧ AXIS_Monitor._monitor_recv mon16 (take 2 trace) initial =
          (AXIS_Monitor.Running,
           {| packet_buf := pending [[x11; x22]; [x33; x44]]%byte;
              received := [] |}).
Proof.
  assert (Hw : wires_ok quiet_wires) by (split; [done|by exists 1%N]).
  split; [reflexivity|]. split; [exact Hw|].
  destruct (nothing_before_the_last_word bus16 true false false 2 payload5
              quiet_wires eq_refl eq_refl eq_refl eq_refl eq_refl eq_refl
              eq_refl Hw ltac:(lia))
    as (m & w1 & trace & w2 & mon & Hm & Hs & Hmon & Hrun).
  injection Hm as <- <-. injection Hmon as <-.
  exists trace, w2. split; [exact Hs|].
  assert (Hlen : length trace = 3)
    by (pose proof Hs as Hs'; vm_compute in Hs'; injection Hs' as <- _;
        reflexivity).
  split; [exact Hlen|].
  apply (Hrun 2); [lia|apply with_idle_refl].
Defined.

(** ** A bus without [tkeep] and [tstrb] *)

Lemma word_layout_zero_filled (lsb : bool) W (c : list byte) :
  length c ≤ W →
  lane_bits (replicate 8 "0") <$> word_layout lsb W c
  = lane_bits (replicate 8 "0") <$> word_layout lsb W (zero_filled W c).
Proof.
  intros Hc. unfold word_layout, zero_filled.
  rewrite length_app, length_replicate.
  replace (W - (length c + (W - length c))) with 0 by lia.
  cbn [replicate]. destruct lsb.
  - rewrite reverse_app, reverse_replicate, app_nil_l, !fmap_app.
    f_equal. by rewrite !fmap_replicate.
  - rewrite app_nil_r, !fmap_app. f_equal. by rewrite !fmap_replicate.
Qed.

Lemma zero_filled_length W (c : list byte) :
  length c ≤ W → length (zero_filled W c) = W.
Proof.
  intros Hc. unfold zero_filled. rewrite length_app, length_replicate. lia.
Qed.

Lemma word_layout_full (lsb : bool) W (c : list byte) :
  length c = W → keep_char <$> word_layout lsb W c = replicate W "1".
Proof.
  intros Hc. unfold word_layout. rewrite Hc, Nat.sub_diag. cbn [replicate].
  destruct lsb.
  - by rewrite app_nil_l, keep_char_data, length_reverse, Hc.
  - by rewrite app_nil_r, keep_char_data, Hc.
Qed.

Section WithoutKeep.
Variables (bus : Bus) (lsb_first : bool) (W : nat).
Hypothesis bus_tdata : present (len_tdata bus) = true.
Hypothesis bus_tkeep : has_tkeep bus = false.
Hypothesis bus_tstrb : has_tstrb bus = false.
Hypothesis bus_tlast : has_tlast bus = true.
Hypothesis bus_tready : has_tready bus = true.
Hypothesis bus_tid : len_tid bus = None.
Hypothesis bus_tdest : len_tdest bus = None.
Hypothesis bus_tuser : len_tuser bus = None.

Abbreviation mon := (monitor_on bus lsb_first W).
Abbreviation master := (master_on bus lsb_first W).
Abbreviation zeros := (replicate 8 "0").

Lemma word_wires_any_ok padstr layout last_word w :
  wires_ok w → wires_ok (word_wires master padstr layout last_word w).
Proof.
  unfold word_wires, drive_if, wires_ok. cbn.
  by rewrite bus_tkeep, bus_tstrb, bus_tlast.
Qed.

Lemma word_wires_zero_filled c (last_word : bool) w :
  length c ≤ W → wires_ok w →
  let s := word_wires master zeros (word_layout lsb_first W c)
             (bit_char last_word) w in
  transferred mon s
  ∧ decoded mon s = Ok {| b_key := (None, None);
                          b_chunk := zero_filled W c;
                          b_last := last_word |}.
Proof.
  intros Hc [Hr Hrd] s. split.
  - unfold s, word_wires, drive_if. cbn.
    rewrite bus_tkeep, bus_tstrb, bus_tlast. split_and!; try done.
    by exists 1%N.
  - unfold decoded.
    rewrite (lanes_word mon s (word_layout lsb_first W (zero_filled W c))
               zeros).
    + cbn [monitor_on AXIS_Monitor._lsb_first mbind result_bind].
      rewrite word_layout_order, zero_filled_length, Nat.sub_diag by done.
      cbn [replicate]. rewrite app_nil_r.
      replace ((Some <$> zero_filled W c) ≫= payload_of)
        with (Byte.to_N <$> zero_filled W c)
        by (by rewrite <- (payload_of_chunk _ 0), app_nil_r).
      unfold stream_id, is_last, AXIS_Monitor.has_tid, AXIS_Monitor.has_tdest.
      cbn [monitor_on AXIS_Monitor.bus]. rewrite bus_tid, bus_tdest, bus_tlast.
      cbn [present mbind result_bind].
      replace (tlast s) with [bit_char last_word]
        by (unfold s, word_wires, drive_if; cbn;
            by rewrite bus_tkeep, bus_tstrb, bus_tlast).
      cbn [fst]. rewrite bytes_to_N. by destruct last_word.
    + unfold AXIS_Monitor.tkeep_of. cbn [monitor_on AXIS_Monitor.bus
        AXIS_Monitor._n_bytes]. rewrite bus_tkeep.
      by rewrite word_layout_full by by apply zero_filled_length.
    + unfold AXIS_Monitor.tstrb_of, AXIS_Monitor.tkeep_of.
      cbn [monitor_on AXIS_Monitor.bus AXIS_Monitor._n_bytes].
      rewrite bus_tkeep, bus_tstrb.
      by rewrite word_layout_full by by apply zero_filled_length.
    + unfold s, word_wires, drive_if. cbn.
      rewrite bus_tkeep, bus_tstrb. cbn.
      by rewrite word_layout_zero_filled.
    + done.
    + done.
    + unfold AXIS_Monitor.has_tuser. cbn. by rewrite bus_tuser.
    + apply word_layout_length. by rewrite zero_filled_length.
Qed.

(** The words [a], [a+1], ... of the trace against the chunks they
    carry. *)
Lemma wires_trace_zero_filled (bytestr : list byte) n : ∀ a w,
  0 < W → wires_ok w →
  (a + n - 1) * W < length bytestr ≤ (a + n) * W →
  Forall2 (λ s bt, transferred mon s ∧ decoded mon s = Ok bt)
    (wires_trace master zeros bytestr ((λ i, i * W) <$> seq a n) w)
    (beats_of (None, None)
       ((λ i, zero_filled W (slice bytestr (i * W) (i * W + W)))
          <$> seq a n)).
Proof.
  induction n as [|n IH]; intros a w HW Hw Hlen; [constructor|].
  cbn [seq fmap list_fmap wires_trace beats_of master_on
       AXIS_Master._lsb_first AXIS_Master._n_bytes].
  assert (Hc : length (slice bytestr (a * W) (a * W + W)) ≤ W)
    by (unfold slice; rewrite length_take; lia).
  assert (Hflag :
    (if bool_decide (a * W + W < length bytestr) then "0" else "1")
    = bit_char (bool_decide
        ((λ i, zero_filled W (slice bytestr (i * W) (i * W + W)))
           <$> seq (S a) n = []))).
  { destruct n as [|n].
    - cbn. by rewrite bool_decide_eq_false_2 by lia.
    - cbn [seq fmap list_fmap]. rewrite bool_decide_eq_true_2 by nia.
      by rewrite bool_decide_eq_false_2. }
  rewrite Hflag. apply Forall2_cons. split.
  - exact (word_wires_zero_filled _ _ w Hc Hw).
  - destruct n as [|n]; [constructor|].
    apply IH; [done|by apply word_wires_any_ok|lia].
Qed.

End WithoutKeep.

(** X18. Without [tkeep] and [tstrb] the padding is data.  On a bus
    with [tdata], [tlast] and [tready] and none of the other signals,
    out of reset and with the receiver ready, a byte sequence longer
    than one word sent with [padZero] comes back from the monitor as
    one packet whose payload is the sequence filled up with zero bytes
    to a whole number of words: the monitor cannot tell the padding of
    the last word from data. *)
Theorem without_tkeep_padding_is_data (bus : Bus)
    (lsb_first bytewise : bool) (W : nat) (bytestr : list byte)
    (w : Sample) :
  len_tdata bus = Some (W * 8) →
  has_tkeep bus = false → has_tstrb bus = false →
  has_tlast bus = true → has_tready bus = true →
  len_tid bus = None → len_tdest bus = None → len_tuser bus = None →
  wires_ok w →
  0 < W → W < length bytestr →
  let words := (length bytestr + W - 1) / W in
  ∃ m w1 trace w2 mon,
    AXIS_Master.__init__ bus lsb_first w = Ok (m, w1)
    ∧ AXIS_Master._send_bytes m bytestr true w1 = Ok (trace, w2)
    ∧ AXIS_Monitor.__init__ bus lsb_first bytewise = Ok mon
    ∧ ∀ trace', with_idle mon trace trace' →
        AXIS_Monitor._monitor_recv mon trace' initial
        = (AXIS_Monitor.Running,
           {| packet_buf := ∅;
              received :=
                [data_pkt (bytestr
                           ++ replicate (words * W - length bytestr)
                                x00%byte)] |}).
Proof.
  intros Hdata Hkeep Hstrb Hlast Hready Htid Htdest Htuser Hw HW HS words.
  pose proof (n_bytes_of_width bus W Hdata) as Hn.
  assert (Hpres : present (len_tdata bus) = true) by by rewrite Hdata.
  set (m := master_on bus lsb_first W).
  set (w1 := AXIS_Master._idle_outputs m w).
  set (offsets := (λ i, i * W) <$> seq 0 words).
  destruct (word_count_bounds (length bytestr) W) as (Hq1 & Hq2 & Hq3);
    [lia..|]. fold words in Hq1, Hq2, Hq3.
  assert (Hq : 2 ≤ words) by nia.
  assert (Hoff : Forall (λ off, off < length bytestr) offsets).
  { apply Forall_fmap, Forall_forall. intros i Hi.
    apply elem_of_seq in Hi. cbn. nia. }
  destruct (send_loop_trace m (replicate 8 "0") bytestr offsets w1 Hpres Hoff)
    as [w' Hloop].
  exists m, w1, (wires_trace m (replicate 8 "0") bytestr offsets w1),
    (AXIS_Master._idle_outputs m w'), (monitor_on bus lsb_first W).
  split_and!.
  - unfold AXIS_Master.__init__. by rewrite Hn.
  - unfold AXIS_Master._send_bytes. cbn [m master_on AXIS_Master._n_bytes].
    rewrite range_step_ok by done. cbn [mbind result_bind].
    fold words offsets.
    change (master_on bus lsb_first W) with m. by rewrite Hloop.
  - unfold AXIS_Monitor.__init__. by rewrite Hn, Htuser.
  - intros trace' Hidle. rewrite (monitor_recv_with_idle _ _ _ _ Hidle).
    pose proof (wires_trace_zero_filled bus lsb_first W Hpres Hkeep Hstrb
      Hlast Hready Htid Htdest Htuser bytestr words 0 w1 HW
      (idle_outputs_ok _ _ Hw) ltac:(cbn; lia)) as Hbeats.
    set (chunks := (λ i, zero_filled W (slice bytestr (i * W) (i * W + W)))
                     <$> seq 0 words) in *.
    assert (Hne : chunks ≠ []).
    { unfold chunks. destruct words; [lia|done]. }
    assert (Hmd : AXIS_Monitor.has_tdata (monitor_on bus lsb_first W) = true)
      by done.
    assert (Hmu : AXIS_Monitor.has_tuser (monitor_on bus lsb_first W) = false)
      by (unfold AXIS_Monitor.has_tuser; cbn; by rewrite Htuser).
    pose proof (monitor_recv_words (monitor_on bus lsb_first W) (None, None)
      chunks Hmd Hmu Hne [] _ ∅ [] Hbeats (lookup_empty _)) as Hrun.
    cbn [held app length Nat.add] in Hrun.
    change initial with {| packet_buf := ∅; received := [] |}.
    fold m offsets in Hrun. rewrite Hrun.
    rewrite bool_decide_eq_true_2
      by (unfold chunks; rewrite length_fmap, length_seq; lia).
    do 3 f_equal. unfold data_pkt, tagged_pkt, set_pkt_data, empty_pkt.
    cbn. do 2 f_equal. unfold chunks.
    (* all chunks but the last are whole words *)
    destruct words as [|q']; [lia|].
    rewrite seq_S, fmap_app, concat_app. cbn [fmap list_fmap concat Nat.add].
    rewrite app_nil_r.
    assert (Hfull : ∀ i, i < q' →
      zero_filled W (slice bytestr (i * W) (i * W + W))
      = slice bytestr (i * W) (i * W + W)).
    { intros i Hi. unfold zero_filled, slice.
      rewrite length_take, length_drop.
      replace (W - _ `min` _) with 0 by nia. cbn. by rewrite app_nil_r. }
    replace ((λ i, zero_filled W (slice bytestr (i * W) (i * W + W)))
               <$> seq 0 q')
      with ((λ i, slice bytestr (i * W) (i * W + W)) <$> seq 0 q').
    2:{ apply list_fmap_ext. intros ? i Hi%lookup_seq. cbn.
        symmetry. apply Hfull. lia. }
    unfold zero_filled at 1. rewrite app_assoc.
    pose proof (concat_chunks bytestr W (S q') ltac:(lia)) as Hcat.
    rewrite seq_S, fmap_app, concat_app in Hcat.
    cbn [fmap list_fmap concat Nat.add] in Hcat. rewrite app_nil_r in Hcat.
    rewrite Hcat. f_equal. f_equal.
    unfold slice. rewrite length_take, length_drop. cbn in *. nia.
Qed.

Lemma without_tkeep_padding_is_data_witness :
  len_tdata bus16_nokeep = Some (2 * 8) ∧ wires_ok quiet_wires
  ∧ 2 < length payload5
  ∧ ∃ trace w2,
      AXIS_Master._send_bytes (master_on bus16_nokeep true 2) payload5 true
        (AXIS_Master._idle_outputs (master_on bus16_nokeep true 2)
           quiet_wires)
        = Ok (trace, w2)
      ∧ AXIS_Monitor._monitor_recv (monitor_on bus16_nokeep true 2) trace
          initial
        = (AXIS_Monitor.Running,
           {| packet_buf := ∅;
              received := [data_pkt (payload5 ++ [x00]%byte)] |}).
Proof.
  assert (Hw : wires_ok quiet_wires) by (split; [done|by exists 1%N]).
  split; [reflexivity|]. split; [exact Hw|]. split; [cbn; lia|].
  destruct (without_tkeep_padding_is_data bus16_nokeep true false 2 payload5
              quiet_wires eq_refl eq_refl eq_refl eq_refl eq_refl eq_refl
              eq_refl eq_refl Hw ltac:(lia) ltac:(cbn; lia))
    as (m & w1 & trace & w2 & mon & Hm & Hs & Hmon & Hrun).
  injection Hm as <- <-. injection Hmon as <-.
  exists trace, w2. split; [exact Hs|].
  apply Hrun, with_idle_refl.
Defined.

Section UnknownPadding.
Variables (bus : Bus) (lsb_first : bool) (W : nat).
Hypothesis bus_tdata : present (len_tdata bus) = true.
Hypothesis bus_tkeep : has_tkeep bus = false.
Hypothesis bus_tstrb : has_tstrb bus = false.
Hypothesis bus_tuser : len_tuser bus = None.

Variables (c : list byte) (last_word : ascii) (w : Sample).
Hypothesis c_short : length c < W.

Let layout : list (option byte) := word_layout lsb_first W c.
Let s : Sample :=
  word_wires (master_on bus lsb_first W) (replicate 8 "X") layout last_word w.

Lemma unknown_padding_lane b x acc :
  layout !! b = Some x →
  AXIS_Monitor.lane (monitor_on bus lsb_first W) s b acc
  = match x with
    | Some v => Ok (acc.1 ++ [Byte.to_N v], acc.2)
    | None => Raise ValueError
    end.
Proof.
  intros Hb. destruct acc as [fd fu].
  assert (HbW : b < W).
  { apply lookup_lt_Some in Hb. unfold layout in Hb.
    rewrite word_layout_length in Hb by lia. done. }
  unfold AXIS_Monitor.lane, AXIS_Monitor.byte_type, AXIS_Monitor.tstrb_of,
    AXIS_Monitor.tkeep_of, AXIS_Monitor.has_tuser, index.
  cbn [monitor_on AXIS_Monitor.bus AXIS_Monitor._n_bytes
       AXIS_Monitor._tuser_bytewise].
  rewrite bus_tkeep, bus_tstrb, bus_tuser, lookup_replicate_2 by done.
  cbn [mbind result_bind present andb].
  change (resolve ["1"; "1"]) with (Ok ["1"; "1"]).
  cbn [mbind result_bind]. rewrite bool_decide_eq_true_2 by done.
  change (AXIS_Monitor.has_tdata (monitor_on bus lsb_first W))
    with (present (len_tdata bus)). rewrite bus_tdata.
  assert (Hdata : tdata s = concat (lane_bits (replicate 8 "X") <$> layout))
    by (unfold s, word_wires, drive_if; cbn;
        by rewrite bus_tkeep, bus_tstrb).
  rewrite (data_slice_layout s layout (replicate 8 "X") Hdata eq_refl b x Hb).
  destruct x as [v|]; cbn [lane_bits].
  - rewrite resolve_format_08b. cbn [mbind result_bind].
    by rewrite int2_format_08b.
  - reflexivity.
Qed.

Lemma unknown_padding_lanes acc :
  AXIS_Monitor.lanes (monitor_on bus lsb_first W) s
    (AXIS_Monitor.byte_range (monitor_on bus lsb_first W)) acc
  = Raise ValueError.
Proof.
  assert (Hsplit : ∃ pre b post,
    AXIS_Monitor.byte_range (monitor_on bus lsb_first W) = pre ++ b :: post
    ∧ layout !! b = Some None
    ∧ Forall (λ b', ∃ v, layout !! b' = Some (Some v)) pre).
  { unfold AXIS_Monitor.byte_range, layout, word_layout.
    cbn [monitor_on AXIS_Monitor._lsb_first AXIS_Monitor._n_bytes].
    set (n := length c). set (p := W - n).
    destruct lsb_first.
    - exists (reverse (seq p n)), (p - 1), (reverse (seq 0 (p - 1))).
      split_and!.
      + replace W with ((p - 1) + (1 + n)) at 1 by lia.
        rewrite seq_app, reverse_app. cbn [seq Nat.add].
        rewrite reverse_cons, <- app_assoc. cbn [app].
        by replace (S (p - 1)) with p by lia.
      + rewrite lookup_app_l by (rewrite length_replicate; lia).
        apply lookup_replicate_2. lia.
      + apply Forall_forall. intros b' Hb'.
        apply elem_of_reverse, elem_of_seq in Hb'.
        rewrite lookup_app_r by (rewrite length_replicate; lia).
        rewrite length_replicate, list_lookup_fmap.
        destruct (reverse c !! (b' - p)) as [v|] eqn:Hv; [by exists v|].
        apply lookup_ge_None in Hv. rewrite length_reverse in Hv. lia.
    - exists (seq 0 n), n, (seq (S n) (p - 1)). split_and!.
      + replace W with (n + (1 + (p - 1))) at 1 by lia.
        by rewrite seq_app.
      + rewrite lookup_app_r by (rewrite length_fmap; lia).
        rewrite length_fmap, Nat.sub_diag. apply lookup_replicate_2. lia.
      + apply Forall_forall. intros b' Hb'. apply elem_of_seq in Hb'.
        rewrite lookup_app_l by (rewrite length_fmap; lia).
        rewrite list_lookup_fmap.
        destruct (c !! b') as [v|] eqn:Hv; [by exists v|].
        apply lookup_ge_None in Hv. lia. }
  destruct Hsplit as (pre & b & post & -> & Hb & Hpre).
  destruct (lanes_stop_at (monitor_on bus lsb_first W) s pre b post acc
              ValueError) as (e' & -> & He').
  { intros acc'. by rewrite (unknown_padding_lane b None). }
  rewrite He'; [done|].
  eapply Forall_impl; [exact Hpre|]. intros b' [v Hv] a.
  rewrite (unknown_padding_lane b' (Some v)) by done. by eexists.
Qed.

End UnknownPadding.

(** X19. Without [tkeep] and [tstrb] unknown padding stops the
    monitor.  On a bus with [tdata] and [tready] and without [tkeep],
    [tstrb] and [tuser], out of reset and with the receiver ready, a
    word that [_send_bytes] fills up with the default padding (no
    [padZero]) makes the monitor raise [ValueError] at that sample
    point, with its state as it was: every lane counts as a Data
    byte, and the padding bits do not resolve. *)
Theorem without_tkeep_unknown_padding_stops (bus : Bus) (lsb_first : bool)
    (W : nat) (bytestr : list byte) (offset : nat) (w : Sample) :
  present (len_tdata bus) = true →
  has_tkeep bus = false → has_tstrb bus = false →
  has_tready bus = true → len_tuser bus = None →
  wires_ok w →
  offset < length bytestr < offset + W →
  ∃ s,
    AXIS_Master.send_word (master_on bus lsb_first W) (replicate 8 "X")
      bytestr offset w = Ok s
    ∧ ∀ st,
        AXIS_Monitor.cycle (monitor_on bus lsb_first W) s st
        = (Raise ValueError, st).
Proof.
  intros Hd Hk Hs Hr Hu [Hres Hrd] [Hlo Hhi].
  eexists. split; [by apply send_word_wires|]. intros st.
  cbn [master_on AXIS_Master._lsb_first AXIS_Master._n_bytes].
  rewrite cycle_transferred.
  - unfold AXIS_Monitor.word. rewrite M_bind_eq. unfold lift at 1.
    rewrite unknown_padding_lanes; try done.
    unfold slice. rewrite length_take, length_drop. lia.
  - unfold word_wires, drive_if. cbn. rewrite Hk, Hs.
    destruct (has_tlast bus); (split_and!; [done| |done|done]);
      by exists 1%N.
Qed.

Lemma without_tkeep_unknown_padding_stops_witness :
  present (len_tdata bus16_nokeep) = true ∧ wires_ok quiet_wires
  ∧ 4 < length payload5 < 4 + 2
  ∧ ∃ s,
      AXIS_Master.send_word (master_on bus16_nokeep true 2) (replicate 8 "X")
        payload5 4 quiet_wires = Ok s
      ∧ AXIS_Monitor.cycle (monitor_on bus16_nokeep true 2) s initial
        = (Raise ValueError, initial).
Proof.
  assert (Hw : wires_ok quiet_wires) by (split; [done|by exists 1%N]).
  split; [reflexivity|]. split; [exact Hw|]. split; [cbn; lia|].
  destruct (without_tkeep_unknown_padding_stops bus16_nokeep true 2 payload5
              4 quiet_wires eq_refl eq_refl eq_refl eq_refl eq_refl Hw
              ltac:(cbn; lia)) as (s & Hs & Hc).
  exists s. split; [exact Hs|apply Hc].
Defined.

(** ** What a received packet holds *)

Lemma hd_ret P {A} (a : A) : hands_only P (mret a).
Proof.
  intros st res st' [= _ <-]. exists []. by rewrite app_nil_r.
Qed.

Lemma hd_lift P {A} (r : result A) : hands_only P (lift r).
Proof.
  intros st res st' [= _ <-]. exists []. by rewrite app_nil_r.
Qed.

Lemma hd_get_buf P : hands_only P get_buf.
Proof.
  intros st res st' [= _ <-]. exists []. by rewrite app_nil_r.
Qed.

Lemma hd_put_buf P buf : hands_only P (put_buf buf).
Proof.
  intros st res st' [= _ <-]. exists []. by rewrite app_nil_r.
Qed.

Lemma hd_bind P {A B} (m : M A) (k : A → M B) :
  hands_only P m → (∀ a, hands_only P (k a)) → hands_only P (m ≫= k).
Proof.
  intros Hm Hk st res st'. rewrite M_bind_eq.
  destruct (m st) as [[a|e] st1] eqn:E.
  - intros H2. apply Hm in E as (new1 & E1 & L1).
    apply Hk in H2 as (new2 & E2 & L2).
    exists (new1 ++ new2). rewrite E2, E1, app_assoc.
    split; [done|by apply Forall_app].
  - intros [= _ <-]. by apply Hm in E.
Qed.

Lemma hd_try P {A} (body handler : M A) :
  hands_only P body → hands_only P handler →
  hands_only P (try_except_KeyError body handler).
Proof.
  intros Hb Hh st res st'. unfold try_except_KeyError.
  destruct (body st) as [[a|e] st1] eqn:E.
  - intros [= _ <-]. by apply Hb in E.
  - apply Hb in E as (new1 & E1 & L1).
    assert (Hkeep : (Raise e, st1) = (res, st') →
      ∃ new, received st' = received st ++ new ∧ Forall P new)
      by (intros [= _ <-]; by exists new1).
    destruct e; try exact Hkeep.
    intros (new2 & E2 & L2)%Hh. exists (new1 ++ new2).
    rewrite E2, E1, app_assoc. split; [done|by apply Forall_app].
Qed.

Ltac hd_step :=
  match goal with
  | |- hands_only _ (_ ≫= _) => apply hd_bind; [|intros]
  | |- hands_only _ (try_except_KeyError _ _) => apply hd_try
  | |- hands_only _ (if ?c then _ else _) => destruct c
  | |- hands_only _ (match ?x with _ => _ end) => destruct x
  | |- hands_only _ (mret _) => apply hd_ret
  | |- hands_only _ get_buf => apply hd_get_buf
  | |- hands_only _ (put_buf _) => apply hd_put_buf
  | |- hands_only _ (lift _) => apply hd_lift
  end.

Ltac crunch :=
  repeat (msimpl; match goal with
    | H : ?x = _ |- context [match ?x with _ => _ end] => rewrite H
    | |- context [AXIS_Monitor.has_tdata ?m] =>
        destruct (AXIS_Monitor.has_tdata m) eqn:?
    | |- context [AXIS_Monitor.has_tuser ?m] =>
        destruct (AXIS_Monitor.has_tuser m) eqn:?
    | |- context [AXIS_Monitor._tuser_bytewise ?m] =>
        destruct (AXIS_Monitor._tuser_bytewise m) eqn:?
    | |- context [AXIS_Monitor.has_tid ?m] =>
        destruct (AXIS_Monitor.has_tid m) eqn:?
    | |- context [AXIS_Monitor.has_tdest ?m] =>
        destruct (AXIS_Monitor.has_tdest m) eqn:?
    | |- context [match ?b !! ?k with _ => _ end] => destruct (b !! k) eqn:?
    | |- context [match e_data ?e with _ => _ end] => destruct (e_data e) eqn:?
    | |- context [match e_user ?e with _ => _ end] => destruct (e_user e) eqn:?
    | |- context [match bytes ?l with _ => _ end] => destruct (bytes l) eqn:?
    | |- context [match resolve ?l with _ => _ end] =>
        destruct (resolve l) eqn:?
    | |- context [match int_signal ?l with _ => _ end] =>
        destruct (int_signal l) eqn:?
    end).

Lemma hd_complete self s k fd fu :
  hands_only (completed_at self s) (AXIS_Monitor.complete self s k fd fu).
Proof.
  intros [buf r] res st'.
  unfold completed_at, AXIS_Monitor.complete, AXIS_Monitor.user_of_word,
    getitem, getitem_data, getitem_user, delitem.
  crunch.
  all: intros [= _ <-]; cbn [received].
  all: first [ exists []; split; [by rewrite app_nil_r|constructor]
             | eexists [_]; split; [reflexivity|] ].
  all: apply Forall_singleton; cbn; split_and!; eauto.
Qed.

Lemma hd_word self s :
  hands_only (completed_at self s) (AXIS_Monitor.word self s).
Proof.
  unfold AXIS_Monitor.word.
  apply hd_bind; [apply hd_lift|intros [fd fu]].
  apply hd_bind; [repeat hd_step|intros id].
  apply hd_bind; [repeat hd_step|intros dest].
  apply hd_bind; [repeat hd_step|intros [|]].
  - apply hd_try; [apply hd_complete|].
    unfold AXIS_Monitor.complete_unbuffered, AXIS_Monitor.user_of_word.
    repeat hd_step.
  - unfold AXIS_Monitor.extend, AXIS_Monitor.create, getitem, getitem_data,
      getitem_user, setitem.
    repeat hd_step.
Qed.

Lemma hd_cycle self s :
  hands_only (completed_at self s) (AXIS_Monitor.cycle self s).
Proof.
  unfold AXIS_Monitor.cycle. destruct (in_reset s); [repeat hd_step|].
  apply hd_bind; [apply hd_lift|intros valid].
  destruct (N.eqb valid 0); [apply hd_ret|].
  apply hd_bind; [apply hd_lift|intros ready].
  destruct (N.eqb ready 0); [apply hd_ret|]. apply hd_word.
Qed.

(** X20. What a received packet holds.  Whatever the monitor, its
    state and the sample points, and however the loop ends, every
    packet it hands to [_recv] during the run was completed at one of
    the sample points: it has a payload exactly if the bus has
    [tdata], and it carries the [tid] and the [tdest] of that sample
    point exactly if the bus has them and, with a [tuser] that is not
    byte-wise, the resolved [tuser] of that sample point. *)
Theorem received_packets_are_completed (self : AXIS_Monitor.t)
    (samples : list Sample) (st : State) :
  ∃ new,
    received (AXIS_Monitor._monitor_recv self samples st).2
    = received st ++ new
    ∧ Forall (λ p, ∃ s, s ∈ samples ∧ completed_at self s p) new.
Proof.
  revert st. induction samples as [|s l IH]; intros st.
  - exists []. by rewrite app_nil_r.
  - cbn [AXIS_Monitor._monitor_recv].
    destruct (AXIS_Monitor.cycle self s st) as [[[]|e] st1] eqn:E;
      apply hd_cycle in E as (new1 & E1 & L1).
    + destruct (IH st1) as (new2 & E2 & L2). exists (new1 ++ new2).
      rewrite E2, E1, app_assoc. split; [done|]. apply Forall_app. split.
      * eapply Forall_impl; [exact L1|]. intros p Hp. exists s.
        split; [apply list_elem_of_here|done].
      * eapply Forall_impl; [exact L2|]. intros p (s' & Hs' & Hp).
        exists s'. split; [by apply list_elem_of_further|done].
    + exists new1. split; [done|].
      eapply Forall_impl; [exact L1|]. intros p Hp. exists s.
      split; [apply list_elem_of_here|done].
Qed.
